(** * Training-loop orchestration of the CIFAR example scripts

    A shallow embedding of the control logic of

    - [reduction/cifar10/distillation/distillation.py] (function [distil]) and
    - [distributed/cifar10-100/multi_device_multi_process_classification.py]
      (function [train]),

    together with the properties their specification states about them.

    Conventions of the embedding.
    - Python [int] is [Z]; Python [float] is read over the exact rationals
      [Q], so rounding is not modelled.  [int(x)] truncates towards zero.
    - A Python exception is a value [Raise e] of the error monad [result];
      nothing in the two scripts catches an exception, so [Raise] propagates
      to the end of the run.  A process that waits for ever in a collective
      call of the communicator runs no statement after it either: this
      outcome is [Raise Blocked].
    - Calls into the framework that leave a trace outside the process
      (monitor entries, parameter snapshots, checkpoints) and the calls the
      specification counts (validation passes, training steps, learning-rate
      changes) are recorded, in program order, in an event log carried by
      the loop state.
    - What the framework computes (the error of a batch, the optimiser's
      new value of a parameter, the content of a checkpoint) is a section
      variable: an arbitrary but fixed function. *)

From Stdlib Require Import ZArith QArith Qminmax Lia String Ascii List Bool.
From Stdlib Require Import DecimalString DecimalNat DecimalZ.
From stdpp Require Import gmap strings list.

Local Open Scope Z_scope.

(** ** Python values, exceptions and loops *)

Module Py.

(** The exceptions the scripts meet, and [Blocked]: no exception, but the
    outcome of a process that has entered a collective call which a peer
    never enters. *)
Inductive exn : Type :=
| ZeroDivisionError
| ValueError
| NameError
| OSError
| Blocked.

Inductive result (A : Type) : Type :=
| Ok (a : A)
| Raise (e : exn).
Arguments Ok {A} a.
Arguments Raise {A} e.

Definition bind {A B : Type} (m : result A) (k : A -> result B) : result B :=
  match m with
  | Ok a => k a
  | Raise e => Raise e
  end.

Definition is_ok {A : Type} (m : result A) : bool :=
  match m with Ok _ => true | Raise _ => false end.

(** [a / b] on numbers: true division, [ZeroDivisionError] on [b = 0]. *)
Definition truediv (a b : Q) : result Q :=
  if Qeq_bool b 0 then Raise ZeroDivisionError else Ok (a / b)%Q.

(** [int(x)] of a float: truncation towards zero. *)
Definition int (x : Q) : Z := Z.quot (Qnum x) (Z.pos (Qden x)).

(** [a % b] on ints: the sign of the result follows the divisor. *)
Definition mod_ (a b : Z) : result Z :=
  if b =? 0 then Raise ZeroDivisionError else Ok (a mod b).

(** [x < y] on floats. *)
Definition ltb (x y : Q) : bool := negb (Qle_bool y x).

(** [range(lo, hi)]. *)
Definition range (lo hi : Z) : list Z :=
  map (fun k => lo + Z.of_nat k) (seq 0 (Z.to_nat (hi - lo))).

(** [range(lo, hi, step)]: [ValueError] on a zero step. *)
Definition range3 (lo hi step : Z) : result (list Z) :=
  if step =? 0 then Raise ValueError
  else
    let count :=
      if 0 <? step then (hi - lo + step - 1) / step
      else (lo - hi - step - 1) / (- step) in
    Ok (map (fun k => lo + Z.of_nat k * step) (seq 0 (Z.to_nat count))).

(** [l[lo:hi]] for [0 <= lo]. *)
Definition slice {A : Type} (l : list A) (lo hi : Z) : list A :=
  firstn (Z.to_nat (hi - lo)) (skipn (Z.to_nat lo) l).

(** [for x in l: s = body(s, x)], stopping at the first exception. *)
Fixpoint for_each {A S : Type} (body : S -> A -> result S)
         (l : list A) (s : S) : result S :=
  match l with
  | [] => Ok s
  | x :: l' => bind (body s x) (for_each body l')
  end.

(** [[f(x) for x in l]], stopping at the first exception. *)
Fixpoint map_each {A B : Type} (f : A -> result B) (l : list A)
  : result (list B) :=
  match l with
  | [] => Ok []
  | x :: l' =>
      bind (f x) (fun y => bind (map_each f l') (fun ys => Ok (y :: ys)))
  end.

(** [str(n)] and ['%d' % n] of an int. *)
Definition str (n : Z) : string := NilZero.string_of_int (Z.to_int n).

Fixpoint zeros (n : nat) : string :=
  match n with
  | O => EmptyString
  | S n' => String "0" (zeros n')
  end.

(** [s.zfill(w)] of a string without sign. *)
Definition zfill (w : nat) (s : string) : string :=
  (zeros (w - String.length s) +:+ s)%string.

(** ['%06d' % n]: the sign counts in the width. *)
Definition fmt_06d (n : Z) : string :=
  if n <? 0 then String "-" (zfill 5 (str (- n))) else zfill 6 (str n).

(** [os.path.join(dir, name)] for a relative [name]. *)
Fixpoint ends_with_slash (s : string) : bool :=
  match s with
  | EmptyString => false
  | String c EmptyString => Ascii.eqb c "/"
  | String _ s' => ends_with_slash s'
  end.

Definition path_join (dir name : string) : string :=
  match dir with
  | EmptyString => name
  | _ => if ends_with_slash dir then (dir +:+ name)%string
         else (dir +:+ "/" +:+ name)%string
  end.

End Py.

Import Py.

Declare Scope py_scope.
Notation "'let!' x ':=' m 'in' k" := (Py.bind m (fun x => k))
  (at level 10, x name, m at level 100, k at level 200) : py_scope.
Local Open Scope py_scope.

(** *** Facts about the Python layer *)

Lemma range_nil (lo hi : Z) : hi <= lo -> Py.range lo hi = [].
Proof.
  intros H. unfold Py.range.
  replace (Z.to_nat (hi - lo)) with O by lia. reflexivity.
Qed.

Lemma range_snoc (lo hi : Z) :
  lo <= hi -> Py.range lo (hi + 1) = Py.range lo hi ++ [hi].
Proof.
  intros H. unfold Py.range.
  replace (Z.to_nat (hi + 1 - lo)) with (S (Z.to_nat (hi - lo))) by lia.
  rewrite seq_S, map_app. simpl. do 2 f_equal. lia.
Qed.

Lemma range_length (lo hi : Z) :
  length (Py.range lo hi) = Z.to_nat (hi - lo).
Proof. unfold Py.range. now rewrite length_map, length_seq. Qed.

Lemma in_range (lo hi i : Z) : In i (Py.range lo hi) <-> lo <= i < hi.
Proof.
  unfold Py.range. rewrite in_map_iff. split.
  - intros (k & <- & Hk). apply in_seq in Hk. lia.
  - intros Hi. exists (Z.to_nat (i - lo)). split; [lia|].
    apply in_seq. lia.
Qed.

Lemma for_each_app {A S : Type} (body : S -> A -> result S)
      (l1 l2 : list A) (s : S) :
  for_each body (l1 ++ l2) s
  = Py.bind (for_each body l1 s) (for_each body l2).
Proof.
  revert s. induction l1 as [|x l1 IH]; intros s; simpl; [reflexivity|].
  destruct (body s x); simpl; [apply IH | reflexivity].
Qed.

Lemma for_each_snoc {A S : Type} (body : S -> A -> result S)
      (l : list A) (x : A) (s : S) :
  for_each body (l ++ [x]) s
  = Py.bind (for_each body l s) (fun s' => body s' x).
Proof.
  rewrite for_each_app. destruct (for_each body l s); simpl; [|reflexivity].
  destruct (body a x); reflexivity.
Qed.

Lemma ltb_lt (x y : Q) : Py.ltb x y = true <-> (x < y)%Q.
Proof.
  unfold Py.ltb. rewrite negb_true_iff. split.
  - intros H. apply Qnot_le_lt. intros Hle.
    apply Qle_bool_iff in Hle. congruence.
  - intros H. destruct (Qle_bool y x) eqn:E; [|reflexivity].
    apply Qle_bool_iff in E. exfalso. exact (Qlt_not_le _ _ H E).
Qed.

Lemma ltb_irrefl (x : Q) : Py.ltb x x = false.
Proof.
  destruct (Py.ltb x x) eqn:E; [|reflexivity].
  apply ltb_lt in E. exfalso. exact (Qlt_irrefl _ E).
Qed.

Lemma for_each_invariant {A S : Type} (P : S -> Prop)
      (body : S -> A -> result S) (l : list A) :
  (forall s x s', P s -> body s x = Ok s' -> P s') ->
  forall s s', P s -> for_each body l s = Ok s' -> P s'.
Proof.
  intros Hstep. induction l as [|x l IH]; intros s s' Hs; simpl.
  - intros [= <-]. exact Hs.
  - destruct (body s x) as [s1|] eqn:E; simpl; [|discriminate].
    apply IH. eapply Hstep; eassumption.
Qed.

Lemma Qeq_bool_inject_Z (z : Z) :
  z <> 0 -> Qeq_bool (inject_Z z) 0 = false.
Proof.
  intros Hz. destruct (Qeq_bool (inject_Z z) 0) eqn:E; [|reflexivity].
  apply Qeq_bool_iff in E. unfold Qeq in E. simpl in E. lia.
Qed.

(** A division by an int that is not zero returns. *)
Lemma truediv_ok (x : Q) (z : Z) :
  z <> 0 -> Py.truediv x (inject_Z z) = Ok (x / inject_Z z)%Q.
Proof. intros Hz. unfold Py.truediv. now rewrite Qeq_bool_inject_Z. Qed.

Lemma truediv_inv (x : Q) (z : Z) (q : Q) :
  Py.truediv x (inject_Z z) = Ok q -> z <> 0 /\ q = (x / inject_Z z)%Q.
Proof.
  unfold Py.truediv.
  destruct (Qeq_bool (inject_Z z) 0) eqn:E; [discriminate|].
  intros [= <-]. split; [|reflexivity]. intros ->. discriminate.
Qed.

(** [int] truncates the value of a float, whatever fraction writes it. *)
Lemma int_Qeq (x y : Q) : (x == y)%Q -> Py.int x = Py.int y.
Proof.
  destruct x as [a b], y as [c d]. unfold Py.int, Qeq. simpl. intros H.
  rewrite <- (Z.quot_mul_cancel_r a (Z.pos b) (Z.pos d)) by lia.
  rewrite H, (Z.mul_comm (Z.pos b) (Z.pos d)).
  now rewrite Z.quot_mul_cancel_r by lia.
Qed.

(** [int(a / b)] of two ints is the truncated quotient. *)
Lemma int_div (a b : Z) :
  b <> 0 -> Py.int (inject_Z a / inject_Z b) = Z.quot a b.
Proof.
  intros Hb. unfold Py.int, Qdiv, Qmult, Qinv, inject_Z. simpl.
  destruct b as [|p|p]; [congruence| |]; simpl.
  - now rewrite Z.mul_1_r.
  - rewrite Pos.mul_1_l. replace (a * -1) with (- a) by lia.
    change (Z.neg p) with (- Z.pos p).
    rewrite Z.quot_opp_l, Z.quot_opp_r by lia. reflexivity.
Qed.

(** *** Ranges, slices and the decimal writing of ints *)

Lemma range_split (lo m hi : Z) :
  lo <= m < hi ->
  Py.range lo hi = Py.range lo m ++ m :: Py.range (m + 1) hi.
Proof.
  intros H. replace hi with (m + 1 + Z.of_nat (Z.to_nat (hi - (m + 1))))
    by lia.
  induction (Z.to_nat (hi - (m + 1))) as [|k IH].
  - rewrite Z.add_0_r, range_snoc by lia.
    now rewrite (range_nil (m + 1)) by lia.
  - replace (m + 1 + Z.of_nat (S k)) with (m + 1 + Z.of_nat k + 1) by lia.
    rewrite !range_snoc by lia. rewrite IH.
    now rewrite <- app_assoc.
Qed.

Lemma range_NoDup (lo hi : Z) : List.NoDup (Py.range lo hi).
Proof.
  unfold Py.range. apply Finite.Injective_map_NoDup; [|apply seq_NoDup].
  intros x y. lia.
Qed.

Lemma slice_length {A : Type} (l : list A) (lo hi : Z) :
  length (Py.slice l lo hi)
  = Nat.min (Z.to_nat (hi - lo)) (length l - Z.to_nat lo).
Proof. unfold Py.slice. now rewrite length_firstn, length_skipn. Qed.

(** Two adjacent slices make one. *)
Lemma slice_app {A : Type} (l : list A) (a b c : Z) :
  0 <= a <= b -> b <= c ->
  Py.slice l a b ++ Py.slice l b c = Py.slice l a c.
Proof.
  intros Hab Hbc. unfold Py.slice.
  replace (Z.to_nat b) with (Z.to_nat a + Z.to_nat (b - a))%nat by lia.
  rewrite <- drop_drop, take_take_drop. f_equal. lia.
Qed.

Lemma app_String (c : ascii) (s t : string) :
  (String c s +:+ t)%string = String c (s +:+ t)%string.
Proof. reflexivity. Qed.

Lemma length_app_string (s t : string) :
  String.length (s +:+ t) = (String.length s + String.length t)%nat.
Proof.
  induction s as [|c s IH]; [reflexivity|].
  rewrite app_String. cbn [String.length]. now rewrite IH.
Qed.

Lemma app_string_inj_r (s1 s2 t : string) :
  (s1 +:+ t)%string = (s2 +:+ t)%string -> s1 = s2.
Proof.
  revert s2. induction s1 as [|c s1 IH]; intros [|d s2] H.
  - reflexivity.
  - apply (f_equal String.length) in H.
    change (String.length t = String.length (String d (s2 +:+ t))) in H.
    cbn [String.length] in H. rewrite length_app_string in H. lia.
  - apply (f_equal String.length) in H.
    change (String.length (String c (s1 +:+ t)) = String.length t) in H.
    cbn [String.length] in H. rewrite length_app_string in H. lia.
  - rewrite !app_String in H. injection H as -> H. f_equal. now apply IH.
Qed.

(** [os.path.join] with the same directory keeps distinct names distinct. *)
Lemma path_join_inj (dir x y : string) :
  Py.path_join dir x = Py.path_join dir y -> x = y.
Proof.
  unfold Py.path_join. destruct dir as [|c dir]; [tauto|].
  destruct (Py.ends_with_slash (String c dir)); intros H.
  - now apply String.app_inj in H.
  - apply String.app_inj in H. now apply String.app_inj in H.
Qed.

(** Reading back the digits [str] writes for an int that is not negative,
    behind any number of zeros. *)
Lemma str_value (n : Z) (k : nat) :
  0 <= n ->
  option_map Z.of_uint (NilEmpty.uint_of_string (Py.zeros k +:+ Py.str n))
  = Some n.
Proof.
  intros Hn. induction k as [|k IH].
  - change (Py.zeros 0 +:+ Py.str n)%string with (Py.str n). unfold Py.str.
    destruct n as [|p|p]; [reflexivity| |lia].
    cbn [Z.to_int NilZero.string_of_int]. unfold NilZero.string_of_uint.
    pose proof (DecimalPos.Unsigned.to_uint_nonnil p) as Hnil.
    destruct (Pos.to_uint p) eqn:E; [congruence| | | | | | | | | |];
      rewrite <- E, NilEmpty.usu; cbn [option_map]; unfold Z.of_uint;
      now rewrite DecimalPos.Unsigned.of_to.
  - cbn [Py.zeros]. rewrite app_String. cbn [NilEmpty.uint_of_string].
    destruct (NilEmpty.uint_of_string (Py.zeros k +:+ Py.str n))
      as [d|]; [|discriminate]. exact IH.
Qed.

(** ['%06d'] writes distinct ints that are not negative differently. *)
Lemma fmt_06d_inj (m n : Z) :
  0 <= m -> 0 <= n -> Py.fmt_06d m = Py.fmt_06d n -> m = n.
Proof.
  intros Hm Hn. unfold Py.fmt_06d, Py.zfill.
  replace (m <? 0) with false by (symmetry; lia).
  replace (n <? 0) with false by (symmetry; lia).
  intros H.
  pose proof (str_value m (6 - String.length (Py.str m)) Hm) as Em.
  pose proof (str_value n (6 - String.length (Py.str n)) Hn) as En.
  rewrite H in Em. congruence.
Qed.

(** ** The distillation script: [distil] *)

Module Distillation.

(** The command-line arguments the loop reads. *)
Record args : Type := {
  batch_size : Z;
  max_iter : Z;
  val_interval : Z;
  model_save_path : string
}.

Inductive event : Type :=
| MonitorVerr (i : Z) (ve : Q)      (* monitor_verr.add(i, ve) *)
| SaveParameters (file : string)    (* nn.save_parameters(file) *)
| SolverUpdate (i : Z)              (* zero_grad .. solver.update() *)
| MonitorLoss (i : Z)
| MonitorErr (i : Z)
| MonitorTime (i : Z).

Definition teacher : string := "teacher".
Definition student : string := "student".

(** A graph output, as far as gradients are concerned: the parameter scope
    it was built in and its [need_grad] flag. *)
Record variable : Type := {
  var_scope : string;
  need_grad : bool
}.

(** [pred_label.need_grad = False] and [pred], the two inputs of [loss]. *)
Definition pred_label : variable :=
  {| var_scope := teacher; need_grad := false |}.
Definition pred : variable :=
  {| var_scope := student; need_grad := true |}.
Definition loss_inputs : list variable := [pred; pred_label].

Definition n_valid : Z := 10000.

Definition params_file (a : args) (i : Z) : string :=
  path_join (model_save_path a) ("params_" +:+ fmt_06d i +:+ ".h5").

Section Loop.

(** The value of a parameter. *)
Variable tensor : Type.
(** [categorical_error(vpred.d, vlabel.d)] on batch [j] of the
    validation pass number [i]. *)
Variable categorical_error : Z -> Z -> Q.
(** The value the optimiser gives parameter [name] at iteration [i]
    ([weight_decay] then [update]), from the current parameters. *)
Variable adam : Z -> gmap string tensor -> string -> tensor.
(** The parameters read by [nn.load_parameters(model_load_path)]. *)
Variable loaded : gmap string tensor.
(** Modelled from the spec: [models.py] is not among the sources.
    [layer_names] are the parameter names, relative to the scope [net],
    that [cifar10_resnet23_prediction(.., net=net, ..)] creates, and
    [initializer] gives a created parameter its first value. *)
Variable layer_names : list string.
Variable initializer : string -> tensor.

(** *** Parameter scopes *)

(** Modelled from the spec: a parameter lives in scope [scope] when its
    name is [scope/...]. *)
Definition in_scope (scope name : string) : bool :=
  String.prefix (scope +:+ "/") name.

Definition scoped (net rel : string) : string := net +:+ "/" +:+ rel.

(** Modelled from the spec: [model_prediction(image, net=net, ..)]
    builds its graph inside [nn.parameter_scope(net)], creating the
    parameters that are not there yet.  A forward pass through the graph
    reads the parameters and writes none (what a teacher built with
    [test = not args.use_batch] does to its batch statistics is not
    modelled). *)
Definition model_prediction (net : string) (store : gmap string tensor)
  : gmap string tensor :=
  fold_left
    (fun st rel =>
       match st !! scoped net rel with
       | Some _ => st
       | None => <[scoped net rel := initializer (scoped net rel)]> st
       end)
    layer_names store.

(** Modelled from the spec:
    [with nn.parameter_scope(scope): nn.get_parameters()], the parameters
    of the scope (under their full names). *)
Definition get_parameters (scope : string) (store : gmap string tensor)
  : gmap string tensor :=
  filter (fun kv => in_scope scope kv.1 = true) store.

(** The parameters after the three calls of [model_prediction]
    (teacher, student, and student again for the test graph). *)
Definition built : gmap string tensor :=
  model_prediction student
    (model_prediction student (model_prediction teacher loaded)).

(** [solver.set_parameters(nn.get_parameters())] under
    [nn.parameter_scope(student)]: the names the solver holds. *)
Definition solver_parameters : gset string :=
  dom (get_parameters student built).

(** Modelled from the spec: the parameters [loss.backward] propagates a
    gradient to, those in the scope of an input of [loss] that needs a
    gradient. *)
Definition receives_grad (name : string) : bool :=
  existsb (fun v => need_grad v && in_scope (var_scope v) name)
          loss_inputs.

(** Modelled from the spec: [solver.update()] gives every parameter the
    solver holds its new value and leaves the others alone. *)
Definition solver_update (i : Z) (store : gmap string tensor)
  : gmap string tensor :=
  map_imap
    (fun name v =>
       Some (if decide (name ∈ solver_parameters)
             then adam i store name else v))
    store.

(** *** The loop *)

Record state : Type := {
  ve : option Q;
  best_ve : Q;
  params : gmap string tensor;
  log : list event
}.

Definition emit (e : event) (st : state) : state :=
  {| ve := ve st; best_ve := best_ve st; params := params st;
     log := log st ++ [e] |}.

Definition set_ve (v : Q) (st : state) : state :=
  {| ve := Some v; best_ve := best_ve st; params := params st;
     log := log st |}.

Definition set_best_ve (v : Q) (st : state) : state :=
  {| ve := ve st; best_ve := v; params := params st; log := log st |}.

Definition set_params (p : gmap string tensor) (st : state) : state :=
  {| ve := ve st; best_ve := best_ve st; params := p; log := log st |}.

(** Lines 104-109: one pass over the validation set. *)
Definition validation (a : args) (i : Z) : result Q :=
  let! q := truediv (inject_Z n_valid) (inject_Z (batch_size a)) in
  let ve :=
    fold_left (fun ve j => (ve + categorical_error i j)%Q)
              (range 0 (int q)) 0.0%Q in
  truediv ve (inject_Z (int q)).

(** Lines 111-114. *)
Definition save_if_best (a : args) (i : Z) (st : state) : result state :=
  match ve st with
  | None => Raise NameError
  | Some v =>
      if ltb v (best_ve st)
      then Ok (set_best_ve v (emit (SaveParameters (params_file a i)) st))
      else Ok st
  end.

(** Lines 116-125. *)
Definition train_step (i : Z) (st : state) : state :=
  emit (MonitorTime i)
    (emit (MonitorErr i)
       (emit (MonitorLoss i)
          (emit (SolverUpdate i)
             (set_params (solver_update i (params st)) st)))).

(** Lines 102-125: the body of [for i in range(args.max_iter)]. *)
Definition iteration (a : args) (st : state) (i : Z) : result state :=
  let! r := mod_ i (val_interval a) in
  let! st1 := (if r =? 0
             then let! v := validation a i in
                  Ok (emit (MonitorVerr i v) (set_ve v st))
             else Ok st) in
  let! st2 := save_if_best a i st1 in
  Ok (train_step i st2).

Definition init : state :=
  {| ve := None; best_ve := 1.0%Q; params := built; log := [] |}.

Definition distil_loop (a : args) : result state :=
  for_each (iteration a) (range 0 (max_iter a)) init.

(** Lines 127-137: the last validation pass and the last snapshot; the
    loop variable [i] is unbound when the loop had no iteration. *)
Definition distil (a : args) : result state :=
  let! st := distil_loop a in
  let! v := validation a (max_iter a) in
  let! i := (if 0 <? max_iter a then Ok (max_iter a - 1)
           else Raise NameError) in
  Ok (emit (SaveParameters (params_file a (max_iter a)))
        (emit (MonitorVerr i v) (set_ve v st))).

(** The loop as the specification proposes it instead: the best-model
    check sits inside the validation block. *)
Definition iteration_check_in_validation
           (a : args) (st : state) (i : Z) : result state :=
  let! r := mod_ i (val_interval a) in
  let! st2 := (if r =? 0
             then let! v := validation a i in
                  save_if_best a i (emit (MonitorVerr i v) (set_ve v st))
             else Ok st) in
  Ok (train_step i st2).

Definition distil_loop_check_in_validation (a : args) : result state :=
  for_each (iteration_check_in_validation a) (range 0 (max_iter a)) init.

(** *** What the loop is compared with *)

(** The error of the validation pass of iteration [i], when it runs. *)
Definition valid_error (a : args) (i : Z) : Q :=
  let n := Z.quot n_valid (batch_size a) in
  (fold_left (fun ve j => (ve + categorical_error i j)%Q)
             (range 0 n) 0.0%Q / inject_Z n)%Q.

(** The validation error current at iteration [i]: the one of the last
    pass, which ran at the last multiple of [val_interval]. *)
Definition current_error (a : args) (i : Z) : Q :=
  valid_error a (i - i mod val_interval a).

(** The best error seen before iteration [n], starting from 1.0. *)
Fixpoint best_seen (a : args) (n : nat) : Q :=
  match n with
  | O => 1.0%Q
  | S k =>
      if ltb (current_error a (Z.of_nat k)) (best_seen a k)
      then current_error a (Z.of_nat k)
      else best_seen a k
  end.

Definition improves (a : args) (i : Z) : bool :=
  ltb (current_error a i) (best_seen a (Z.to_nat i)).

Definition saved_files (l : list event) : list string :=
  flat_map (fun e => match e with SaveParameters f => [f] | _ => [] end) l.

(** The state in which the best-model check of iteration [i] runs. *)
Definition after_validation (a : args) (i : Z) (st : state) : state :=
  if i mod val_interval a =? 0
  then emit (MonitorVerr i (current_error a i))
            (set_ve (current_error a i) st)
  else st.

(** After its best-model check the state is settled: the current error
    does not beat the best one. *)
Definition settled (st : state) : Prop :=
  exists v, ve st = Some v /\ ltb v (best_ve st) = false.

(** *** Validation *)

Lemma validation_returns (a : args) (i : Z) :
  1 <= batch_size a <= n_valid ->
  validation a i = Ok (valid_error a i).
Proof.
  intros Hbs. unfold validation, valid_error.
  rewrite truediv_ok by lia. cbn [Py.bind].
  rewrite int_div by lia.
  assert (1 <= Z.quot n_valid (batch_size a)).
  { apply Z.quot_le_lower_bound; lia. }
  rewrite truediv_ok by lia. reflexivity.
Qed.

Lemma validation_not_NameError (a : args) (i : Z) :
  validation a i <> Raise NameError.
Proof.
  unfold validation, truediv.
  destruct (Qeq_bool (inject_Z (batch_size a)) 0); cbn [Py.bind];
    [discriminate|].
  destruct (Qeq_bool _ 0); discriminate.
Qed.

(** *** The best error seen so far *)

Lemma current_error_stale (a : args) (i : Z) :
  1 <= val_interval a -> 1 <= i -> i mod val_interval a <> 0 ->
  current_error a i = current_error a (i - 1).
Proof.
  intros Hv Hi Hm. unfold current_error. f_equal.
  set (v := val_interval a) in *.
  assert (Hq : i - 1 = v * (i / v) + (i mod v - 1)).
  { pose proof (Z.div_mod i v). lia. }
  assert (Hr : (i - 1) mod v = i mod v - 1).
  { symmetry. apply (Z.mod_unique_pos _ _ (i / v)); [|exact Hq].
    pose proof (Z.mod_pos_bound i v). lia. }
  lia.
Qed.

(** Once the check of iteration [k] is done, the error current at [k]
    no longer beats the best one. *)
Lemma best_seen_settled (a : args) (k : nat) :
  ltb (current_error a (Z.of_nat k)) (best_seen a (S k)) = false.
Proof.
  simpl. destruct (ltb _ (best_seen a k)) eqn:E; [|exact E].
  apply ltb_irrefl.
Qed.

Lemma best_seen_spec (a : args) (n : nat) (x : Q) :
  (x < best_seen a n)%Q <->
  (x < 1.0)%Q /\
  forall k : nat, (k < n)%nat -> (x < current_error a (Z.of_nat k))%Q.
Proof.
  induction n as [|n IH]; simpl.
  - split; [intros H; split; [exact H | intros k Hk; lia] | tauto].
  - destruct (ltb _ (best_seen a n)) eqn:E.
    + apply ltb_lt in E. split.
      * intros H. assert (Hb : (x < best_seen a n)%Q)
          by (eapply Qlt_trans; eassumption).
        apply IH in Hb. destruct Hb as [H1 Hk]. split; [exact H1|].
        intros k Hlt. destruct (Nat.eq_dec k n) as [->|Hne];
          [exact H | apply Hk; lia].
      * intros [_ Hk]. apply Hk. lia.
    + assert (Hle : (best_seen a n <= current_error a (Z.of_nat n))%Q).
      { apply Qnot_lt_le. intros Hlt. apply ltb_lt in Hlt. congruence. }
      rewrite IH. split.
      * intros [H1 Hk]. split; [exact H1|]. intros k Hlt.
        destruct (Nat.eq_dec k n) as [->|Hne]; [|apply Hk; lia].
        eapply Qlt_le_trans; [|exact Hle]. apply IH. tauto.
      * intros [H1 Hk]. split; [exact H1|]. intros k Hlt.
        apply Hk. lia.
Qed.

Lemma improves_spec (a : args) (i : Z) :
  0 <= i ->
  improves a i = true <->
  (current_error a i < 1.0)%Q /\
  forall j, 0 <= j < i -> (current_error a i < current_error a j)%Q.
Proof.
  intros Hi. unfold improves. rewrite ltb_lt, best_seen_spec. split.
  - intros [H1 Hk]. split; [exact H1|]. intros j Hj.
    specialize (Hk (Z.to_nat j)). rewrite Z2Nat.id in Hk by lia.
    apply Hk. lia.
  - intros [H1 Hk]. split; [exact H1|]. intros k Hlt. apply Hk. lia.
Qed.

(** *** Event logs *)

Lemma saved_files_app (l1 l2 : list event) :
  saved_files (l1 ++ l2) = saved_files l1 ++ saved_files l2.
Proof. apply flat_map_app. Qed.

Lemma train_step_saved (i : Z) (st : state) :
  saved_files (log (train_step i st)) = saved_files (log st).
Proof.
  unfold train_step, emit, set_params. cbn [log].
  rewrite !saved_files_app. cbn. now rewrite !app_nil_r.
Qed.

Lemma filter_snoc {A : Type} (f : A -> bool) (l : list A) (x : A) :
  List.filter f (l ++ [x]) = List.filter f l ++ (if f x then [x] else []).
Proof. rewrite List.filter_app. reflexivity. Qed.

(** *** One iteration *)

Lemma after_validation_fields (a : args) (i : Z) (st : state) :
  1 <= val_interval a -> 0 <= i ->
  (i = 0 \/ ve st = Some (current_error a (i - 1))) ->
  ve (after_validation a i st) = Some (current_error a i) /\
  best_ve (after_validation a i st) = best_ve st /\
  saved_files (log (after_validation a i st)) = saved_files (log st).
Proof.
  intros Hv Hi Hve. unfold after_validation.
  destruct (i mod val_interval a =? 0) eqn:Hm.
  - cbn. rewrite saved_files_app. cbn. now rewrite app_nil_r.
  - assert (Hi0 : i <> 0).
    { intros ->. rewrite Z.mod_0_l in Hm by lia. discriminate. }
    destruct Hve as [->|Hve]; [congruence|].
    rewrite current_error_stale by lia. tauto.
Qed.

Lemma iteration_spec (a : args) (st : state) (i : Z) :
  1 <= batch_size a <= n_valid -> 1 <= val_interval a -> 0 <= i ->
  (i = 0 \/ ve st = Some (current_error a (i - 1))) ->
  iteration a st i =
  Ok (train_step i
        (if ltb (current_error a i) (best_ve st)
         then set_best_ve (current_error a i)
                (emit (SaveParameters (params_file a i))
                      (after_validation a i st))
         else after_validation a i st)).
Proof.
  intros Hbs Hv Hi Hve. unfold iteration, mod_, after_validation.
  replace (val_interval a =? 0) with false by (symmetry; lia).
  cbn [Py.bind]. destruct (i mod val_interval a =? 0) eqn:Hm.
  - rewrite validation_returns by exact Hbs. cbn [Py.bind].
    assert (Hc : valid_error a i = current_error a i).
    { unfold current_error. f_equal. lia. }
    rewrite Hc. unfold save_if_best. cbn [ve best_ve emit set_ve].
    destruct (ltb (current_error a i) (best_ve st)); reflexivity.
  - assert (Hi0 : i <> 0).
    { intros ->. rewrite Z.mod_0_l in Hm by lia. discriminate. }
    destruct Hve as [->|Hve]; [congruence|].
    rewrite <- current_error_stale in Hve by lia. cbn [Py.bind].
    unfold save_if_best. rewrite Hve.
    destruct (ltb (current_error a i) (best_ve st)); reflexivity.
Qed.

Lemma save_if_best_settled (a : args) (i : Z) (st st' : state) :
  save_if_best a i st = Ok st' -> settled st'.
Proof.
  unfold save_if_best, settled. destruct (ve st) as [v|] eqn:Ev;
    [|discriminate].
  destruct (ltb v (best_ve st)) eqn:E; intros [= <-].
  - exists v. cbn. split; [exact Ev | apply ltb_irrefl].
  - exists v. tauto.
Qed.

Lemma iteration_settled (a : args) (st st' : state) (i : Z) :
  iteration a st i = Ok st' -> settled st'.
Proof.
  unfold iteration. destruct (mod_ i (val_interval a)) as [r|];
    [|discriminate]. cbn [Py.bind].
  match goal with |- Py.bind ?m _ = _ -> _ => destruct m as [st1|] end;
    [|discriminate]. cbn [Py.bind].
  destruct (save_if_best a i st1) as [st2|] eqn:E; [|discriminate].
  cbn [Py.bind]. intros [= <-].
  apply save_if_best_settled in E. exact E.
Qed.

Lemma save_if_best_skip (a : args) (i : Z) (st : state) :
  settled st -> save_if_best a i st = Ok st.
Proof.
  intros (v & Ev & E). unfold save_if_best. now rewrite Ev, E.
Qed.

Lemma iteration_same (a : args) (st : state) (i : Z) :
  i = 0 \/ settled st ->
  iteration a st i = iteration_check_in_validation a st i.
Proof.
  intros H. unfold iteration, iteration_check_in_validation, mod_.
  destruct (val_interval a =? 0) eqn:Hv; [reflexivity|].
  cbn [Py.bind]. destruct (i mod val_interval a =? 0) eqn:Hm.
  - destruct (validation a i); reflexivity.
  - destruct H as [->|H].
    + rewrite Z.mod_0_l in Hm by lia. discriminate.
    + cbn [Py.bind]. now rewrite save_if_best_skip.
Qed.

Lemma iteration_not_NameError (a : args) (st : state) (i : Z) :
  i = 0 \/ settled st -> iteration a st i <> Raise NameError.
Proof.
  intros H. unfold iteration, mod_.
  destruct (val_interval a =? 0) eqn:Hv; [discriminate|].
  cbn [Py.bind]. destruct (i mod val_interval a =? 0) eqn:Hm.
  - destruct (validation a i) as [v|e] eqn:Ev; cbn [Py.bind].
    + unfold save_if_best. cbn [ve emit set_ve].
      destruct (ltb v _); discriminate.
    + intros [= ->]. exact (validation_not_NameError a i Ev).
  - destruct H as [->|H].
    + rewrite Z.mod_0_l in Hm by lia. discriminate.
    + cbn [Py.bind]. rewrite save_if_best_skip by exact H. discriminate.
Qed.

(** *** The loop, iteration by iteration *)

Lemma range_S (n : nat) :
  range 0 (Z.of_nat (S n)) = range 0 (Z.of_nat n) ++ [Z.of_nat n].
Proof. rewrite Nat2Z.inj_succ. apply range_snoc. lia. Qed.

Lemma loop_tracks_best (a : args) :
  1 <= batch_size a <= n_valid -> 1 <= val_interval a ->
  forall n : nat, exists st,
    for_each (iteration a) (range 0 (Z.of_nat n)) init = Ok st /\
    ve st = match n with
            | O => None
            | S k => Some (current_error a (Z.of_nat k))
            end /\
    best_ve st = best_seen a n /\
    saved_files (log st)
    = map (params_file a)
          (List.filter (improves a) (range 0 (Z.of_nat n))).
Proof.
  intros Hbs Hv. induction n as [|n (st & Hrun & Hve & Hbest & Hlog)].
  - exists init. repeat split.
  - rewrite range_S, for_each_snoc, Hrun. cbn [Py.bind].
    assert (Hprev : Z.of_nat n = 0
                    \/ ve st = Some (current_error a (Z.of_nat n - 1))).
    { destruct n as [|k]; [now left | right]. rewrite Hve.
      do 2 f_equal. lia. }
    rewrite iteration_spec by (assumption || lia).
    eexists. split; [reflexivity|].
    rewrite filter_snoc, map_app, <- Hlog, train_step_saved.
    change (improves a (Z.of_nat n))
      with (ltb (current_error a (Z.of_nat n))
                (best_seen a (Z.to_nat (Z.of_nat n)))).
    rewrite Nat2Z.id. cbn [best_seen].
    rewrite <- Hbest.
    pose proof (after_validation_fields a (Z.of_nat n) st Hv
                  ltac:(lia) Hprev) as (Hve1 & Hbest1 & Hlog1).
    destruct (ltb (current_error a (Z.of_nat n)) (best_ve st)).
    + cbn. rewrite saved_files_app, Hlog1. cbn. tauto.
    + cbn. rewrite app_nil_r. tauto.
Qed.

(** The two placements of the check agree after any number of
    iterations, and neither meets an unbound [ve]. *)
Lemma loops_agree (a : args) (n : nat) :
  for_each (iteration a) (range 0 (Z.of_nat n)) init
  = for_each (iteration_check_in_validation a)
             (range 0 (Z.of_nat n)) init
  /\ for_each (iteration a) (range 0 (Z.of_nat n)) init
     <> Raise NameError
  /\ forall st,
      for_each (iteration a) (range 0 (Z.of_nat n)) init = Ok st ->
      (n = O /\ st = init) \/ settled st.
Proof.
  induction n as [|n (Heq & Hne & Hinv)].
  - cbn. repeat split; [discriminate|]. intros st [= <-]. now left.
  - rewrite range_S, !for_each_snoc, <- Heq.
    destruct (for_each (iteration a) (range 0 (Z.of_nat n)) init)
      as [st|e] eqn:Hrun; cbn [Py.bind].
    + assert (Hst : Z.of_nat n = 0 \/ settled st).
      { destruct (Hinv st eq_refl) as [[-> _]|Hs]; [now left|now right]. }
      repeat split.
      * now apply iteration_same.
      * now apply iteration_not_NameError.
      * intros st' Hit. right. eapply iteration_settled, Hit.
    + repeat split; [exact Hne | discriminate].
Qed.

(** *** The teacher's parameters *)

Lemma scopes_disjoint (name : string) :
  in_scope teacher name = true -> in_scope student name = false.
Proof.
  change (String.prefix "teacher/" name = true ->
          String.prefix "student/" name = false).
  destruct name as [|c name]; [discriminate|].
  cbn [String.prefix].
  destruct (Ascii.ascii_dec "t" c) as [<-|]; [|discriminate].
  reflexivity.
Qed.

Lemma solver_parameters_spec (name : string) :
  name ∈ solver_parameters <->
  is_Some (built !! name) /\ in_scope student name = true.
Proof.
  unfold solver_parameters, get_parameters.
  rewrite elem_of_dom. unfold is_Some. split.
  - intros [x Hx]. apply map_lookup_filter_Some in Hx as [Hx Hs].
    split; [eauto | exact Hs].
  - intros [[x Hx] Hs]. exists x. apply map_lookup_filter_Some.
    split; [exact Hx | exact Hs].
Qed.

Lemma teacher_not_in_solver (name : string) :
  in_scope teacher name = true -> name ∉ solver_parameters.
Proof.
  intros Ht Hin. apply solver_parameters_spec in Hin as [_ Hs].
  rewrite (scopes_disjoint name Ht) in Hs. discriminate.
Qed.

Lemma teacher_receives_no_grad (name : string) :
  in_scope teacher name = true -> receives_grad name = false.
Proof.
  intros Ht. unfold receives_grad, loss_inputs. cbn.
  now rewrite (scopes_disjoint name Ht).
Qed.

Lemma solver_update_frame (i : Z) (store : gmap string tensor)
      (name : string) :
  name ∉ solver_parameters ->
  solver_update i store !! name = store !! name.
Proof.
  intros Hn. unfold solver_update. rewrite map_lookup_imap.
  destruct (store !! name) as [v|]; [|reflexivity]. cbn.
  now rewrite decide_False.
Qed.

Lemma save_if_best_params (a : args) (i : Z) (st st' : state) :
  save_if_best a i st = Ok st' -> params st' = params st.
Proof.
  unfold save_if_best. destruct (ve st) as [v|]; [|discriminate].
  destruct (ltb v (best_ve st)); intros [= <-]; reflexivity.
Qed.

Lemma iteration_params (a : args) (st st' : state) (i : Z) :
  iteration a st i = Ok st' ->
  params st' = solver_update i (params st).
Proof.
  unfold iteration. destruct (mod_ i (val_interval a)) as [r|];
    [|discriminate]. cbn [Py.bind].
  assert (H1 : forall st1,
             (if r =? 0
              then let! v := validation a i in
                   Ok (emit (MonitorVerr i v) (set_ve v st))
              else Ok st) = Ok st1 -> params st1 = params st).
  { intros st1. destruct (r =? 0); [|now intros [= <-]].
    destruct (validation a i); cbn [Py.bind]; [|discriminate].
    now intros [= <-]. }
  match goal with |- Py.bind ?m _ = _ -> _ => destruct m as [st1|] end;
    [|discriminate]. cbn [Py.bind].
  destruct (save_if_best a i st1) as [st2|] eqn:E; [|discriminate].
  cbn [Py.bind]. intros [= <-]. cbn.
  now rewrite (save_if_best_params _ _ _ _ E), (H1 st1 eq_refl).
Qed.

Lemma iteration_teacher_frame (a : args) (st st' : state) (i : Z)
      (name : string) :
  in_scope teacher name = true ->
  iteration a st i = Ok st' ->
  params st' !! name = params st !! name.
Proof.
  intros Ht Hit. rewrite (iteration_params _ _ _ _ Hit).
  apply solver_update_frame, teacher_not_in_solver, Ht.
Qed.

Lemma distil_loop_teacher_frame (a : args) (st : state) (name : string) :
  in_scope teacher name = true ->
  distil_loop a = Ok st ->
  params st !! name = built !! name.
Proof.
  intros Ht. unfold distil_loop.
  apply (for_each_invariant
           (fun s => params s !! name = built !! name)); [|reflexivity].
  intros s i s' Hs Hit.
  now rewrite (iteration_teacher_frame _ _ _ _ _ Ht Hit).
Qed.

Lemma range_of_to_nat (n : Z) :
  range 0 (Z.of_nat (Z.to_nat n)) = range 0 n.
Proof. unfold range. do 2 f_equal. lia. Qed.

(** *** Beyond the healthy arguments: when the script returns *)

(** The iterations under which the monitor of the test error has an
    entry, in order. *)
Definition verr_indices (l : list event) : list Z :=
  flat_map (fun e => match e with MonitorVerr i _ => [i] | _ => [] end) l.

Lemma validation_returns_signed (a : args) (i : Z) :
  1 <= Z.abs (batch_size a) <= n_valid ->
  validation a i = Ok (valid_error a i).
Proof.
  intros Hbs. unfold validation, valid_error.
  rewrite truediv_ok by lia. cbn [Py.bind].
  rewrite int_div by lia.
  assert (Z.quot n_valid (batch_size a) <> 0).
  { rewrite Z.quot_small_iff by lia. unfold n_valid in *. lia. }
  rewrite truediv_ok by assumption. reflexivity.
Qed.

Lemma validation_inv (a : args) (i : Z) (v : Q) :
  validation a i = Ok v -> 1 <= Z.abs (batch_size a) <= n_valid.
Proof.
  unfold validation, truediv.
  destruct (Qeq_bool (inject_Z (batch_size a)) 0) eqn:E; [discriminate|].
  cbn [Py.bind].
  assert (Hb : batch_size a <> 0) by (intros Hb; now rewrite Hb in E).
  rewrite int_div by exact Hb.
  destruct (Qeq_bool (inject_Z (Z.quot n_valid (batch_size a))) 0) eqn:E';
    [discriminate|]. intros _.
  assert (Hq : Z.quot n_valid (batch_size a) <> 0)
    by (intros Hq; now rewrite Hq in E').
  rewrite Z.quot_small_iff in Hq by exact Hb. unfold n_valid in *. lia.
Qed.

Lemma validation_raises (a : args) (i : Z) (e : exn) :
  validation a i = Raise e -> e = ZeroDivisionError.
Proof.
  unfold validation, truediv.
  destruct (Qeq_bool (inject_Z (batch_size a)) 0); cbn [Py.bind];
    [now intros [= <-]|].
  destruct (Qeq_bool _ 0); [now intros [= <-] | discriminate].
Qed.

Lemma save_if_best_fresh (a : args) (i : Z) (v : Q) (st : state) :
  exists st', save_if_best a i (emit (MonitorVerr i v) (set_ve v st))
              = Ok st'.
Proof.
  unfold save_if_best. cbn [ve emit set_ve].
  destruct (ltb v _); eexists; reflexivity.
Qed.

Lemma iteration_returns (a : args) (st : state) (i : Z) :
  val_interval a <> 0 -> 1 <= Z.abs (batch_size a) <= n_valid ->
  i = 0 \/ settled st ->
  exists st', iteration a st i = Ok st'.
Proof.
  intros Hv Hbs H. unfold iteration, mod_.
  replace (val_interval a =? 0) with false by (symmetry; lia).
  cbn [Py.bind]. destruct (i mod val_interval a =? 0) eqn:Hm.
  - rewrite validation_returns_signed by exact Hbs. cbn [Py.bind].
    destruct (save_if_best_fresh a i (valid_error a i) st) as [st' ->].
    eexists. reflexivity.
  - destruct H as [->|H].
    + rewrite Z.mod_0_l in Hm by lia. discriminate.
    + cbn [Py.bind]. rewrite save_if_best_skip by exact H.
      eexists. reflexivity.
Qed.

Lemma iteration_raises (a : args) (st : state) (i : Z) (e : exn) :
  i = 0 \/ settled st ->
  iteration a st i = Raise e -> e = ZeroDivisionError.
Proof.
  intros H. unfold iteration, mod_.
  destruct (val_interval a =? 0) eqn:Hv; [now intros [= <-]|].
  cbn [Py.bind]. destruct (i mod val_interval a =? 0) eqn:Hm.
  - destruct (validation a i) as [v|e'] eqn:Ev; cbn [Py.bind].
    + destruct (save_if_best_fresh a i v st) as [st' ->]. discriminate.
    + intros [= <-]. exact (validation_raises a i e' Ev).
  - destruct H as [->|H].
    + rewrite Z.mod_0_l in Hm by lia. discriminate.
    + cbn [Py.bind]. rewrite save_if_best_skip by exact H. discriminate.
Qed.

Lemma loop_returns (a : args) :
  val_interval a <> 0 -> 1 <= Z.abs (batch_size a) <= n_valid ->
  forall n : nat, exists st,
    for_each (iteration a) (range 0 (Z.of_nat n)) init = Ok st.
Proof.
  intros Hv Hbs. induction n as [|n [st Hrun]].
  - exists init. reflexivity.
  - rewrite range_S, for_each_snoc, Hrun. cbn [Py.bind].
    apply iteration_returns; [exact Hv | exact Hbs |].
    destruct (loops_agree a n) as (_ & _ & Hinv).
    destruct (Hinv st Hrun) as [[-> _]|Hs]; [now left | now right].
Qed.

Lemma loop_raises (a : args) (n : nat) (e : exn) :
  for_each (iteration a) (range 0 (Z.of_nat n)) init = Raise e ->
  e = ZeroDivisionError.
Proof.
  induction n as [|n IH]; [discriminate|].
  rewrite range_S, for_each_snoc.
  destruct (for_each (iteration a) (range 0 (Z.of_nat n)) init)
    as [st|e'] eqn:Hrun; cbn [Py.bind].
  - apply iteration_raises.
    destruct (loops_agree a n) as (_ & _ & Hinv).
    rewrite Hrun in Hinv.
    destruct (Hinv st eq_refl) as [[-> _]|Hs]; [now left | now right].
  - intros [= <-]. now apply IH.
Qed.

Lemma first_iteration (a : args) :
  1 <= max_iter a ->
  distil_loop a
  = Py.bind (iteration a init 0)
            (for_each (iteration a) (range 1 (max_iter a))).
Proof.
  intros Hn. unfold distil_loop.
  rewrite (range_split 0 0 (max_iter a)) by lia.
  now rewrite range_nil by lia.
Qed.

(** *** The entries of the monitor *)

Lemma iteration_verr (a : args) (st st' : state) (i : Z) :
  iteration a st i = Ok st' ->
  verr_indices (log st')
  = verr_indices (log st)
    ++ (if i mod val_interval a =? 0 then [i] else []).
Proof.
  unfold iteration, mod_.
  destruct (val_interval a =? 0); [discriminate|]. cbn [Py.bind].
  destruct (i mod val_interval a =? 0).
  - destruct (validation a i) as [v|]; [|discriminate]. cbn [Py.bind].
    unfold save_if_best. cbn [ve emit set_ve].
    destruct (ltb v _); cbn [Py.bind]; intros [= <-];
      unfold train_step, emit, set_params, set_best_ve, verr_indices;
      cbn [log]; rewrite !flat_map_app; cbn; now rewrite ?app_nil_r.
  - cbn [Py.bind]. unfold save_if_best.
    destruct (ve st) as [v|]; [|discriminate].
    destruct (ltb v _); cbn [Py.bind]; intros [= <-];
      unfold train_step, emit, set_params, set_best_ve, verr_indices;
      cbn [log]; rewrite !flat_map_app; cbn; now rewrite ?app_nil_r.
Qed.

Lemma loop_verr (a : args) (n : nat) (st : state) :
  for_each (iteration a) (range 0 (Z.of_nat n)) init = Ok st ->
  verr_indices (log st)
  = List.filter (fun i => i mod val_interval a =? 0)
                (range 0 (Z.of_nat n)).
Proof.
  revert st. induction n as [|n IH]; intros st.
  - now intros [= <-].
  - rewrite range_S, for_each_snoc.
    destruct (for_each (iteration a) (range 0 (Z.of_nat n)) init)
      as [s1|]; [|discriminate]. cbn [Py.bind]. intros Hit.
    rewrite (iteration_verr _ _ _ _ Hit), (IH s1 eq_refl).
    now rewrite filter_snoc.
Qed.

(** *** The best snapshot *)

Lemma filter_none {A : Type} (f : A -> bool) (l : list A) :
  (forall x, In x l -> f x = false) -> List.filter f l = [].
Proof.
  induction l as [|x l IH]; intros H; [reflexivity|]. cbn.
  rewrite (H x) by now left. apply IH. intros y Hy. apply H. now right.
Qed.

Lemma best_seen_none (a : args) (n : nat) :
  (forall k : nat, (k < n)%nat -> improves a (Z.of_nat k) = false) ->
  best_seen a n = 1.0%Q.
Proof.
  induction n as [|n IH]; intros H; [reflexivity|].
  cbn [best_seen]. specialize (H n ltac:(lia)) as Hn.
  unfold improves in Hn. rewrite Nat2Z.id in Hn. rewrite Hn.
  apply IH. intros k Hk. apply H. lia.
Qed.

Lemma best_seen_after (a : args) (m : nat) (d : nat) :
  improves a (Z.of_nat m) = true ->
  (forall j : nat, (m < j < S m + d)%nat ->
     ltb (current_error a (Z.of_nat j)) (current_error a (Z.of_nat m))
     = false) ->
  best_seen a (S m + d) = current_error a (Z.of_nat m).
Proof.
  intros Hm. unfold improves in Hm. rewrite Nat2Z.id in Hm.
  induction d as [|d IH]; intros H.
  - rewrite Nat.add_0_r. cbn [best_seen]. now rewrite Hm.
  - replace (S m + S d)%nat with (S (S m + d)) by lia.
    cbn [best_seen]. change (S (m + d)) with (S m + d)%nat.
    rewrite IH by (intros j Hj; apply H; lia).
    now rewrite H by lia.
Qed.

(** The snapshots of two iterations have different names. *)
Lemma params_file_inj (a : args) (i j : Z) :
  0 <= i -> 0 <= j -> params_file a i = params_file a j -> i = j.
Proof.
  intros Hi Hj H. unfold params_file in H. apply path_join_inj in H.
  apply String.app_inj in H. apply app_string_inj_r in H.
  now apply fmt_06d_inj.
Qed.

Lemma params_files_NoDup (a : args) (l : list Z) :
  List.NoDup l -> (forall i, In i l -> 0 <= i) ->
  List.NoDup (map (params_file a) l).
Proof.
  induction 1 as [|x l Hx Hl IH]; intros Hpos; cbn [map]; constructor.
  - rewrite in_map_iff. intros (y & Hy & Hin). apply Hx.
    apply params_file_inj in Hy; [now subst | |]; apply Hpos;
      [now right | now left].
  - apply IH. intros i Hi. apply Hpos. now right.
Qed.

(** *** Properties of the loop and of the whole of [distil] *)

(** X1.  The snapshot the loop writes last holds the best model: when the
    validation error current at iteration [m] is below 1.0, strictly below
    the error of every earlier iteration and not above any later one, the
    last file the loop saves is [params_m], [best_ve] ends as that error and
    [m] is an iteration with a validation pass.  When no error is below 1.0
    the loop saves nothing. *)
Theorem last_snapshot_is_best (a : args) :
  1 <= batch_size a <= n_valid -> 1 <= val_interval a ->
  exists st,
    distil_loop a = Ok st /\
    (forall m,
        0 <= m < max_iter a ->
        (current_error a m < 1.0)%Q ->
        (forall j, 0 <= j < m -> (current_error a m < current_error a j)%Q) ->
        (forall j, m < j < max_iter a ->
                   (current_error a m <= current_error a j)%Q) ->
        (exists earlier,
            saved_files (log st) = earlier ++ [params_file a m]) /\
        best_ve st = current_error a m /\
        m mod val_interval a = 0) /\
    ((forall j, 0 <= j < max_iter a -> (1.0 <= current_error a j)%Q) ->
     saved_files (log st) = [] /\ best_ve st = 1.0%Q).
Proof.
  intros Hbs Hv.
  destruct (loop_tracks_best a Hbs Hv (Z.to_nat (max_iter a)))
    as (st & Hrun & _ & Hbest & Hlog).
  rewrite range_of_to_nat in Hrun, Hlog. exists st.
  split; [exact Hrun|]. split.
  - intros m Hm H1 Hlt Hle.
    assert (Him : improves a m = true).
    { apply improves_spec; [lia | split; assumption]. }
    split; [|split].
    + rewrite Hlog, (range_split 0 m (max_iter a)) by lia.
      rewrite List.filter_app. cbn [List.filter]. rewrite Him.
      rewrite (filter_none _ (range (m + 1) (max_iter a))).
      * rewrite map_app. cbn [map]. eexists. reflexivity.
      * intros j Hj. apply in_range in Hj.
        destruct (improves a j) eqn:E; [|reflexivity].
        apply improves_spec in E; [|lia]. destruct E as [_ E].
        specialize (E m ltac:(lia)). exfalso.
        apply (Qlt_not_le _ _ E). apply Hle. lia.
    + rewrite Hbest.
      replace (Z.to_nat (max_iter a))
        with (S (Z.to_nat m)
              + (Z.to_nat (max_iter a) - S (Z.to_nat m)))%nat by lia.
      rewrite best_seen_after; rewrite ?Z2Nat.id by lia;
        [reflexivity | exact Him |].
      intros j Hj.
      destruct (ltb (current_error a (Z.of_nat j)) (current_error a m))
        eqn:E; [|reflexivity].
      apply ltb_lt in E. exfalso. apply (Qlt_not_le _ _ E).
      apply Hle. lia.
    + destruct (Z.eq_dec (m mod val_interval a) 0) as [E|E]; [exact E|].
      exfalso.
      assert (Hm1 : 1 <= m).
      { destruct (Z.eq_dec m 0) as [->|]; [|lia].
        rewrite Z.mod_0_l in E by lia. congruence. }
      specialize (Hlt (m - 1) ltac:(lia)).
      rewrite <- (current_error_stale a m Hv Hm1 E) in Hlt.
      exact (Qlt_irrefl _ Hlt).
  - intros Hall.
    assert (Hno : forall j, 0 <= j < max_iter a -> improves a j = false).
    { intros j Hj. destruct (improves a j) eqn:E; [|reflexivity].
      apply improves_spec in E; [|lia]. destruct E as [E _].
      exfalso. apply (Qlt_not_le _ _ E). apply Hall. lia. }
    split.
    + rewrite Hlog, filter_none; [reflexivity|].
      intros j Hj. apply in_range in Hj. apply Hno. lia.
    + rewrite Hbest. apply best_seen_none. intros k Hk. apply Hno. lia.
Qed.

(** X2.  The loop and the last pass of [distil] (lines 99-137), which
    [distil_loop] and [distil] embed: once the set-up before them has
    returned (the network of [args.net], the graphs, the solver, the
    monitors and the data iterators, for a batch size of at least 1), and
    with at least one iteration, they return exactly when the validation
    interval is not 0 and the batch size is at most the 10000 validation
    samples; every failure in them is a [ZeroDivisionError], and with
    arguments outside these bounds it comes in the first iteration, before
    any snapshot or training step. *)
Theorem distil_returns_iff (a : args) :
  1 <= max_iter a -> 1 <= batch_size a ->
  ((exists st, distil a = Ok st) <->
   val_interval a <> 0 /\ batch_size a <= n_valid) /\
  (forall e, distil a = Raise e -> e = ZeroDivisionError) /\
  (val_interval a = 0 \/ n_valid < batch_size a ->
   iteration a init 0 = Raise ZeroDivisionError /\
   distil_loop a = Raise ZeroDivisionError).
Proof.
  intros Hn Hb.
  assert (Hfirst :
            val_interval a = 0 \/ n_valid < batch_size a ->
            iteration a init 0 = Raise ZeroDivisionError).
  { intros H. unfold iteration, mod_.
    destruct (val_interval a =? 0) eqn:Hv; [reflexivity|].
    cbn [Py.bind]. rewrite Z.mod_0_l by lia. cbn.
    destruct (validation a 0) as [v|e] eqn:Ev.
    - apply validation_inv in Ev. lia.
    - apply validation_raises in Ev. now subst. }
  split; [split|split].
  - unfold distil. intros [st H].
    destruct (distil_loop a) as [st1|] eqn:Hl; [|discriminate].
    cbn [Py.bind] in H.
    destruct (validation a (max_iter a)) as [v|] eqn:Ev; [|discriminate].
    split; [|apply validation_inv in Ev; lia].
    intros Hv. rewrite first_iteration, Hfirst in Hl by tauto.
    discriminate.
  - intros [Hv Hbs].
    assert (Habs : 1 <= Z.abs (batch_size a) <= n_valid) by lia.
    destruct (loop_returns a Hv Habs (Z.to_nat (max_iter a))) as [st1 Hrun].
    rewrite range_of_to_nat in Hrun. unfold distil, distil_loop.
    rewrite Hrun. cbn [Py.bind].
    rewrite validation_returns_signed by exact Habs. cbn [Py.bind].
    replace (0 <? max_iter a) with true by (symmetry; apply Z.ltb_lt; lia).
    eexists. reflexivity.
  - intros e. unfold distil.
    destruct (distil_loop a) as [st1|e1] eqn:Hl; cbn [Py.bind].
    + destruct (validation a (max_iter a)) as [v|e2] eqn:Ev; cbn [Py.bind].
      * replace (0 <? max_iter a) with true
          by (symmetry; apply Z.ltb_lt; lia). discriminate.
      * intros [= <-]. exact (validation_raises _ _ _ Ev).
    + intros [= <-]. apply (loop_raises a (Z.to_nat (max_iter a))).
      rewrite range_of_to_nat. exact Hl.
  - intros H. split; [now apply Hfirst|].
    now rewrite first_iteration, Hfirst.
Qed.


(** X4.  A run of [distil] that returns ends with one more validation pass,
    whose error goes to the monitor under the index of the last iteration,
    [max_iter - 1], and with the snapshot [params_<max_iter>], written
    whatever that error is; [best_ve] is not updated.  The monitor has the
    entries of the iterations with a validation pass and this one: when
    [max_iter - 1] is itself such an iteration, the monitor gets two
    entries under that index. *)
Theorem final_pass_after_loop (a : args) (st : state) :
  distil a = Ok st ->
  exists st1 v,
    1 <= max_iter a /\
    distil_loop a = Ok st1 /\ validation a (max_iter a) = Ok v /\
    log st = log st1 ++ [MonitorVerr (max_iter a - 1) v;
                         SaveParameters (params_file a (max_iter a))] /\
    best_ve st = best_ve st1 /\
    verr_indices (log st)
    = List.filter (fun i => i mod val_interval a =? 0)
                  (range 0 (max_iter a)) ++ [max_iter a - 1] /\
    ((max_iter a - 1) mod val_interval a = 0 ->
     ~ List.NoDup (verr_indices (log st))).
Proof.
  unfold distil. destruct (distil_loop a) as [st1|] eqn:Hl; [|discriminate].
  cbn [Py.bind].
  destruct (validation a (max_iter a)) as [v|] eqn:Ev; [|discriminate].
  cbn [Py.bind]. destruct (0 <? max_iter a) eqn:Hn; [|discriminate].
  apply Z.ltb_lt in Hn. cbn [Py.bind]. intros [= <-]. exists st1, v.
  split; [lia|]. split; [reflexivity|]. split; [reflexivity|].
  split; [cbn; now rewrite <- app_assoc|]. split; [reflexivity|].
  assert (Hverr : verr_indices (log st1)
                  = List.filter (fun i => i mod val_interval a =? 0)
                                (range 0 (max_iter a))).
  { rewrite <- (range_of_to_nat (max_iter a)). apply loop_verr.
    rewrite range_of_to_nat. exact Hl. }
  assert (Hall : verr_indices
                   (log (emit (SaveParameters (params_file a (max_iter a)))
                           (emit (MonitorVerr (max_iter a - 1) v)
                                 (set_ve v st1))))
                 = List.filter (fun i => i mod val_interval a =? 0)
                               (range 0 (max_iter a)) ++ [max_iter a - 1]).
  { rewrite <- Hverr. unfold verr_indices. cbn [log emit set_ve].
    rewrite !flat_map_app. cbn. now rewrite app_nil_r. }
  split; [exact Hall|]. rewrite Hall. intros Hm Hnd.
  apply NoDup_remove_2 in Hnd. apply Hnd. rewrite app_nil_r.
  apply List.filter_In. split; [apply in_range; lia|].
  now apply Z.eqb_eq.
Qed.

(** X5.  No snapshot of a run overwrites another: for a batch size between 1 and
    10000 and a validation interval of at least 1 the files [distil] saves,
    those of the loop and the last one, have pairwise different names. *)
Theorem snapshot_names_distinct (a : args) :
  1 <= batch_size a <= n_valid -> 1 <= val_interval a ->
  (forall st, distil_loop a = Ok st -> List.NoDup (saved_files (log st))) /\
  (forall st,
      distil a = Ok st ->
      saved_files (log st)
      = map (params_file a)
            (List.filter (improves a) (range 0 (max_iter a))
             ++ [max_iter a]) /\
      List.NoDup (saved_files (log st))).
Proof.
  intros Hbs Hv.
  destruct (loop_tracks_best a Hbs Hv (Z.to_nat (max_iter a)))
    as (st1 & Hrun & _ & _ & Hlog).
  rewrite range_of_to_nat in Hrun, Hlog.
  assert (Hnd : List.NoDup (List.filter (improves a) (range 0 (max_iter a))
                            ++ [max_iter a])).
  { apply List.NoDup_app.
    - apply List.NoDup_filter, range_NoDup.
    - constructor; [intros [] | constructor].
    - intros i Hi [<-|[]]. apply List.filter_In in Hi as [Hi _].
      apply in_range in Hi. lia. }
  split.
  - intros st Hst. unfold distil_loop in Hst. rewrite Hrun in Hst.
    injection Hst as <-. rewrite Hlog. apply params_files_NoDup.
    + apply List.NoDup_filter, range_NoDup.
    + intros i Hi. apply List.filter_In in Hi as [Hi _].
      apply in_range in Hi. lia.
  - intros st Hst.
    unfold distil, distil_loop in Hst. rewrite Hrun in Hst.
    cbn [Py.bind] in Hst.
    destruct (validation a (max_iter a)) as [v|]; [|discriminate].
    cbn [Py.bind] in Hst.
    destruct (0 <? max_iter a) eqn:Hn; [|discriminate].
    apply Z.ltb_lt in Hn. cbn [Py.bind] in Hst. injection Hst as <-.
    assert (Hfiles :
              saved_files
                (log (emit (SaveParameters (params_file a (max_iter a)))
                        (emit (MonitorVerr (max_iter a - 1) v)
                              (set_ve v st1))))
              = map (params_file a)
                    (List.filter (improves a) (range 0 (max_iter a))
                     ++ [max_iter a])).
    { cbn [log emit set_ve]. rewrite !saved_files_app, Hlog, map_app.
      cbn. now rewrite app_nil_r. }
    split; [exact Hfiles|]. rewrite Hfiles.
    apply params_files_NoDup; [exact Hnd|].
    intros i Hi. apply in_app_iff in Hi as [Hi|[<-|[]]]; [|lia].
    apply List.filter_In in Hi as [Hi _]. apply in_range in Hi. lia.
Qed.

(** *** The parameters after the loop *)

(** The iterations that made a training step, in order. *)
Definition solver_steps (l : list event) : list Z :=
  flat_map (fun e => match e with SolverUpdate i => [i] | _ => [] end) l.

Lemma iteration_steps (a : args) (st st' : state) (i : Z) :
  iteration a st i = Ok st' ->
  solver_steps (log st') = solver_steps (log st) ++ [i].
Proof.
  unfold iteration, mod_.
  destruct (val_interval a =? 0); [discriminate|]. cbn [Py.bind].
  destruct (i mod val_interval a =? 0).
  - destruct (validation a i) as [v|]; [|discriminate]. cbn [Py.bind].
    unfold save_if_best. cbn [ve emit set_ve].
    destruct (ltb v _); cbn [Py.bind]; intros [= <-];
      unfold train_step, emit, set_params, set_best_ve, solver_steps;
      cbn [log]; rewrite !flat_map_app; cbn; now rewrite ?app_nil_r.
  - cbn [Py.bind]. unfold save_if_best.
    destruct (ve st) as [v|]; [|discriminate].
    destruct (ltb v _); cbn [Py.bind]; intros [= <-];
      unfold train_step, emit, set_params, set_best_ve, solver_steps;
      cbn [log]; rewrite !flat_map_app; cbn; now rewrite ?app_nil_r.
Qed.

Lemma solver_update_dom (i : Z) (store : gmap string tensor) :
  dom (solver_update i store) = dom store.
Proof.
  apply set_eq. intros name. rewrite !elem_of_dom.
  unfold solver_update. rewrite map_lookup_imap.
  destruct (store !! name) as [v|]; cbn; split; intros [x Hx];
    (discriminate || eauto).
Qed.

Lemma updates_dom (l : list Z) (store : gmap string tensor) :
  dom (fold_left (fun p i => solver_update i p) l store) = dom store.
Proof.
  revert store. induction l as [|i l IH]; intros store; [reflexivity|].
  cbn [fold_left]. now rewrite IH, solver_update_dom.
Qed.

Lemma updates_frame (l : list Z) (store : gmap string tensor)
      (name : string) :
  name ∉ solver_parameters ->
  fold_left (fun p i => solver_update i p) l store !! name = store !! name.
Proof.
  intros Hn. revert store. induction l as [|i l IH]; intros store;
    [reflexivity|].
  cbn [fold_left]. now rewrite IH, solver_update_frame.
Qed.

Lemma loop_params (a : args) (n : nat) (st : state) :
  for_each (iteration a) (range 0 (Z.of_nat n)) init = Ok st ->
  params st
  = fold_left (fun p i => solver_update i p) (range 0 (Z.of_nat n)) built /\
  solver_steps (log st) = range 0 (Z.of_nat n).
Proof.
  revert st. induction n as [|n IH]; intros st.
  - intros [= <-]. split; reflexivity.
  - rewrite range_S, for_each_snoc.
    destruct (for_each (iteration a) (range 0 (Z.of_nat n)) init)
      as [s1|]; [|discriminate]. cbn [Py.bind]. intros Hit.
    destruct (IH s1 eq_refl) as [Hp Hs].
    rewrite (iteration_params _ _ _ _ Hit), (iteration_steps _ _ _ _ Hit).
    rewrite fold_left_app, Hp, Hs. split; reflexivity.
Qed.

(** X6.  A loop that returns has made one training step in each of the
    iterations [0 .. max_iter - 1], and its parameters are those built at
    start-up with the optimiser's updates of these iterations applied in
    order: validation passes and snapshots write none.  No parameter is
    created or dropped, a parameter the solver does not hold keeps the
    value it was built with, and the validation pass and the snapshot after
    the loop change neither the parameters nor the training steps. *)
Theorem loop_applies_optimiser (a : args) (st : state) :
  distil_loop a = Ok st ->
  solver_steps (log st) = range 0 (max_iter a) /\
  params st
  = fold_left (fun p i => solver_update i p) (range 0 (max_iter a)) built /\
  dom (params st) = dom built /\
  (forall name, name ∉ solver_parameters ->
                params st !! name = built !! name) /\
  (forall st', distil a = Ok st' ->
               params st' = params st /\
               solver_steps (log st') = solver_steps (log st)).
Proof.
  intros Hl. pose proof Hl as Hrun. unfold distil_loop in Hrun.
  rewrite <- range_of_to_nat in Hrun.
  apply loop_params in Hrun as [Hp Hs]. rewrite range_of_to_nat in Hp, Hs.
  split; [exact Hs|]. split; [exact Hp|].
  split; [rewrite Hp; apply updates_dom|].
  split; [intros name Hn; rewrite Hp; now apply updates_frame|].
  intros st'. unfold distil. rewrite Hl. cbn [Py.bind].
  destruct (validation a (max_iter a)) as [v|]; [|discriminate].
  cbn [Py.bind]. destruct (0 <? max_iter a); [|discriminate].
  cbn [Py.bind]. intros [= <-]. split; [reflexivity|].
  unfold solver_steps. cbn [log emit set_ve].
  rewrite !flat_map_app. cbn. now rewrite !app_nil_r.
Qed.

End Loop.

Arguments ve {tensor} _.
Arguments best_ve {tensor} _.
Arguments params {tensor} _.
Arguments log {tensor} _.
Arguments settled {tensor} _.

(** *** The example of the specification

    Four validation passes, one per iteration, with the errors 0.5, 0.3,
    0.4 and 0.2 on every batch of the respective pass. *)

Definition example_args : args :=
  {| batch_size := 100; max_iter := 4; val_interval := 1;
     model_save_path := "out" |}.

Definition example_error (i j : Z) : Q :=
  nth (Z.to_nat i) [0.5; 0.3; 0.4; 0.2]%Q 0%Q.

Definition example_run : result (state unit) :=
  distil_loop unit example_error (fun _ _ _ => tt) ∅ [] (fun _ => tt)
              example_args.

(** The validation errors logged and the snapshots written, in order,
    with the errors in lowest terms. *)
Definition verr_and_saves (l : list event) : list event :=
  flat_map (fun e => match e with
                     | MonitorVerr i v => [MonitorVerr i (Qred v)]
                     | SaveParameters f => [SaveParameters f]
                     | _ => []
                     end) l.

(** Parameters of a two-layer teacher, for running the loop on a small
    store: the optimiser adds one to what it updates. *)
Definition toy_loaded : gmap string Z :=
  {[ "teacher/conv1/W" := 7; "teacher/fc/W" := 9 ]}.
Definition toy_layers : list string := ["conv1/W"; "fc/W"].
Definition toy_adam (i : Z) (store : gmap string Z) (name : string) : Z :=
  default 0 (store !! name) + 1.
Definition toy_run : result (state Z) :=
  distil_loop Z example_error toy_adam toy_loaded toy_layers (fun _ => 0)
              example_args.

Section Claims.

Variable tensor : Type.
Variable categorical_error : Z -> Z -> Q.
Variable adam : Z -> gmap string tensor -> string -> tensor.
Variable loaded : gmap string tensor.
Variable layer_names : list string.
Variable initializer : string -> tensor.

Local Abbreviation loop :=
  (distil_loop tensor categorical_error adam loaded layer_names initializer).
Local Abbreviation loop' :=
  (distil_loop_check_in_validation
     tensor categorical_error adam loaded layer_names initializer).
Local Abbreviation step :=
  (iteration tensor categorical_error adam loaded layer_names initializer).
Local Abbreviation step' :=
  (iteration_check_in_validation
     tensor categorical_error adam loaded layer_names initializer).
Local Abbreviation start := (init tensor loaded layer_names initializer).
Local Abbreviation cur := (current_error categorical_error).

(** C2.  The loop writes a snapshot exactly at the iterations whose current
    validation error is strictly below the best error seen before, the best
    starting at 1.0: for a batch size between 1 and 10000 and a validation
    interval of at least 1 the loop returns, the files it saved are those of
    the improving iterations, in order, and its final [best_ve] is the best
    error seen; an iteration improves exactly when its error is below 1.0
    and below the error current at every earlier iteration.  On the errors
    0.5, 0.3, 0.4, 0.2 the snapshots follow 0.5, 0.3 and 0.2, none follows
    0.4. *)
Theorem save_exactly_on_improvement (a : args) :
  1 <= batch_size a <= n_valid ->
  1 <= val_interval a ->
  (exists st,
      loop a = Ok st /\
      saved_files (log st)
      = map (params_file a)
            (List.filter (improves categorical_error a)
                         (range 0 (max_iter a))) /\
      best_ve st = best_seen categorical_error a (Z.to_nat (max_iter a))) /\
  (forall i, 0 <= i ->
     improves categorical_error a i = true <->
     (cur a i < 1.0)%Q /\ forall j, 0 <= j < i -> (cur a i < cur a j)%Q) /\
  match example_run with
  | Ok st =>
      verr_and_saves (log st)
      = [MonitorVerr 0 (1 # 2); SaveParameters "out/params_000000.h5";
         MonitorVerr 1 (3 # 10); SaveParameters "out/params_000001.h5";
         MonitorVerr 2 (2 # 5);
         MonitorVerr 3 (1 # 5); SaveParameters "out/params_000003.h5"]
  | Raise _ => False
  end.
Proof.
  intros Hbs Hv. split; [|split].
  - destruct (loop_tracks_best tensor categorical_error adam loaded
                layer_names initializer a Hbs Hv (Z.to_nat (max_iter a)))
      as (st & Hrun & _ & Hbest & Hlog).
    rewrite range_of_to_nat in Hrun, Hlog. exists st. tauto.
  - intros i Hi. now apply improves_spec.
  - vm_compute. reflexivity.
Qed.


(** C4.  No name lies in both the scope [teacher] and the scope [student];
    the solver holds exactly the parameters of the scope [student]; the
    teacher's output needs no gradient and [backward] reaches no parameter
    of the scope [teacher]; and an iteration of the loop, hence the whole
    loop, leaves every parameter of the scope [teacher] as it was. *)
Theorem teacher_parameters_frozen :
  (forall name, in_scope teacher name = true -> in_scope student name = false)
  /\
  (forall name,
      name ∈ solver_parameters tensor loaded layer_names initializer <->
      is_Some (built tensor loaded layer_names initializer !! name) /\
      in_scope student name = true) /\
  (need_grad pred_label = false /\
   forall name, in_scope teacher name = true -> receives_grad name = false) /\
  (forall a st i st' name,
      in_scope teacher name = true ->
      step a st i = Ok st' ->
      params st' !! name = params st !! name) /\
  (forall a st name,
      in_scope teacher name = true ->
      loop a = Ok st ->
      params st !! name = built tensor loaded layer_names initializer !! name).
Proof.
  split; [exact scopes_disjoint|].
  split; [apply solver_parameters_spec|].
  split; [split; [reflexivity | exact teacher_receives_no_grad]|].
  split.
  - intros a st i st' name. apply iteration_teacher_frame.
  - intros a st name. apply distil_loop_teacher_frame.
Qed.

End Claims.

Lemma save_exactly_on_improvement_witness :
  1 <= batch_size example_args <= n_valid /\
  1 <= val_interval example_args /\
  exists st,
    example_run = Ok st /\
    saved_files (log st)
    = map (params_file example_args)
          (List.filter (improves example_error example_args) (range 0 4)).
Proof.
  assert (Hbs : 1 <= batch_size example_args <= n_valid)
    by (cbn; unfold n_valid; lia).
  assert (Hv : 1 <= val_interval example_args) by (cbn; lia).
  split; [exact Hbs|]. split; [exact Hv|].
  destruct (save_exactly_on_improvement
              unit example_error (fun _ _ _ => tt) ∅ [] (fun _ => tt)
              example_args Hbs Hv) as ((st & Hrun & Hlog & _) & _).
  exists st. split; [exact Hrun | exact Hlog].
Defined.


Lemma teacher_parameters_frozen_witness :
  in_scope teacher "teacher/conv1/W" = true /\
  exists st, toy_run = Ok st /\ params st !! "teacher/conv1/W" = Some 7.
Proof.
  assert (Ht : in_scope teacher "teacher/conv1/W" = true)
    by (vm_compute; reflexivity).
  split; [exact Ht|]. unfold toy_run.
  destruct (distil_loop Z example_error toy_adam toy_loaded toy_layers
                        (fun _ => 0) example_args) as [st|e] eqn:Hrun;
    [|vm_compute in Hrun; discriminate].
  exists st. split; [reflexivity|].
  rewrite (proj2 (proj2 (proj2 (proj2
             (teacher_parameters_frozen
                Z example_error toy_adam toy_loaded toy_layers
                (fun _ => 0)))))
             example_args st "teacher/conv1/W" Ht Hrun).
  vm_compute. reflexivity.
Defined.

(** The whole of [distil] on the example, and a run without iterations. *)
Definition example_distil : result (state unit) :=
  distil unit example_error (fun _ _ _ => tt) ∅ [] (fun _ => tt)
         example_args.

Definition no_iteration_args : args :=
  {| batch_size := 100; max_iter := 0; val_interval := 1;
     model_save_path := "out" |}.

Lemma last_snapshot_is_best_witness :
  1 <= batch_size example_args <= n_valid /\
  1 <= val_interval example_args /\
  exists st,
    example_run = Ok st /\
    (exists earlier,
        saved_files (log st) = earlier ++ [params_file example_args 3]) /\
    best_ve st = current_error example_error example_args 3.
Proof.
  assert (Hbs : 1 <= batch_size example_args <= n_valid)
    by (cbn; unfold n_valid; lia).
  assert (Hv : 1 <= val_interval example_args) by (cbn; lia).
  split; [exact Hbs|]. split; [exact Hv|].
  destruct (last_snapshot_is_best
              unit example_error (fun _ _ _ => tt) ∅ [] (fun _ => tt)
              example_args Hbs Hv) as (st & Hrun & Hbest & _).
  exists st. split; [exact Hrun|].
  assert (H3 : 0 <= 3 < max_iter example_args) by (cbn; lia).
  destruct (Hbest 3 H3) as (Hlast & Hve & _).
  - vm_compute. reflexivity.
  - intros j Hj.
    assert (Hc : j = 0 \/ j = 1 \/ j = 2) by lia.
    destruct Hc as [->|[->| ->]]; vm_compute; reflexivity.
  - intros j Hj. cbn in Hj. lia.
  - split; [exact Hlast | exact Hve].
Defined.

Lemma distil_returns_iff_witness :
  1 <= max_iter example_args /\ 1 <= batch_size example_args /\
  exists st, example_distil = Ok st.
Proof.
  assert (Hn : 1 <= max_iter example_args) by (cbn; lia).
  assert (Hb : 1 <= batch_size example_args) by (cbn; lia).
  split; [exact Hn|]. split; [exact Hb|].
  apply (proj1 (distil_returns_iff
                  unit example_error (fun _ _ _ => tt) ∅ [] (fun _ => tt)
                  example_args Hn Hb)).
  split; [cbn; lia | cbn; unfold n_valid; lia].
Defined.


Lemma final_pass_after_loop_witness :
  exists st,
    example_distil = Ok st /\
    verr_indices (log st) = [0; 1; 2; 3; 3] /\
    ~ List.NoDup (verr_indices (log st)).
Proof.
  unfold example_distil.
  destruct (distil unit example_error (fun _ _ _ => tt) ∅ [] (fun _ => tt)
                   example_args) as [st|e] eqn:Hst;
    [|vm_compute in Hst; discriminate].
  exists st. split; [reflexivity|].
  destruct (final_pass_after_loop
              unit example_error (fun _ _ _ => tt) ∅ [] (fun _ => tt)
              example_args st Hst)
    as (st1 & v & _ & _ & _ & _ & _ & Hverr & Hdup).
  split; [rewrite Hverr; reflexivity|].
  apply Hdup. reflexivity.
Defined.

Lemma loop_applies_optimiser_witness :
  exists st,
    toy_run = Ok st /\
    solver_steps (log st) = [0; 1; 2; 3] /\
    params st !! "teacher/fc/W" = Some 9.
Proof.
  unfold toy_run.
  destruct (distil_loop Z example_error toy_adam toy_loaded toy_layers
                        (fun _ => 0) example_args) as [st|e] eqn:Hrun;
    [|vm_compute in Hrun; discriminate].
  exists st. split; [reflexivity|].
  destruct (loop_applies_optimiser
              Z example_error toy_adam toy_loaded toy_layers (fun _ => 0)
              example_args st Hrun) as (Hs & _ & _ & Hframe & _).
  split; [exact Hs|]. rewrite Hframe; [vm_compute; reflexivity|].
  apply teacher_not_in_solver. vm_compute. reflexivity.
Defined.

Lemma snapshot_names_distinct_witness :
  1 <= batch_size example_args <= n_valid /\
  1 <= val_interval example_args /\
  exists st, example_distil = Ok st /\ List.NoDup (saved_files (log st)).
Proof.
  assert (Hbs : 1 <= batch_size example_args <= n_valid)
    by (cbn; unfold n_valid; lia).
  assert (Hv : 1 <= val_interval example_args) by (cbn; lia).
  split; [exact Hbs|]. split; [exact Hv|]. unfold example_distil.
  destruct (distil unit example_error (fun _ _ _ => tt) ∅ [] (fun _ => tt)
                   example_args) as [st|e] eqn:Hst;
    [|vm_compute in Hst; discriminate].
  exists st. split; [reflexivity|].
  exact (proj2 (proj2 (snapshot_names_distinct
                         unit example_error (fun _ _ _ => tt) ∅ []
                         (fun _ => tt) example_args Hbs Hv) st Hst)).
Defined.

End Distillation.


(** ** The multi-process script: [train] *)

Module Distributed.

(** The command-line arguments [train] reads. *)
Record args : Type := {
  batch_size : Z;
  learning_rate : Q;
  warmup_epoch : Z;
  max_iter : Z;
  args_model_save_interval : Z;
  model_save_path : string;
  use_latest_checkpoint : bool
}.

Inductive event : Type :=
| SetLearningRate (lr : Q)             (* solver.set_learning_rate(lr) *)
| Validated (i : Z) (ve : Q)           (* the validation block, all-reduced *)
| MonitorVerr (k : Z) (ve : Q)         (* monitor_verr.add(k, ve) *)
| MonitorVtime (k : Z)
| SaveParameters (file : string)       (* nn.save_parameters(file) *)
| SaveCheckpoint (path : string) (i : Z)
| SolverUpdate (i : Z)                 (* forward .. solver.update() *)
| MonitorLoss (k : Z)
| MonitorErr (k : Z)
| MonitorTime (k : Z).

(** The events that write a monitor entry, a snapshot or a checkpoint. *)
Definition is_write (e : event) : bool :=
  match e with
  | SetLearningRate _ | Validated _ _ | SolverUpdate _ => false
  | _ => true
  end.

Definition n_train_samples : Z := 50000.
Definition n_valid_samples : Z := 10000.

(** *** Strings: the file names of checkpoints

    File names are strings of 8-bit characters; digits and white space are
    the ASCII ones. *)

(** The value of a decimal digit: the codes 48 to 57. *)
Definition digit_value (c : ascii) : option Z :=
  let code := Z.of_nat (nat_of_ascii c) in
  if (48 <=? code) && (code <=? 57) then Some (code - 48) else None.

Definition is_digit (c : ascii) : bool :=
  match digit_value c with Some _ => true | None => false end.

Definition is_newline (c : ascii) : bool := Ascii.eqb c "010".

(** Whitespace as [int()] strips it, among the ASCII characters. *)
Definition is_space (c : ascii) : bool :=
  let n := nat_of_ascii c in
  ((9 <=? n) && (n <=? 13) || (28 <=? n) && (n <=? 32))%nat.

(** The rest of [s] after the literal [p]. *)
Fixpoint strip_prefix (p s : string) : option string :=
  match p, s with
  | EmptyString, _ => Some s
  | String a p', String b s' =>
      if Ascii.eqb a b then strip_prefix p' s' else None
  | _, _ => None
  end.

(** [.json] at the start of [s]: one character that is not a newline, then
    the letters. *)
Definition match_dot_json (s : string) : option string :=
  match s with
  | String c s' => if is_newline c then None else strip_prefix "json" s'
  | EmptyString => None
  end.

(** [(\d+).json] at the start of [s]: the longest run of digits first, then
    giving digits back one by one.  The group and what follows the match. *)
Fixpoint match_digits_dot_json (s : string) : option (string * string) :=
  match s with
  | String c s' =>
      if is_digit c then
        match match_digits_dot_json s' with
        | Some (ds, rest) => Some (String c ds, rest)
        | None =>
            match match_dot_json s' with
            | Some rest => Some (String c EmptyString, rest)
            | None => None
            end
        end
      else None
  | EmptyString => None
  end.

(** [checkpoint_(\d+).json] at the start of [s]. *)
Definition match_checkpoint (s : string) : option (string * string) :=
  match strip_prefix "checkpoint_" s with
  | Some s' => match_digits_dot_json s'
  | None => None
  end.

(** [.*checkpoint_(\d+).json] at the start of [s]: [.*] takes as many
    characters of the line as it can and gives them back one by one. *)
Fixpoint match_pattern (s : string) : option (string * string) :=
  match s with
  | String c s' =>
      if is_newline c then match_checkpoint s
      else match match_pattern s' with
           | Some r => Some r
           | None => match_checkpoint s
           end
  | EmptyString => match_checkpoint s
  end.

(** [re.sub(r'.*checkpoint_(\d+).json', '\\1', s)]: every match, from left
    to right, is replaced by its group.  A match has at least one
    character, so [fuel] above the length of [s] is never used up. *)
Fixpoint re_sub_fuel (fuel : nat) (s : string) : string :=
  match fuel with
  | O => s
  | S fuel' =>
      match match_pattern s with
      | Some (group, rest) => (group +:+ re_sub_fuel fuel' rest)%string
      | None =>
          match s with
          | String c s' => String c (re_sub_fuel fuel' s')
          | EmptyString => EmptyString
          end
      end
  end.

Definition re_sub (s : string) : string :=
  re_sub_fuel (S (String.length s)) s.

Fixpoint lstrip (s : string) : string :=
  match s with
  | String c s' => if is_space c then lstrip s' else s
  | EmptyString => EmptyString
  end.

Fixpoint rstrip (s : string) : string :=
  match s with
  | String c s' =>
      match rstrip s' with
      | EmptyString => if is_space c then EmptyString
                       else String c EmptyString
      | r => String c r
      end
  | EmptyString => EmptyString
  end.

(** The value of the digits of [s] after the digits of value [acc]; one
    underscore may separate two digits. *)
Fixpoint digits_value (acc : Z) (s : string) : option Z :=
  match s with
  | EmptyString => Some acc
  | String c s' =>
      match digit_value c with
      | Some d => digits_value (10 * acc + d) s'
      | None =>
          if Ascii.eqb c "_" then
            match s' with
            | String c' s'' =>
                match digit_value c' with
                | Some d => digits_value (10 * acc + d) s''
                | None => None
                end
            | EmptyString => None
            end
          else None
      end
  end.

Definition unsigned_value (s : string) : option Z :=
  match s with
  | String c s' =>
      match digit_value c with
      | Some d => digits_value d s'
      | None => None
      end
  | EmptyString => None
  end.

(** [int(s)] of a string. *)
Definition int_of_string (s : string) : result Z :=
  let t := rstrip (lstrip s) in
  let v := match t with
           | String c t' =>
               if Ascii.eqb c "-" then option_map Z.opp (unsigned_value t')
               else if Ascii.eqb c "+" then unsigned_value t'
               else unsigned_value t
           | EmptyString => None
           end in
  match v with
  | Some z => Ok z
  | None => Raise ValueError
  end.

(** [max(l)] of a list that is not empty. *)
Definition max_list (l : list Z) : Z :=
  match l with
  | [] => 0
  | x :: l' => fold_left Z.max l' x
  end.

(** A string of decimal digits and the number it writes. *)
Fixpoint all_digits (s : string) : bool :=
  match s with
  | EmptyString => true
  | String c s' => is_digit c && all_digits s'
  end.

Fixpoint decimal (acc : Z) (s : string) : Z :=
  match s with
  | EmptyString => acc
  | String c s' => decimal (10 * acc + default 0 (digit_value c)) s'
  end.

Fixpoint no_newline (s : string) : bool :=
  match s with
  | EmptyString => true
  | String c s' => negb (is_newline c) && no_newline s'
  end.

(** [e] is [checkpoint_<ds>.json] for the digits [ds]. *)
Definition is_checkpoint_name (e ds : string) : Prop :=
  all_digits ds = true /\ ds <> EmptyString /\
  e = ("checkpoint_" +:+ ds +:+ ".json")%string.

(** [f] is [<dir>/checkpoint_<ds>.json] for a directory path [dir] that has
    no newline and the digits [ds]. *)
Definition is_checkpoint_path (f ds : string) : Prop :=
  exists dir e,
    no_newline dir = true /\ is_checkpoint_name e ds /\
    f = (dir +:+ "/" +:+ e)%string.

Definition Qsum (xs : list Q) : Q := fold_left Qplus xs 0.0%Q.

(** Modelled from the spec: the communicator is not among the sources.
    [comm.all_reduce(x, division, inplace=True)] on the values [xs] the
    ranks hold: every rank ends with their sum, divided by the number of
    ranks [n_devices] when [division] is set. *)
Definition all_reduce (n_devices : Z) (division : bool) (xs : list Q)
  : list Q :=
  let total := Qsum xs in
  map (fun _ => if division then (total / inject_Z n_devices)%Q else total)
      xs.

Section Train.

(** An image of the validation set with its label. *)
Variable sample : Type.
(** [vsource.images[idx]], [vsource.labels[idx]]: the validation set in the
    order rank [r] has drawn for the validation pass of iteration [i]. *)
Variable val_set : Z -> Z -> list sample.
(** [error_valid.d] after [error_valid.forward] on a batch, with the
    parameters of iteration [i] (the same on every rank). *)
Variable error_valid : Z -> list sample -> Q.
(** [load_checkpoint(path, solver)] of the module [checkpoint], which is
    not among the sources: the iteration to resume from, or an exception. *)
Variable load_checkpoint : string -> result Z.
(** [glob.glob(pattern)]: the paths of the file system that match
    [pattern] at start-up, as the operating system gives them. *)
Variable glob : string -> list string.

(** [comm.size] and [comm.rank]. *)
Variable n_devices : Z.
Variable mpi_rank : Z.

(** *** Start-up *)

(** Line 132: [glob.glob(f'{args.model_save_path}/checkpoint_*.json')]. *)
Definition glob_checkpoints (a : args) : list string :=
  glob (model_save_path a +:+ "/checkpoint_*.json").

Definition checkpoint_file (a : args) (index : Z) : string :=
  (model_save_path a +:+ "/checkpoint_" +:+ str index +:+ ".json")%string.

Definition start_point (a : args) : result Z :=
  if use_latest_checkpoint a then
    let files := glob_checkpoints a in
    if (length files =? 0)%nat then Ok 0
    else
      let! indices := map_each (fun f => int_of_string (re_sub f)) files in
      load_checkpoint (checkpoint_file a (max_list indices))
  else Ok 0.

(** [int(n_train_samples / args.batch_size / n_devices)]. *)
Definition steps_per_epoch (a : args) : result Z :=
  let! q := truediv (inject_Z n_train_samples) (inject_Z (batch_size a)) in
  let! q' := truediv q (inject_Z n_devices) in
  Ok (int q').

(** Lines 124-126. *)
Definition warmup_iter (a : args) : result Z :=
  let! n := steps_per_epoch a in
  Ok (n * warmup_epoch a).

Definition warmup_slope (a : args) : result Q :=
  let! w := warmup_iter a in
  truediv (learning_rate a * inject_Z (n_devices - 1))%Q (inject_Z w).

(** *** Validation *)

(** Lines 184-195 on rank [r]: the sum of the batch errors and the number
    of batches, over the batch starts [js]. *)
Definition validation_loop (a : args) (r i : Z) (js : list Z) : Q * Z :=
  fold_left
    (fun acc j =>
       let image := slice (val_set r i) j (j + batch_size a) in
       if Z.of_nat (length image) =? batch_size a
       then ((fst acc + error_valid i image)%Q, snd acc + 1)
       else acc)
    js (0.0%Q, 0).

(** [int(n_valid_samples / n_devices * k)], over the rationals: the value
    of the source wherever its two float operations are exact, as they are
    when [n_devices] divides [n_valid_samples]. *)
Definition partition_bound (k : Z) : result Z :=
  let! q := truediv (inject_Z n_valid_samples) (inject_Z n_devices) in
  Ok (int (q * inject_Z k)%Q).

(** Lines 179-196 on rank [r]: [ve_local] after [ve_local /= k]. *)
Definition validation_local (a : args) (r i : Z) : result Q :=
  let! lo := partition_bound r in
  let! hi := partition_bound (r + 1) in
  let! js := range3 lo hi (batch_size a) in
  let acc := validation_loop a r i js in
  truediv (fst acc) (inject_Z (snd acc)).

(** Lines 179-198 on all ranks: what [ve] holds on every rank after the
    all-reduce when every rank has reached it, and otherwise the exception
    of the first rank that has left the pass before. *)
Definition validation_all (a : args) (i : Z) : result (list Q) :=
  let! locals := map_each (fun r => validation_local a r i)
                          (range 0 n_devices) in
  Ok (all_reduce n_devices true locals).

(** Lines 179-198 on rank [mpi_rank].  [ve_local /= k] raises on this rank
    when it has counted no batch.  Otherwise the rank enters
    [comm.all_reduce], which returns once every rank has entered it; when a
    peer has left the pass with an exception, the rank waits for ever. *)
Definition validation (a : args) (i : Z) : result Q :=
  let! own := validation_local a mpi_rank i in
  match validation_all a i with
  | Ok ves => Ok (nth (Z.to_nat mpi_rank) ves 0%Q)
  | Raise _ => Raise Blocked
  end.

(** *** The loop on one rank *)

Record state : Type := {
  lr : Q;                    (* the learning rate of the solver *)
  model_save_interval : Z;   (* the local counter of line 175 *)
  ve : option Q;             (* the data of [ve], once assigned *)
  log : list event
}.

Definition emit (e : event) (st : state) : state :=
  {| lr := lr st; model_save_interval := model_save_interval st;
     ve := ve st; log := log st ++ [e] |}.

Definition set_lr (x : Q) (st : state) : state :=
  {| lr := x; model_save_interval := model_save_interval st;
     ve := ve st; log := log st |}.

Definition set_model_save_interval (k : Z) (st : state) : state :=
  {| lr := lr st; model_save_interval := k; ve := ve st; log := log st |}.

Definition set_ve (v : Q) (st : state) : state :=
  {| lr := lr st; model_save_interval := model_save_interval st;
     ve := Some v; log := log st |}.

Definition params_file (a : args) (i : Z) : string :=
  path_join (model_save_path a) ("params_" +:+ fmt_06d i +:+ ".h5").

(** Lines 202-209, on rank 0. *)
Definition save_model (a : args) (i : Z) (v : Q) (st : state)
  : result state :=
  let st1 := emit (MonitorVtime (i * n_devices))
                  (emit (MonitorVerr (i * n_devices) v) st) in
  if model_save_interval st1 <=? 0 then
    let st2 := emit (SaveCheckpoint (model_save_path a) i)
                    (emit (SaveParameters (params_file a i)) st1) in
    let! q := truediv (inject_Z (args_model_save_interval a))
                      (inject_Z n_devices) in
    Ok (set_model_save_interval (model_save_interval st2 + int q) st2)
  else Ok st1.

(** Lines 178-209. *)
Definition validation_block (a : args) (st : state) (i : Z) : result state :=
  let! period := steps_per_epoch a in
  let! r := mod_ i period in
  if r =? 0 then
    let! v := validation a i in
    let st1 := emit (Validated i v) (set_ve v st) in
    if mpi_rank =? 0 then save_model a i v st1 else Ok st1
  else Ok st.

(** Lines 226-229, with [warmup_iter = w] and [warmup_slope = slope]. *)
Definition linear_warmup (a : args) (w : Z) (slope : Q) (i : Z) (st : state)
  : state :=
  if i <=? w then
    let x := (learning_rate a + slope * inject_Z i)%Q in
    emit (SetLearningRate x) (set_lr x st)
  else st.

(** Lines 231-234. *)
Definition monitor_training (i : Z) (st : state) : state :=
  if mpi_rank =? 0 then
    emit (MonitorTime (i * n_devices))
         (emit (MonitorErr (i * n_devices))
               (emit (MonitorLoss (i * n_devices)) st))
  else st.

(** Lines 177-234: the body of the training loop. *)
Definition iteration (a : args) (w : Z) (slope : Q) (st : state) (i : Z)
  : result state :=
  let! st1 := validation_block a st i in
  let st2 := set_model_save_interval (model_save_interval st1 - 1) st1 in
  let st3 := emit (SolverUpdate i) st2 in
  Ok (monitor_training i (linear_warmup a w slope i st3)).

(** Line 127 and lines 174-175. *)
Definition init (a : args) : state :=
  {| lr := learning_rate a; model_save_interval := 0; ve := None;
     log := [SetLearningRate (learning_rate a)] |}.

(** [int(args.max_iter / n_devices)]. *)
Definition n_steps (a : args) : result Z :=
  let! q := truediv (inject_Z (max_iter a)) (inject_Z n_devices) in
  Ok (int q).

Definition train (a : args) : result state :=
  let! w := warmup_iter a in
  let! slope := warmup_slope a in
  let! start := start_point a in
  let! stop := n_steps a in
  let! st := for_each (iteration a w slope) (range start stop) (init a) in
  Ok (if mpi_rank =? 0 then emit (SaveParameters (params_file a stop)) st
      else st).

(** *** What the loop is compared with *)

(** The batches of the pass that have the full size. *)
Definition full_batches (a : args) (r i : Z) (js : list Z)
  : list (list sample) :=
  List.filter (fun b => Z.of_nat (length b) =? batch_size a)
              (map (fun j => slice (val_set r i) j (j + batch_size a)) js).

(** The warm-up as the specification words it: a line from 0 at step 0 to
    [base_lr] at step [w]. *)
Definition line_from_zero (a : args) (w i : Z) : Q :=
  (learning_rate a * inject_Z i / inject_Z w)%Q.

Definition solver_updates (l : list event) : list Z :=
  flat_map (fun e => match e with SolverUpdate i => [i] | _ => [] end) l.

Definition validations (l : list event) : list Z :=
  flat_map (fun e => match e with Validated i _ => [i] | _ => [] end) l.

Definition learning_rates (l : list event) : list Q :=
  flat_map (fun e => match e with SetLearningRate x => [x] | _ => [] end) l.

(** The starts of the batches of rank [r], without the exceptions: the
    range of lines 184-186 over the exact partition bounds. *)
Definition batch_starts (a : args) (r : Z) : list Z :=
  let lo := Z.quot (n_valid_samples * r) n_devices in
  let hi := Z.quot (n_valid_samples * (r + 1)) n_devices in
  map (fun k => lo + Z.of_nat k * batch_size a)
      (seq 0 (Z.to_nat ((hi - lo + batch_size a - 1) / batch_size a))).

(** The mean error of rank [r] over its batches of full size. *)
Definition local_mean (a : args) (r i : Z) : Q :=
  let bs := full_batches a r i (batch_starts a r) in
  (Qsum (map (error_valid i) bs) / inject_Z (Z.of_nat (length bs)))%Q.

Definition writes (l : list event) : list event := List.filter is_write l.

(** The events of the validation block of iteration [i], when it runs with
    all-reduced error [v]: the last four only while the counter
    [model_save_interval] is not positive. *)
Definition validation_events (a : args) (i : Z) (v : Q) (save : bool)
  : list event :=
  Validated i v ::
  (if mpi_rank =? 0
   then MonitorVerr (i * n_devices) v :: MonitorVtime (i * n_devices) ::
        (if save
         then [SaveParameters (params_file a i);
               SaveCheckpoint (model_save_path a) i]
         else [])
   else []).

(** The events of iteration [i] after its validation block. *)
Definition training_events (a : args) (w : Z) (slope : Q) (i : Z)
  : list event :=
  SolverUpdate i ::
  (if i <=? w
   then [SetLearningRate (learning_rate a + slope * inject_Z i)%Q]
   else [])
  ++ (if mpi_rank =? 0
      then [MonitorLoss (i * n_devices); MonitorErr (i * n_devices);
            MonitorTime (i * n_devices)]
      else []).

(** The learning-rate changes of iteration [i]. *)
Definition warmup_rates (a : args) (w : Z) (slope : Q) (i : Z) : list Q :=
  if i <=? w then [(learning_rate a + slope * inject_Z i)%Q] else [].

(** *** Arithmetic of the start-up *)

Lemma int_div_mul (x n k : Z) :
  0 < n -> int (inject_Z x / inject_Z n * inject_Z k) = Z.quot (x * k) n.
Proof.
  intros Hn. destruct n as [|p|p]; try lia.
  unfold int, Qdiv, Qmult, Qinv, inject_Z. simpl.
  now rewrite Pos.mul_1_r, Z.mul_1_r.
Qed.

Lemma int_div_div (x m n : Z) :
  0 < m -> 0 < n ->
  int (inject_Z x / inject_Z m / inject_Z n) = Z.quot x (m * n).
Proof.
  intros Hm Hn. destruct m as [|p|p]; try lia. destruct n as [|q|q]; try lia.
  unfold int, Qdiv, Qmult, Qinv, inject_Z. simpl.
  now rewrite !Z.mul_1_r.
Qed.

Lemma steps_per_epoch_ok (a : args) :
  0 < batch_size a -> 0 < n_devices ->
  steps_per_epoch a
  = Ok (Z.quot n_train_samples (batch_size a * n_devices)).
Proof.
  intros Hb Hn. unfold steps_per_epoch.
  rewrite truediv_ok by lia. cbn [Py.bind].
  rewrite truediv_ok by lia. cbn [Py.bind].
  now rewrite int_div_div.
Qed.

Lemma partition_bound_ok (k : Z) :
  0 < n_devices ->
  partition_bound k = Ok (Z.quot (n_valid_samples * k) n_devices).
Proof.
  intros Hn. unfold partition_bound. rewrite truediv_ok by lia.
  cbn [Py.bind]. now rewrite int_div_mul.
Qed.

Lemma n_steps_ok (a : args) :
  0 < n_devices -> n_steps a = Ok (Z.quot (max_iter a) n_devices).
Proof.
  intros Hn. unfold n_steps. rewrite truediv_ok by lia. cbn [Py.bind].
  now rewrite int_div by lia.
Qed.

(** *** Validation: only the batches of full size count *)

Lemma validation_loop_acc (a : args) (r i : Z) (js : list Z) (acc : Q * Z) :
  fold_left
    (fun acc j =>
       let image := slice (val_set r i) j (j + batch_size a) in
       if Z.of_nat (length image) =? batch_size a
       then ((fst acc + error_valid i image)%Q, snd acc + 1)
       else acc)
    js acc
  = (fold_left Qplus (map (error_valid i) (full_batches a r i js)) (fst acc),
     snd acc + Z.of_nat (length (full_batches a r i js))).
Proof.
  revert acc. induction js as [|j js IH]; intros [s k].
  - cbn. f_equal. lia.
  - cbn [fold_left]. rewrite IH. unfold full_batches. cbn [map List.filter].
    destruct (Z.of_nat (length (slice (val_set r i) j (j + batch_size a)))
              =? batch_size a); cbn [fst snd map fold_left length].
    + f_equal. lia.
    + reflexivity.
Qed.

Lemma validation_loop_spec (a : args) (r i : Z) (js : list Z) :
  validation_loop a r i js
  = (Qsum (map (error_valid i) (full_batches a r i js)),
     Z.of_nat (length (full_batches a r i js))).
Proof. unfold validation_loop. now rewrite validation_loop_acc. Qed.

Lemma full_batches_app (a : args) (r i : Z) (js1 js2 : list Z) :
  full_batches a r i (js1 ++ js2)
  = full_batches a r i js1 ++ full_batches a r i js2.
Proof. unfold full_batches. now rewrite map_app, List.filter_app. Qed.

Lemma full_batches_In (a : args) (r i : Z) (js : list Z) (b : list sample) :
  In b (full_batches a r i js) <->
  Z.of_nat (length b) = batch_size a /\
  exists j, In j js /\ b = slice (val_set r i) j (j + batch_size a).
Proof.
  unfold full_batches. rewrite List.filter_In, in_map_iff, Z.eqb_eq. split.
  - intros [(j & <- & Hj) Hlen]. split; [exact Hlen | eauto].
  - intros [Hlen (j & Hj & ->)]. split; [eauto | exact Hlen].
Qed.

Lemma range3_pos (lo hi step : Z) :
  0 < step ->
  range3 lo hi step
  = Ok (map (fun k => lo + Z.of_nat k * step)
            (seq 0 (Z.to_nat ((hi - lo + step - 1) / step)))).
Proof.
  intros Hs. unfold range3.
  replace (step =? 0) with false by (symmetry; lia).
  now replace (0 <? step) with true by (symmetry; lia).
Qed.

Lemma validation_local_ok (a : args) (r i : Z) :
  0 < n_devices -> 0 < batch_size a ->
  full_batches a r i (batch_starts a r) <> [] ->
  validation_local a r i = Ok (local_mean a r i).
Proof.
  intros Hn Hb Hfull. unfold validation_local.
  rewrite !partition_bound_ok by exact Hn. cbn [Py.bind].
  rewrite range3_pos by exact Hb. cbn [Py.bind].
  fold (batch_starts a r). rewrite validation_loop_spec. cbn [fst snd].
  rewrite truediv_ok; [reflexivity|].
  destruct (full_batches a r i (batch_starts a r)); [congruence|].
  cbn [length]. lia.
Qed.

Lemma map_each_ok {A B : Type} (f : A -> result B) (g : A -> B)
      (l : list A) :
  (forall x, In x l -> f x = Ok (g x)) -> map_each f l = Ok (map g l).
Proof.
  induction l as [|x l IH]; intros H; [reflexivity|]. cbn.
  rewrite (H x) by now left. cbn.
  rewrite IH by (intros y Hy; apply H; now right). reflexivity.
Qed.

Lemma all_reduce_nth (division : bool) (xs : list Q) (k : nat) :
  (k < length xs)%nat ->
  nth k (all_reduce n_devices division xs) 0%Q
  = if division then (Qsum xs / inject_Z n_devices)%Q else Qsum xs.
Proof.
  intros Hk. unfold all_reduce.
  set (v := if division then _ else _).
  rewrite (nth_indep _ 0%Q v) by now rewrite length_map.
  change v with ((fun _ : Q => v) (nth k xs 0%Q)). now rewrite map_nth.
Qed.

(** *** What one iteration adds to the log *)

Lemma log_emit (e : event) (st : state) : log (emit e st) = log st ++ [e].
Proof. reflexivity. Qed.

Lemma validation_block_inv (a : args) (st st1 : state) (i : Z) :
  validation_block a st i = Ok st1 ->
  exists period,
    steps_per_epoch a = Ok period /\ period <> 0 /\
    lr st1 = lr st /\
    if i mod period =? 0
    then exists v,
        validation a i = Ok v /\ ve st1 = Some v /\
        log st1 = log st
                  ++ validation_events a i v (model_save_interval st <=? 0)
    else st1 = st.
Proof.
  unfold validation_block.
  destruct (steps_per_epoch a) as [period|]; [|discriminate].
  cbn [Py.bind]. unfold mod_. destruct (period =? 0) eqn:Hp; [discriminate|].
  cbn [Py.bind]. intros H. exists period.
  split; [reflexivity|]. split; [lia|].
  destruct (i mod period =? 0); [|injection H as <-; tauto].
  destruct (validation a i) as [v|]; [|discriminate]. cbn [Py.bind] in H.
  unfold validation_events, save_model in *.
  destruct (mpi_rank =? 0).
  - cbn [model_save_interval emit set_ve] in H.
    destruct (model_save_interval st <=? 0).
    + destruct (truediv _ _); [|discriminate]. injection H as <-.
      split; [reflexivity|]. exists v. split; [reflexivity|].
      split; [reflexivity|]. cbn. now rewrite <- !app_assoc.
    + injection H as <-. split; [reflexivity|]. exists v.
      split; [reflexivity|]. split; [reflexivity|].
      cbn. now rewrite <- !app_assoc.
  - injection H as <-. split; [reflexivity|]. exists v.
    split; [reflexivity|]. split; reflexivity.
Qed.

Lemma iteration_inv (a : args) (w : Z) (slope : Q) (st st' : state) (i : Z) :
  iteration a w slope st i = Ok st' ->
  exists st1,
    validation_block a st i = Ok st1 /\
    lr st' = (if i <=? w
              then (learning_rate a + slope * inject_Z i)%Q
              else lr st) /\
    log st' = log st1 ++ training_events a w slope i.
Proof.
  unfold iteration. destruct (validation_block a st i) as [st1|] eqn:Hv;
    [|discriminate]. cbn [Py.bind]. intros [= <-]. exists st1.
  split; [reflexivity|].
  apply validation_block_inv in Hv as (_ & _ & _ & Hlr & _).
  unfold training_events, monitor_training, linear_warmup.
  destruct (i <=? w), (mpi_rank =? 0); cbn; rewrite <- ?app_assoc;
    split; (reflexivity || exact Hlr).
Qed.

Lemma iteration_log (a : args) (w : Z) (slope : Q) (st st' : state) (i : Z) :
  iteration a w slope st i = Ok st' ->
  exists period evs,
    steps_per_epoch a = Ok period /\ period <> 0 /\
    log st' = log st ++ evs /\
    solver_updates evs = [i] /\
    validations evs = (if i mod period =? 0 then [i] else []) /\
    learning_rates evs = warmup_rates a w slope i /\
    (mpi_rank <> 0 -> writes evs = []).
Proof.
  intros H. apply iteration_inv in H as (st1 & Hv & _ & Hlog).
  apply validation_block_inv in Hv as (period & Hp & Hp0 & _ & Hv).
  exists period.
  assert (Ht : solver_updates (training_events a w slope i) = [i] /\
               validations (training_events a w slope i) = [] /\
               learning_rates (training_events a w slope i)
               = warmup_rates a w slope i /\
               (mpi_rank <> 0 -> writes (training_events a w slope i) = [])).
  { unfold training_events, warmup_rates.
    destruct (i <=? w), (mpi_rank =? 0) eqn:Hr; cbn;
      repeat split; try reflexivity; intros; lia. }
  destruct Ht as (Ht1 & Ht2 & Ht3 & Ht4).
  destruct (i mod period =? 0).
  - destruct Hv as (v & _ & _ & Hlog1). rewrite Hlog1, <- app_assoc in Hlog.
    eexists. split; [exact Hp|]. split; [exact Hp0|].
    split; [exact Hlog|]. unfold solver_updates, validations, learning_rates,
      writes in *. rewrite !flat_map_app, List.filter_app, Ht1, Ht2, Ht3.
    unfold validation_events.
    destruct (mpi_rank =? 0) eqn:Hr, (model_save_interval st <=? 0); cbn;
      repeat split; try reflexivity; intros Hne; try lia; now apply Ht4.
  - subst st1. exists (training_events a w slope i). tauto.
Qed.

(** *** What the loop adds to the log *)

Lemma range_succ (lo : Z) (n : nat) :
  range lo (lo + Z.of_nat (S n))
  = range lo (lo + Z.of_nat n) ++ [lo + Z.of_nat n].
Proof.
  replace (lo + Z.of_nat (S n)) with (lo + Z.of_nat n + 1) by lia.
  apply range_snoc. lia.
Qed.

Lemma loop_log (a : args) (w : Z) (slope : Q) (period lo : Z) (n : nat) :
  steps_per_epoch a = Ok period ->
  forall st0 st,
    for_each (iteration a w slope) (range lo (lo + Z.of_nat n)) st0 = Ok st ->
    exists evs,
      log st = log st0 ++ evs /\
      solver_updates evs = range lo (lo + Z.of_nat n) /\
      validations evs
      = List.filter (fun i => i mod period =? 0)
                    (range lo (lo + Z.of_nat n)) /\
      learning_rates evs
      = flat_map (warmup_rates a w slope) (range lo (lo + Z.of_nat n)) /\
      (mpi_rank <> 0 -> writes evs = []).
Proof.
  intros Hp st0. induction n as [|n IH]; intros st.
  - rewrite range_nil by lia. intros [= <-]. exists [].
    rewrite app_nil_r. repeat split.
  - rewrite range_succ, for_each_snoc.
    destruct (for_each _ (range lo (lo + Z.of_nat n)) st0) as [s1|];
      [|discriminate]. cbn [Py.bind]. intros Hit.
    destruct (IH s1 eq_refl) as (evs1 & Hl1 & Hu1 & Hv1 & Hr1 & Hw1).
    apply iteration_log in Hit
      as (period' & evs2 & Hp' & _ & Hl2 & Hu2 & Hv2 & Hr2 & Hw2).
    rewrite Hp in Hp'. injection Hp' as <-.
    exists (evs1 ++ evs2). rewrite Hl2, Hl1, <- app_assoc.
    unfold solver_updates, validations, learning_rates, writes in *.
    rewrite !flat_map_app, !List.filter_app, Hu1, Hu2, Hv1, Hv2, Hr1, Hr2.
    cbn [flat_map List.filter]. rewrite app_nil_r.
    repeat split. intros Hne. now rewrite Hw1, Hw2.
Qed.

(** The learning rate after the first [n + 1] iterations of a fresh run is
    the one of the last warm-up step among them. *)
Lemma loop_lr (a : args) (w : Z) (slope : Q) (n : nat) :
  0 <= w ->
  forall st,
    for_each (iteration a w slope) (range 0 (0 + Z.of_nat (S n))) (init a)
    = Ok st ->
    lr st
    = (learning_rate a + slope * inject_Z (Z.min (Z.of_nat n) w))%Q.
Proof.
  intros Hw. induction n as [|n IH]; intros st;
    rewrite range_succ, for_each_snoc.
  - rewrite range_nil by lia. cbn [for_each Py.bind]. intros Hit.
    apply iteration_inv in Hit as (_ & _ & -> & _).
    replace (0 + Z.of_nat 0 <=? w) with true
      by (symmetry; apply Z.leb_le; lia).
    now replace (Z.min (Z.of_nat 0) w) with (0 + Z.of_nat 0) by lia.
  - destruct (for_each _ (range 0 (0 + Z.of_nat (S n))) (init a)) as [s1|];
      [|discriminate]. cbn [Py.bind]. intros Hit.
    apply iteration_inv in Hit as (_ & _ & -> & _).
    destruct (0 + Z.of_nat (S n) <=? w) eqn:E.
    + apply Z.leb_le in E.
      now replace (Z.min (Z.of_nat (S n)) w) with (0 + Z.of_nat (S n))
        by lia.
    + apply Z.leb_gt in E. rewrite (IH s1 eq_refl).
      now replace (Z.min (Z.of_nat (S n)) w) with (Z.min (Z.of_nat n) w)
        by lia.
Qed.

Lemma train_inv (a : args) (st : state) :
  train a = Ok st ->
  exists w slope start stop st1,
    warmup_iter a = Ok w /\ warmup_slope a = Ok slope /\
    start_point a = Ok start /\ n_steps a = Ok stop /\
    for_each (iteration a w slope) (range start stop) (init a) = Ok st1 /\
    st = if mpi_rank =? 0
         then emit (SaveParameters (params_file a stop)) st1 else st1.
Proof.
  unfold train.
  destruct (warmup_iter a) as [w|]; [|discriminate]. cbn [Py.bind].
  destruct (warmup_slope a) as [slope|]; [|discriminate]. cbn [Py.bind].
  destruct (start_point a) as [start|]; [|discriminate]. cbn [Py.bind].
  destruct (n_steps a) as [stop|]; [|discriminate]. cbn [Py.bind].
  destruct (for_each _ _ _) as [st1|] eqn:Hloop; [|discriminate].
  cbn [Py.bind]. intros [= <-].
  exists w, slope, start, stop, st1. tauto.
Qed.

Lemma range_to_nat (lo hi : Z) :
  range lo hi = range lo (lo + Z.of_nat (Z.to_nat (hi - lo))).
Proof. unfold range. do 2 f_equal. lia. Qed.

(** *** Runs that do not fail *)

Section Healthy.

Variable a : args.
Hypothesis Hn : 1 <= n_devices.
Hypothesis Hbs : 1 <= batch_size a.
Hypothesis Hfit : batch_size a * n_devices <= n_valid_samples.
Hypothesis Hlen :
  forall r i, length (val_set r i) = Z.to_nat n_valid_samples.

Lemma partition_arith (r : Z) :
  0 <= r < n_devices ->
  let lo := Z.quot (n_valid_samples * r) n_devices in
  let hi := Z.quot (n_valid_samples * (r + 1)) n_devices in
  0 <= lo /\ lo + 1 <= hi /\ lo + batch_size a <= n_valid_samples.
Proof.
  intros Hr lo hi. subst lo hi. unfold n_valid_samples in *.
  rewrite !Z.quot_div_nonneg by lia.
  assert (H1 : (10000 * r) / n_devices + 1 <= (10000 * (r + 1)) / n_devices).
  { rewrite <- (Z.div_add _ 1) by lia. apply Z.div_le_mono; nia. }
  assert (H2 : (10000 * r) / n_devices <= 10000 - batch_size a).
  { rewrite <- (Z.div_mul (10000 - batch_size a) n_devices) by lia.
    apply Z.div_le_mono; nia. }
  pose proof (Z.div_pos (10000 * r) n_devices). lia.
Qed.

Lemma first_batch_full (r i : Z) :
  0 <= r < n_devices -> full_batches a r i (batch_starts a r) <> [].
Proof.
  intros Hr. destruct (partition_arith r Hr) as (Hlo & Hhi & Hend).
  unfold batch_starts.
  set (lo := Z.quot (n_valid_samples * r) n_devices) in *.
  set (hi := Z.quot (n_valid_samples * (r + 1)) n_devices) in *.
  assert (Hc : 1 <= (hi - lo + batch_size a - 1) / batch_size a).
  { apply Z.div_le_lower_bound; lia. }
  destruct (Z.to_nat ((hi - lo + batch_size a - 1) / batch_size a))
    as [|c] eqn:Ec; [lia|].
  cbn [seq map]. unfold full_batches. cbn [map List.filter].
  replace (lo + Z.of_nat 0 * batch_size a) with lo by lia.
  assert (Hfull : Z.of_nat (length (slice (val_set r i) lo
                                          (lo + batch_size a)))
                  = batch_size a).
  { unfold slice. rewrite length_firstn, length_skipn, Hlen. lia. }
  rewrite Hfull, Z.eqb_refl. discriminate.
Qed.

Lemma validation_all_ok (i : Z) :
  validation_all a i
  = Ok (all_reduce n_devices true
                   (map (fun r => local_mean a r i) (range 0 n_devices))).
Proof.
  unfold validation_all.
  rewrite (map_each_ok _ (fun r => local_mean a r i)); [reflexivity|].
  intros r Hr. apply in_range in Hr.
  apply validation_local_ok; [lia | lia | apply first_batch_full; lia].
Qed.

Lemma validation_ok (i : Z) :
  0 <= mpi_rank < n_devices ->
  validation a i
  = Ok (Qsum (map (fun r => local_mean a r i) (range 0 n_devices))
        / inject_Z n_devices)%Q.
Proof.
  intros Hr. unfold validation.
  rewrite validation_local_ok
    by first [lia | apply first_batch_full; lia].
  cbn [Py.bind]. rewrite validation_all_ok.
  rewrite all_reduce_nth; [reflexivity|].
  rewrite length_map, range_length. lia.
Qed.

Lemma period_pos :
  1 <= Z.quot n_train_samples (batch_size a * n_devices).
Proof.
  unfold n_train_samples, n_valid_samples in *.
  apply Z.quot_le_lower_bound; nia.
Qed.

Lemma iteration_ok (w : Z) (slope : Q) (st : state) (i : Z) :
  0 <= mpi_rank < n_devices ->
  exists st', iteration a w slope st i = Ok st'.
Proof.
  intros Hr. unfold iteration, validation_block.
  rewrite steps_per_epoch_ok by lia. cbn [Py.bind].
  pose proof period_pos as Hp. unfold mod_.
  replace (_ =? 0) with false by (symmetry; lia). cbn [Py.bind].
  destruct (_ mod _ =? 0); cbn [Py.bind]; [|eexists; reflexivity].
  rewrite validation_ok by exact Hr. cbn [Py.bind].
  destruct (mpi_rank =? 0); [|eexists; reflexivity].
  unfold save_model. destruct (_ <=? 0); [|eexists; reflexivity].
  rewrite truediv_ok by lia. eexists. reflexivity.
Qed.

Lemma loop_ok (w : Z) (slope : Q) (l : list Z) :
  0 <= mpi_rank < n_devices ->
  forall st, exists st', for_each (iteration a w slope) l st = Ok st'.
Proof.
  intros Hr. induction l as [|i l IH]; intros st; cbn [for_each].
  - now exists st.
  - destruct (iteration_ok w slope st i Hr) as [st1 ->]. apply IH.
Qed.

Lemma train_ok :
  warmup_epoch a <> 0 ->
  use_latest_checkpoint a = false ->
  0 <= mpi_rank < n_devices ->
  exists st, train a = Ok st.
Proof.
  intros Hw Hc Hr. unfold train, warmup_slope, warmup_iter, start_point.
  rewrite steps_per_epoch_ok, Hc, n_steps_ok by lia. cbn [Py.bind].
  pose proof period_pos as Hp. rewrite truediv_ok by nia. cbn [Py.bind].
  destruct (loop_ok (Z.quot n_train_samples (batch_size a * n_devices)
                     * warmup_epoch a)
                    (learning_rate a * inject_Z (n_devices - 1)
                     / inject_Z (Z.quot n_train_samples
                                        (batch_size a * n_devices)
                                 * warmup_epoch a))%Q
                    (range 0 (Z.quot (max_iter a) n_devices)) Hr (init a))
    as [st1 ->].
  cbn [Py.bind]. eexists. reflexivity.
Qed.

Lemma locals_ok (i : Z) :
  map_each (fun r => validation_local a r i) (range 0 n_devices)
  = Ok (map (fun r => local_mean a r i) (range 0 n_devices)).
Proof.
  apply map_each_ok. intros r Hr. apply in_range in Hr.
  apply validation_local_ok; [lia | lia | apply first_batch_full; lia].
Qed.

End Healthy.

Lemma map_each_length {A B : Type} (f : A -> result B) (l : list A)
      (ys : list B) :
  map_each f l = Ok ys -> length ys = length l.
Proof.
  revert ys. induction l as [|x l IH]; intros ys; cbn.
  - now intros [= <-].
  - destruct (f x) as [y|]; [|discriminate]. cbn.
    destruct (map_each f l) as [ys'|]; [|discriminate]. cbn.
    intros [= <-]. cbn. now rewrite (IH ys').
Qed.

Lemma map_each_In {A B : Type} (f : A -> result B) (l : list A)
      (ys : list B) (x : A) :
  map_each f l = Ok ys -> In x l -> exists y, f x = Ok y.
Proof.
  revert ys. induction l as [|z l IH]; intros ys H Hx; [destruct Hx|].
  cbn in H. destruct (f z) as [y|] eqn:Ez; [|discriminate]. cbn in H.
  destruct (map_each f l) as [ys'|]; [|discriminate].
  destruct Hx as [<-|Hx]; [eauto | eapply IH; eauto].
Qed.

(** The steps per epoch and the last step, in closed form. *)
Lemma steps_per_epoch_inv (a : args) (period : Z) :
  steps_per_epoch a = Ok period ->
  batch_size a <> 0 /\ n_devices <> 0 /\
  period = Z.quot n_train_samples (batch_size a * n_devices).
Proof.
  unfold steps_per_epoch.
  destruct (truediv _ (inject_Z (batch_size a))) as [q|] eqn:E1;
    [|discriminate]. cbn [Py.bind].
  destruct (truediv q _) as [q'|] eqn:E2; [|discriminate]. cbn [Py.bind].
  intros [= <-]. apply truediv_inv in E1 as [Hb ->].
  apply truediv_inv in E2 as [Hn ->].
  split; [exact Hb|]. split; [exact Hn|].
  rewrite <- int_div by lia. apply int_Qeq.
  rewrite inject_Z_mult. field.
  split; intros E; unfold Qeq in E; simpl in E; lia.
Qed.

Lemma n_steps_inv (a : args) (stop : Z) :
  n_steps a = Ok stop ->
  n_devices <> 0 /\ stop = Z.quot (max_iter a) n_devices.
Proof.
  unfold n_steps. destruct (truediv _ _) as [q|] eqn:E; [|discriminate].
  cbn [Py.bind]. intros [= <-]. apply truediv_inv in E as [Hn ->].
  split; [exact Hn|]. now apply int_div.
Qed.

Lemma warmup_iter_period (a : args) (w : Z) :
  warmup_iter a = Ok w -> exists period, steps_per_epoch a = Ok period.
Proof.
  unfold warmup_iter. destruct (steps_per_epoch a) as [p|]; [|discriminate].
  eauto.
Qed.

(** C3.  A run of [train] without resume that returns has made exactly the
    training steps [0 .. int(max_iter / n_devices) - 1], one per iteration,
    and has validated exactly at the iterations [i] among them with
    [i % int(n_train_samples / batch_size / n_devices) == 0]; with
    [max_iter = 20] on two devices these are 10 training steps.  And the
    run does return on every rank when the batch size is at least 1 and
    fits [n_devices] times into the 10000 validation samples and the
    warm-up has some epochs.  The last step and the period are the
    truncated quotients of [max_iter] by [n_devices] and of 50000 by
    [batch_size * n_devices]. *)
Theorem fresh_run_steps (a : args) :
  use_latest_checkpoint a = false ->
  1 <= n_devices ->
  (1 <= batch_size a ->
   batch_size a * n_devices <= n_valid_samples ->
   (forall r i, length (val_set r i) = Z.to_nat n_valid_samples) ->
   warmup_epoch a <> 0 ->
   0 <= mpi_rank < n_devices ->
   exists st, train a = Ok st) /\
  (forall st,
      train a = Ok st ->
      solver_updates (log st) = range 0 (Z.quot (max_iter a) n_devices) /\
      validations (log st)
      = List.filter
          (fun i =>
             i mod Z.quot n_train_samples (batch_size a * n_devices) =? 0)
          (range 0 (Z.quot (max_iter a) n_devices)) /\
      (forall i,
          In i (validations (log st)) <->
          0 <= i < Z.quot (max_iter a) n_devices /\
          i mod Z.quot n_train_samples (batch_size a * n_devices) = 0) /\
      (0 <= max_iter a ->
       Z.of_nat (length (solver_updates (log st)))
       = Z.quot (max_iter a) n_devices) /\
      (max_iter a = 20 -> n_devices = 2 ->
       length (solver_updates (log st)) = 10%nat)).
Proof.
  intros Hc Hn. split.
  - intros Hbs Hfit Hlen Hw Hr. now apply train_ok.
  - intros st Hst.
    destruct (train_inv a st Hst)
      as (w & slope & start & stop & st1 & Hwi & _ & Hs & Hstop & Hloop
          & ->).
    unfold start_point in Hs. rewrite Hc in Hs. injection Hs as <-.
    destruct (warmup_iter_period a w Hwi) as [period Hp].
    rewrite range_to_nat in Hloop.
    eapply loop_log in Hloop as (evs & Hl & Hu & Hv & _); [|exact Hp].
    rewrite <- range_to_nat in Hu, Hv.
    apply steps_per_epoch_inv in Hp as (_ & _ & ->).
    apply n_steps_inv in Hstop as (_ & ->).
    assert (Hlog : solver_updates
                     (log (if mpi_rank =? 0
                           then emit (SaveParameters
                                        (params_file a
                                           (Z.quot (max_iter a) n_devices)))
                                     st1
                           else st1))
                   = range 0 (Z.quot (max_iter a) n_devices) /\
                   validations
                     (log (if mpi_rank =? 0
                           then emit (SaveParameters
                                        (params_file a
                                           (Z.quot (max_iter a) n_devices)))
                                     st1
                           else st1))
                   = List.filter
                       (fun i =>
                          i mod Z.quot n_train_samples
                                       (batch_size a * n_devices) =? 0)
                       (range 0 (Z.quot (max_iter a) n_devices))).
    { destruct (mpi_rank =? 0); rewrite ?log_emit, Hl;
        unfold solver_updates, validations in *;
        rewrite !flat_map_app, Hu, Hv; cbn; rewrite ?app_nil_r; tauto. }
    destruct Hlog as [Hu' Hv']. rewrite Hu', Hv'.
    split; [reflexivity|]. split; [reflexivity|]. split.
    { intros i. rewrite List.filter_In, in_range, Z.eqb_eq. tauto. }
    rewrite range_length. split.
    + intros Hm. pose proof (Z.quot_pos (max_iter a) n_devices). lia.
    + intros -> ->. reflexivity.
Qed.

(** C5.  All-reduce with division leaves, on every rank, the sum of the
    values of the ranks divided by their number.  So whatever local errors
    the [n_devices] ranks bring to the validation pass of iteration [i],
    the pass gives every rank their arithmetic mean, and that is what [ve]
    holds after the validation block.  The local errors are there, as the
    mean errors over the full batches, whenever the batch size is at least
    1 and fits [n_devices] times into the 10000 validation samples. *)
Theorem validation_error_is_mean_of_ranks (a : args) (i : Z) :
  (forall (xs : list Q) (k : nat),
      (k < length xs)%nat ->
      nth k (all_reduce n_devices true xs) 0%Q
      = (Qsum xs / inject_Z n_devices)%Q) /\
  (forall locals,
      map_each (fun r => validation_local a r i) (range 0 n_devices)
      = Ok locals ->
      0 <= mpi_rank < n_devices ->
      Z.of_nat (length locals) = n_devices /\
      validation a i = Ok (Qsum locals / inject_Z n_devices)%Q /\
      forall period st st1,
        steps_per_epoch a = Ok period ->
        i mod period = 0 ->
        validation_block a st i = Ok st1 ->
        ve st1 = Some (Qsum locals / inject_Z n_devices)%Q) /\
  (1 <= n_devices ->
   1 <= batch_size a ->
   batch_size a * n_devices <= n_valid_samples ->
   (forall r j, length (val_set r j) = Z.to_nat n_valid_samples) ->
   map_each (fun r => validation_local a r i) (range 0 n_devices)
   = Ok (map (fun r => local_mean a r i) (range 0 n_devices))).
Proof.
  split; [intros xs k Hk; now apply all_reduce_nth|]. split.
  - intros locals Hl Hr.
    pose proof (map_each_length _ _ _ Hl) as Hlen.
    rewrite range_length in Hlen.
    assert (Hv : validation a i = Ok (Qsum locals / inject_Z n_devices)%Q).
    { destruct (map_each_In _ _ _ mpi_rank Hl) as [own Hown];
        [apply in_range; lia|]. cbv beta in Hown.
      unfold validation, validation_all. rewrite Hown, Hl. cbn [Py.bind].
      rewrite all_reduce_nth; [reflexivity | lia]. }
    split; [lia|]. split; [exact Hv|].
    intros period st st1 Hp Hm Hb.
    apply validation_block_inv in Hb as (period' & Hp' & _ & _ & Hb).
    rewrite Hp in Hp'. injection Hp' as <-.
    rewrite Hm in Hb. cbn in Hb. destruct Hb as (v & Hv' & Hve & _).
    rewrite Hv in Hv'. injection Hv' as <-. exact Hve.
  - intros Hn Hbs Hfit Hlen. now apply locals_ok.
Qed.

(** C8.  In the validation pass of a rank the error sum and the batch count
    are those of the batches of full size alone: a slice whose length is
    not [bs_valid] changes neither, every batch that counts is a slice of
    the validation set of exactly [bs_valid] samples (none is padded), and
    the local error is the sum over these batches divided by their
    number. *)
Theorem short_batches_are_skipped (a : args) (r i : Z) :
  (forall js,
      validation_loop a r i js
      = (Qsum (map (error_valid i) (full_batches a r i js)),
         Z.of_nat (length (full_batches a r i js)))) /\
  (forall js1 j js2,
      Z.of_nat (length (slice (val_set r i) j (j + batch_size a)))
      <> batch_size a ->
      validation_loop a r i (js1 ++ j :: js2)
      = validation_loop a r i (js1 ++ js2)) /\
  (forall js b,
      In b (full_batches a r i js) <->
      Z.of_nat (length b) = batch_size a /\
      exists j, In j js /\ b = slice (val_set r i) j (j + batch_size a)) /\
  validation_local a r i
  = (let! lo := partition_bound r in
     let! hi := partition_bound (r + 1) in
     let! js := range3 lo hi (batch_size a) in
     truediv (Qsum (map (error_valid i) (full_batches a r i js)))
             (inject_Z (Z.of_nat (length (full_batches a r i js))))).
Proof.
  split; [apply validation_loop_spec|]. split; [|split].
  - intros js1 j js2 Hshort. rewrite !validation_loop_spec.
    rewrite !full_batches_app.
    change (j :: js2) with ([j] ++ js2). rewrite full_batches_app.
    unfold full_batches at 2 5. cbn [map List.filter].
    apply Z.eqb_neq in Hshort. now rewrite Hshort.
  - intros js b. apply full_batches_In.
  - unfold validation_local.
    destruct (partition_bound r) as [lo|]; [|reflexivity].
    destruct (partition_bound (r + 1)) as [hi|]; [|reflexivity].
    cbn [Py.bind].
    destruct (range3 lo hi (batch_size a)) as [js|]; [|reflexivity].
    cbn [Py.bind]. now rewrite validation_loop_spec.
Qed.

(** C6.  On a rank other than 0 no iteration adds a monitor entry, a
    parameter snapshot or a checkpoint to the log, and the log of a whole
    run of [train] holds none. *)
Theorem only_rank_zero_writes (a : args) :
  mpi_rank <> 0 ->
  (forall w slope st i st',
      iteration a w slope st i = Ok st' ->
      writes (log st') = writes (log st)) /\
  (forall st, train a = Ok st -> writes (log st) = []).
Proof.
  intros Hr. split.
  - intros w slope st i st' Hit.
    apply iteration_log in Hit as (_ & evs & _ & _ & -> & _ & _ & _ & Hw).
    unfold writes in *. now rewrite List.filter_app, Hw, app_nil_r.
  - intros st Hst.
    destruct (train_inv a st Hst)
      as (w & slope & start & stop & st1 & Hwi & _ & _ & _ & Hloop & ->).
    destruct (warmup_iter_period a w Hwi) as [period Hp].
    rewrite range_to_nat in Hloop.
    eapply loop_log in Hloop as (evs & Hl & _ & _ & _ & Hw); [|exact Hp].
    replace (mpi_rank =? 0) with false by (symmetry; lia).
    unfold writes in *. now rewrite Hl, List.filter_app, Hw.
Qed.

Lemma warmup_slope_inv (a : args) (w : Z) (slope : Q) :
  warmup_iter a = Ok w -> warmup_slope a = Ok slope ->
  w <> 0 /\
  slope = (learning_rate a * inject_Z (n_devices - 1) / inject_Z w)%Q.
Proof.
  intros Hw. unfold warmup_slope, truediv. rewrite Hw. cbn [Py.bind].
  destruct (Qeq_bool (inject_Z w) 0) eqn:E; [discriminate|].
  intros [= <-]. split; [|reflexivity]. intros ->. discriminate.
Qed.

(** C9.  With [warmup_slope = base_lr * (n_devices - 1) / warmup_iter], an
    iteration [i <= warmup_iter] sets the learning rate once, to
    [base_lr + warmup_slope * i]; an iteration [i > warmup_iter] makes no
    call of [set_learning_rate] and leaves the rate as it was; so a fresh
    run that goes beyond the warm-up ends with the rate of the last warm-up
    step, [base_lr + warmup_slope * warmup_iter]. *)
Theorem warmup_learning_rate (a : args) (w : Z) (slope : Q) :
  warmup_iter a = Ok w ->
  warmup_slope a = Ok slope ->
  slope = (learning_rate a * inject_Z (n_devices - 1) / inject_Z w)%Q /\
  (forall st i st',
      iteration a w slope st i = Ok st' ->
      (i <= w ->
       lr st' = (learning_rate a + slope * inject_Z i)%Q /\
       learning_rates (log st')
       = learning_rates (log st)
         ++ [(learning_rate a + slope * inject_Z i)%Q]) /\
      (w < i ->
       lr st' = lr st /\
       learning_rates (log st') = learning_rates (log st))) /\
  (forall st stop,
      use_latest_checkpoint a = false ->
      train a = Ok st -> n_steps a = Ok stop -> 0 <= w < stop ->
      lr st = (learning_rate a + slope * inject_Z w)%Q).
Proof.
  intros Hw Hs. split; [apply (warmup_slope_inv a w slope Hw Hs)|]. split.
  - intros st i st' Hit.
    pose proof (iteration_inv _ _ _ _ _ _ Hit) as (_ & _ & Hlr & _).
    apply iteration_log in Hit as (_ & evs & _ & _ & Hl & _ & _ & Hrs & _).
    unfold learning_rates, warmup_rates in *.
    rewrite Hl, flat_map_app, Hrs, Hlr. split; intros Hi.
    + now replace (i <=? w) with true by (symmetry; apply Z.leb_le; lia).
    + replace (i <=? w) with false by (symmetry; apply Z.leb_gt; lia).
      now rewrite app_nil_r.
  - intros st stop Hc Hst Hstop Hi.
    destruct (train_inv a st Hst)
      as (w' & slope' & start & stop' & st1 & Hw' & Hs' & H0 & Hstop'
          & Hloop & ->).
    rewrite Hw in Hw'. injection Hw' as <-.
    rewrite Hs in Hs'. injection Hs' as <-.
    rewrite Hstop in Hstop'. injection Hstop' as <-.
    unfold start_point in H0. rewrite Hc in H0. injection H0 as <-.
    replace stop with (0 + Z.of_nat (S (Z.to_nat (stop - 1)))) in Hloop
      by lia.
    apply loop_lr in Hloop; [|lia].
    replace (Z.min (Z.of_nat (Z.to_nat (stop - 1))) w) with w in Hloop
      by lia.
    now destruct (mpi_rank =? 0).
Qed.

(** C1, as the code has it.  For [i <= warmup_iter] the learning rate set
    at step [i] lies on the line that starts at [base_lr] at step 0 and
    reaches [n_devices * base_lr] at step [warmup_iter]. *)
Theorem warmup_line (a : args) (w : Z) (slope : Q) :
  warmup_iter a = Ok w ->
  warmup_slope a = Ok slope ->
  forall st i st',
    i <= w ->
    iteration a w slope st i = Ok st' ->
    (lr st' == learning_rate a
               + (inject_Z n_devices * learning_rate a - learning_rate a)
                 * inject_Z i / inject_Z w)%Q /\
    (i = 0 -> (lr st' == learning_rate a)%Q) /\
    (i = w -> (lr st' == inject_Z n_devices * learning_rate a)%Q).
Proof.
  intros Hw Hs st i st' Hi Hit.
  destruct (warmup_slope_inv a w slope Hw Hs) as [Hw0 ->].
  apply iteration_inv in Hit as (_ & _ & -> & _).
  replace (i <=? w) with true by (symmetry; apply Z.leb_le; lia).
  assert (Hq : ~ (inject_Z w == 0)%Q).
  { intros E. unfold Qeq in E. simpl in E. lia. }
  assert (Hn : (inject_Z (n_devices - 1) == inject_Z n_devices - 1)%Q).
  { unfold Z.sub. now rewrite inject_Z_plus, inject_Z_opp. }
  split; [|split].
  - rewrite Hn. field. exact Hq.
  - intros ->. rewrite Hn. change (inject_Z 0) with 0%Q. field. exact Hq.
  - intros ->. rewrite Hn. field. exact Hq.
Qed.

(** *** Snapshots and checkpoints of a run *)

Definition checkpoints (l : list event) : list Z :=
  flat_map (fun e => match e with SaveCheckpoint _ i => [i] | _ => [] end) l.

Definition snapshots (l : list event) : list string :=
  flat_map (fun e => match e with SaveParameters f => [f] | _ => [] end) l.

(** [int(args.model_save_interval / n_devices)], the step of line 209. *)
Definition save_step (a : args) : Z :=
  Z.quot (args_model_save_interval a) n_devices.

(** The iterations among the validated ones [vs] that write a checkpoint,
    in a loop that started at [lo], after [c] checkpoints: a validated
    iteration [i] writes one when [c * step <= i - lo]. *)
Fixpoint checkpoint_schedule (step lo c : Z) (vs : list Z) : list Z :=
  match vs with
  | [] => []
  | i :: rest =>
      if c * step <=? i - lo
      then i :: checkpoint_schedule step lo (c + 1) rest
      else checkpoint_schedule step lo c rest
  end.

Lemma checkpoint_schedule_app (step lo c : Z) (l1 l2 : list Z) :
  checkpoint_schedule step lo c (l1 ++ l2)
  = checkpoint_schedule step lo c l1
    ++ checkpoint_schedule step lo
         (c + Z.of_nat (length (checkpoint_schedule step lo c l1))) l2.
Proof.
  revert c. induction l1 as [|i l1 IH]; intros c.
  - cbn. now rewrite Z.add_0_r.
  - cbn [app checkpoint_schedule]. destruct (c * step <=? i - lo).
    + rewrite IH. cbn [app length]. do 3 f_equal. lia.
    + apply IH.
Qed.

Lemma checkpoint_schedule_In (step lo c : Z) (l : list Z) (i : Z) :
  In i (checkpoint_schedule step lo c l) -> In i l.
Proof.
  revert c. induction l as [|j l IH]; intros c; [tauto|].
  cbn [checkpoint_schedule]. destruct (c * step <=? j - lo).
  - intros [<-|H]; [now left | right; eapply IH, H].
  - intros H. right. eapply IH, H.
Qed.

Lemma checkpoint_schedule_NoDup (step lo c : Z) (l : list Z) :
  List.NoDup l -> List.NoDup (checkpoint_schedule step lo c l).
Proof.
  intros H. revert c. induction H as [|j l Hj Hl IH]; intros c;
    [constructor|].
  cbn [checkpoint_schedule]. destruct (c * step <=? j - lo); [|apply IH].
  constructor; [|apply IH]. intros Hin. apply Hj.
  eapply checkpoint_schedule_In, Hin.
Qed.

(** The checkpoint number [c + k] is not written before [c + k] steps of
    the save interval have passed. *)
Lemma checkpoint_schedule_nth (step lo : Z) (l : list Z) :
  forall c (k : nat) i,
    nth_error (checkpoint_schedule step lo c l) k = Some i ->
    (c + Z.of_nat k) * step <= i - lo.
Proof.
  induction l as [|j l IH]; intros c k i.
  - destruct k; discriminate.
  - cbn [checkpoint_schedule]. destruct (c * step <=? j - lo) eqn:E.
    + destruct k as [|k]; cbn [nth_error].
      * intros [= <-]. apply Z.leb_le in E. lia.
      * intros H. apply IH in H. lia.
    + apply IH.
Qed.

Lemma checkpoint_schedule_all (step lo : Z) (l : list Z) :
  step <= 0 -> (forall i, In i l -> lo <= i) ->
  forall c, 0 <= c -> checkpoint_schedule step lo c l = l.
Proof.
  intros Hs. induction l as [|j l IH]; intros Hl c Hc; [reflexivity|].
  cbn [checkpoint_schedule].
  replace (c * step <=? j - lo) with true.
  - f_equal. apply IH; [intros i Hi; apply Hl; now right | lia].
  - symmetry. apply Z.leb_le. specialize (Hl j (or_introl eq_refl)). nia.
Qed.

Lemma validation_block_counter (a : args) (st st1 : state) (i : Z) :
  validation_block a st i = Ok st1 ->
  exists period evs,
    steps_per_epoch a = Ok period /\
    log st1 = log st ++ evs /\
    validations evs = (if i mod period =? 0 then [i] else []) /\
    let saved := (i mod period =? 0) && (mpi_rank =? 0)
                 && (model_save_interval st <=? 0) in
    model_save_interval st1
    = model_save_interval st + (if saved then save_step a else 0) /\
    checkpoints evs = (if saved then [i] else []) /\
    snapshots evs = (if saved then [params_file a i] else []).
Proof.
  unfold validation_block.
  destruct (steps_per_epoch a) as [period|]; [|discriminate].
  cbn [Py.bind]. unfold mod_. destruct (period =? 0); [discriminate|].
  cbn [Py.bind]. intros H. exists period.
  destruct (i mod period =? 0).
  - destruct (validation a i) as [v|]; [|discriminate]. cbn [Py.bind] in H.
    unfold save_model in H. destruct (mpi_rank =? 0).
    + cbn [model_save_interval emit set_ve] in H.
      destruct (model_save_interval st <=? 0).
      * destruct (truediv _ _) as [q|] eqn:Eq; [|discriminate].
        apply truediv_inv in Eq as [Hn ->]. injection H as <-.
        eexists. split; [reflexivity|]. split.
        { cbn [log emit set_ve set_model_save_interval].
          rewrite <- !app_assoc. reflexivity. }
        split; [reflexivity|]. cbn. rewrite int_div by exact Hn.
        repeat split.
      * injection H as <-. eexists. split; [reflexivity|]. split.
        { cbn [log emit set_ve]. rewrite <- !app_assoc. reflexivity. }
        split; [reflexivity|]. cbn. rewrite Z.add_0_r. repeat split.
    + injection H as <-. eexists. split; [reflexivity|]. split.
      { cbn [log emit set_ve]. reflexivity. }
      split; [reflexivity|]. cbn. rewrite Z.add_0_r. repeat split.
  - injection H as <-. exists []. split; [reflexivity|].
    rewrite app_nil_r. cbn. rewrite Z.add_0_r. repeat split.
Qed.

Lemma iteration_counter (a : args) (w : Z) (slope : Q) (st st' : state)
      (i : Z) :
  iteration a w slope st i = Ok st' ->
  exists period evs,
    steps_per_epoch a = Ok period /\
    log st' = log st ++ evs /\
    validations evs = (if i mod period =? 0 then [i] else []) /\
    let saved := (i mod period =? 0) && (mpi_rank =? 0)
                 && (model_save_interval st <=? 0) in
    model_save_interval st'
    = model_save_interval st + (if saved then save_step a else 0) - 1 /\
    checkpoints evs = (if saved then [i] else []) /\
    snapshots evs = (if saved then [params_file a i] else []).
Proof.
  intros Hit. pose proof (iteration_inv _ _ _ _ _ _ Hit) as (s1 & Hb & _ & Hl).
  assert (Hc : model_save_interval st' = model_save_interval s1 - 1).
  { unfold iteration in Hit. rewrite Hb in Hit. cbn [Py.bind] in Hit.
    injection Hit as <-. unfold monitor_training, linear_warmup.
    destruct (i <=? w), (mpi_rank =? 0); reflexivity. }
  apply validation_block_counter in Hb
    as (period & evs & Hp & Hl1 & Hv & Hsave).
  exists period, (evs ++ training_events a w slope i).
  split; [exact Hp|]. split; [now rewrite Hl, Hl1, <- app_assoc|].
  assert (Ht : validations (training_events a w slope i) = [] /\
               checkpoints (training_events a w slope i) = [] /\
               snapshots (training_events a w slope i) = []).
  { unfold training_events.
    destruct (i <=? w), (mpi_rank =? 0); repeat split. }
  destruct Ht as (Ht1 & Ht2 & Ht3).
  unfold validations, checkpoints, snapshots in *.
  rewrite !flat_map_app, Ht1, Ht2, Ht3, !app_nil_r, Hc.
  cbv zeta in Hsave. destruct Hsave as (-> & -> & ->).
  split; [exact Hv|]. cbv zeta. repeat split.
Qed.

(** The counter and the checkpoints of the loop from [lo], run with the
    counter at 0 as [train] starts it. *)
Lemma loop_counter (a : args) (w : Z) (slope : Q) (period lo : Z)
      (n : nat) :
  steps_per_epoch a = Ok period ->
  forall st0 st,
    model_save_interval st0 = 0 ->
    for_each (iteration a w slope) (range lo (lo + Z.of_nat n)) st0 = Ok st ->
    exists evs,
      log st = log st0 ++ evs /\
      validations evs
      = List.filter (fun i => i mod period =? 0)
                    (range lo (lo + Z.of_nat n)) /\
      model_save_interval st
      = save_step a * Z.of_nat (length (checkpoints evs)) - Z.of_nat n /\
      snapshots evs = map (params_file a) (checkpoints evs) /\
      checkpoints evs
      = if mpi_rank =? 0
        then checkpoint_schedule (save_step a) lo 0 (validations evs)
        else [].
Proof.
  intros Hp st0 st H0. revert st. induction n as [|n IH]; intros st.
  - rewrite range_nil by lia. intros [= <-]. exists [].
    rewrite app_nil_r, H0. cbn. destruct (mpi_rank =? 0); repeat split; lia.
  - rewrite range_succ, for_each_snoc.
    destruct (for_each _ (range lo (lo + Z.of_nat n)) st0) as [s1|];
      [|discriminate]. cbn [Py.bind]. intros Hit.
    destruct (IH s1 eq_refl) as (evs1 & Hl1 & Hv1 & Hc1 & Hs1 & Hk1).
    apply iteration_counter in Hit
      as (period' & evs2 & Hp' & Hl2 & Hv2 & Hsave).
    rewrite Hp in Hp'. injection Hp' as <-.
    cbv zeta in Hsave. destruct Hsave as (Hc2 & Hk2 & Hs2).
    exists (evs1 ++ evs2). split; [now rewrite Hl2, Hl1, <- app_assoc|].
    assert (Hv : validations (evs1 ++ evs2)
                 = List.filter (fun i => i mod period =? 0)
                               (range lo (lo + Z.of_nat n)
                                ++ [lo + Z.of_nat n])).
    { unfold validations in *. rewrite flat_map_app, Hv1, Hv2.
      rewrite List.filter_app. cbn [List.filter].
      now destruct (_ =? 0). }
    split; [exact Hv|].
    assert (Hsaved :
              (model_save_interval s1 <=? 0)
              = (Z.of_nat (length (checkpoints evs1)) * save_step a
                 <=? lo + Z.of_nat n - lo)).
    { rewrite Hc1.
      destruct (Z.leb_spec
                  (save_step a * Z.of_nat (length (checkpoints evs1))
                   - Z.of_nat n) 0);
        symmetry; [apply Z.leb_le | apply Z.leb_gt]; lia. }
    unfold checkpoints, snapshots in *.
    rewrite !flat_map_app, Hs1, Hs2, Hk2, length_app, map_app, Hc2.
    split; [|split].
    + destruct (_ && _ && _); cbn [length]; lia.
    + now destruct (_ && _ && _).
    + rewrite Hv, List.filter_app, <- Hv1. cbn [List.filter].
      fold (validations evs1).
      destruct (mpi_rank =? 0) eqn:Hr.
      * rewrite checkpoint_schedule_app. fold (validations evs1) in Hk1.
        rewrite <- Hk1. f_equal.
        destruct ((lo + Z.of_nat n) mod period =? 0) eqn:Hm;
          [|reflexivity].
        cbn [andb checkpoint_schedule]. rewrite Hsaved.
        rewrite Z.add_0_l.
        now destruct (_ <=? _).
      * rewrite Hk1, andb_false_r. reflexivity.
Qed.

(** The log of a run that returns: the first setting of the learning
    rate, the events of the loop, and the last snapshot on rank 0. *)
Lemma train_log (a : args) (st : state) :
  train a = Ok st ->
  exists w slope start stop period evs,
    warmup_iter a = Ok w /\ warmup_slope a = Ok slope /\
    start_point a = Ok start /\ n_steps a = Ok stop /\
    steps_per_epoch a = Ok period /\
    log st = SetLearningRate (learning_rate a) :: evs
             ++ (if mpi_rank =? 0
                 then [SaveParameters (params_file a stop)] else []) /\
    solver_updates evs = range start stop /\
    validations evs
    = List.filter (fun i => i mod period =? 0) (range start stop) /\
    learning_rates evs
    = flat_map (warmup_rates a w slope) (range start stop) /\
    model_save_interval st
    = save_step a * Z.of_nat (length (checkpoints evs))
      - Z.of_nat (Z.to_nat (stop - start)) /\
    snapshots evs = map (params_file a) (checkpoints evs) /\
    checkpoints evs
    = if mpi_rank =? 0
      then checkpoint_schedule (save_step a) start 0 (validations evs)
      else [].
Proof.
  intros Hst.
  destruct (train_inv a st Hst)
    as (w & slope & start & stop & st1 & Hw & Hs & H0 & Hstop & Hloop & ->).
  destruct (warmup_iter_period a w Hw) as [period Hp].
  exists w, slope, start, stop, period.
  rewrite range_to_nat in Hloop.
  destruct (loop_log a w slope period start _ Hp _ _ Hloop)
    as (evs & Hl & Hu & Hv & Hr & _).
  destruct (loop_counter a w slope period start _ Hp (init a) st1 eq_refl
              Hloop)
    as (evs' & Hl' & _ & Hc & Hsn & Hk).
  rewrite Hl in Hl'. apply app_inv_head in Hl'. subst evs'.
  rewrite <- range_to_nat in Hu, Hv, Hr.
  exists evs. repeat (split; [assumption|]).
  split; [|split; [exact Hu|split; [exact Hv|split; [exact Hr|]]]].
  - destruct (mpi_rank =? 0); rewrite ?log_emit, Hl; cbn [log init app];
      [reflexivity | now rewrite !app_nil_r].
  - split; [|split; [exact Hsn | exact Hk]].
    now destruct (mpi_rank =? 0).
Qed.

Lemma flat_map_none {A B : Type} (f : A -> list B) (l : list A) :
  (forall x, In x l -> f x = []) -> flat_map f l = [].
Proof.
  induction l as [|x l IH]; intros H; [reflexivity|]. cbn.
  rewrite (H x) by now left. apply IH. intros y Hy. apply H. now right.
Qed.

Lemma snapshot_file_inj (a : args) (i j : Z) :
  0 <= i -> 0 <= j -> params_file a i = params_file a j -> i = j.
Proof.
  intros Hi Hj H. unfold params_file in H. apply path_join_inj in H.
  apply String.app_inj in H. apply app_string_inj_r in H.
  now apply fmt_06d_inj.
Qed.

Lemma snapshot_files_NoDup (a : args) (l : list Z) :
  List.NoDup l -> (forall i, In i l -> 0 <= i) ->
  List.NoDup (map (params_file a) l).
Proof.
  induction 1 as [|x l Hx Hl IH]; intros Hpos; cbn [map]; constructor.
  - rewrite in_map_iff. intros (y & Hy & Hin). apply Hx.
    apply snapshot_file_inj in Hy; [now subst | |]; apply Hpos;
      [now right | now left].
  - apply IH. intros i Hi. apply Hpos. now right.
Qed.

(** *** Start-up failures, resumed runs and the cadence of checkpoints *)

(** X7.  For a batch size that is not negative on at least one device, the
    start-up divides by zero in [warmup_slope] exactly when the batch size
    is 0, [warmup_epoch] is 0 or a global batch is larger than the 50000
    training samples (so that [warmup_iter] is 0); [train] then ends with
    [ZeroDivisionError] before its loop. *)
Theorem startup_division_by_zero (a : args) :
  0 <= batch_size a -> 1 <= n_devices ->
  (warmup_slope a = Raise ZeroDivisionError <->
   batch_size a = 0 \/ warmup_epoch a = 0
   \/ n_train_samples < batch_size a * n_devices) /\
  (warmup_slope a = Raise ZeroDivisionError ->
   train a = Raise ZeroDivisionError).
Proof.
  intros Hb Hn. split.
  - destruct (Z.eq_dec (batch_size a) 0) as [E|E].
    + split; [tauto|]. intros _.
      unfold warmup_slope, warmup_iter, steps_per_epoch. now rewrite E.
    + unfold warmup_slope, warmup_iter.
      rewrite steps_per_epoch_ok by lia. cbn [Py.bind].
      set (p := Z.quot n_train_samples (batch_size a * n_devices)).
      assert (Hp : p = 0 <-> n_train_samples < batch_size a * n_devices).
      { unfold p. rewrite Z.quot_small_iff by nia.
        unfold n_train_samples. nia. }
      destruct (Z.eq_dec (p * warmup_epoch a) 0) as [E0|E0].
      * rewrite E0. split; [intros _ | reflexivity].
        apply Z.mul_eq_0 in E0 as [E0|E0]; [|tauto].
        right; right. now apply Hp.
      * rewrite truediv_ok by exact E0. split; [discriminate|].
        intros [H|[H|H]]; [lia | rewrite H in E0; lia |].
        apply Hp in H. rewrite H in E0. lia.
  - intros H. unfold train. unfold warmup_slope in *.
    destruct (warmup_iter a); cbn [Py.bind] in *;
      [rewrite H; reflexivity | now injection H as ->].
Qed.

(** X8.  On a single device the warm-up changes nothing: the slope is 0 and
    every call of [set_learning_rate] of a run sets the base rate. *)
Theorem single_device_keeps_base_rate (a : args) (st : state) :
  n_devices = 1 -> train a = Ok st ->
  (forall slope, warmup_slope a = Ok slope -> (slope == 0)%Q) /\
  (forall x, In x (learning_rates (log st)) -> (x == learning_rate a)%Q).
Proof.
  intros Hn Hst.
  assert (Hslope : forall slope,
             warmup_slope a = Ok slope -> (slope == 0)%Q).
  { intros slope Hs. unfold warmup_slope in Hs.
    destruct (warmup_iter a) as [w|]; [|discriminate].
    cbn [Py.bind] in Hs. apply truediv_inv in Hs as [Hw0 ->].
    rewrite Hn. change (inject_Z (1 - 1)) with 0%Q. field.
    intros E. unfold Qeq in E. simpl in E. lia. }
  split; [exact Hslope|].
  destruct (train_log a st Hst)
    as (w & slope & start & stop & period & evs & _ & Hs & _ & _ & _
        & Hl & _ & _ & Hr & _).
  intros x. rewrite Hl. unfold learning_rates in *.
  cbn [flat_map app]. rewrite flat_map_app, Hr.
  intros [<-|Hx]; [reflexivity|].
  apply in_app_iff in Hx as [Hx|Hx].
  - apply in_flat_map in Hx as (i & _ & Hx). unfold warmup_rates in Hx.
    destruct (i <=? w); [|destruct Hx]. destruct Hx as [<-|[]].
    rewrite (Hslope slope Hs). ring.
  - destruct (mpi_rank =? 0); destruct Hx.
Qed.

(** X9.  A run that returns, resumed or not, has made exactly the training
    steps from its starting iteration to [int(max_iter / n_devices) - 1]
    and has validated at the multiples of
    [int(n_train_samples / batch_size / n_devices)] among them, the two
    bounds being the truncated quotients of [max_iter] by [n_devices] and
    of 50000 by [batch_size * n_devices].  When the starting iteration is
    not below the last one, the run trains nothing: it sets the base
    learning rate and, on rank 0, writes the last snapshot. *)
Theorem resumed_run_steps (a : args) (st : state) (start : Z) :
  train a = Ok st -> start_point a = Ok start ->
  solver_updates (log st) = range start (Z.quot (max_iter a) n_devices) /\
  validations (log st)
  = List.filter
      (fun i => i mod Z.quot n_train_samples (batch_size a * n_devices) =? 0)
      (range start (Z.quot (max_iter a) n_devices)) /\
  (Z.quot (max_iter a) n_devices <= start ->
   log st = SetLearningRate (learning_rate a)
            :: (if mpi_rank =? 0
                then [SaveParameters
                        (params_file a (Z.quot (max_iter a) n_devices))]
                else [])).
Proof.
  intros Hst H0.
  destruct (train_log a st Hst)
    as (w & slope & start' & stop & period & evs & _ & _ & H0' & Hstop & Hp
        & Hl & Hu & Hv & _).
  rewrite H0 in H0'. injection H0' as <-.
  pose proof (steps_per_epoch_inv a period Hp) as (_ & _ & Eperiod).
  pose proof (n_steps_inv a stop Hstop) as (_ & Estop).
  subst period.
  split; [|split].
  - rewrite Hl. unfold solver_updates in *. cbn [flat_map app].
    rewrite flat_map_app, Hu, Estop. destruct (mpi_rank =? 0); cbn;
      now rewrite app_nil_r.
  - rewrite Hl. unfold validations in *. cbn [flat_map app].
    rewrite flat_map_app, Hv, Estop. destruct (mpi_rank =? 0); cbn;
      now rewrite app_nil_r.
  - intros Hle.
    destruct (train_inv a st Hst)
      as (w1 & slope1 & start1 & stop1 & st1 & _ & _ & H01 & Hstop1 & Hloop
          & ->).
    rewrite H0 in H01. injection H01 as <-.
    rewrite Hstop in Hstop1. injection Hstop1 as <-.
    rewrite range_nil in Hloop by lia. injection Hloop as <-.
    rewrite Estop. now destruct (mpi_rank =? 0).
Qed.

(** X10.  A run resumed beyond the warm-up calls [set_learning_rate] once, with
    the base rate: no step of the loop sets a rate. *)
Theorem resume_past_warmup_keeps_base_rate (a : args) (st : state)
        (w start : Z) :
  train a = Ok st -> warmup_iter a = Ok w -> start_point a = Ok start ->
  w < start ->
  learning_rates (log st) = [learning_rate a].
Proof.
  intros Hst Hw H0 Hlt.
  destruct (train_log a st Hst)
    as (w' & slope & start' & stop & period & evs & Hw' & _ & H0' & _ & _
        & Hl & _ & _ & Hr & _).
  rewrite Hw in Hw'. injection Hw' as <-.
  rewrite H0 in H0'. injection H0' as <-.
  rewrite Hl. unfold learning_rates in *. cbn [flat_map app].
  rewrite flat_map_app, Hr, flat_map_none.
  - now destruct (mpi_rank =? 0).
  - intros i Hi. apply in_range in Hi. unfold warmup_rates.
    now replace (i <=? w) with false by (symmetry; apply Z.leb_gt; lia).
Qed.


(** X12.  Every checkpoint of the loop comes with the snapshot of its
    iteration, and the snapshots of a run are these and, on rank 0, the one
    written after the loop under the index [int(max_iter / n_devices)],
    which has no checkpoint.  Checkpoints are written at validated
    iterations of the loop; a rank other than 0 writes neither; and when
    the run does not start at a negative iteration no snapshot has the
    name of another one. *)
Theorem snapshots_follow_checkpoints (a : args) (st : state)
        (start stop : Z) :
  train a = Ok st -> start_point a = Ok start -> n_steps a = Ok stop ->
  snapshots (log st)
  = map (params_file a) (checkpoints (log st))
    ++ (if mpi_rank =? 0 then [params_file a stop] else []) /\
  (forall i, In i (checkpoints (log st)) ->
             In i (validations (log st)) /\ start <= i < stop) /\
  (mpi_rank <> 0 -> snapshots (log st) = [] /\ checkpoints (log st) = []) /\
  (0 <= start -> List.NoDup (snapshots (log st))).
Proof.
  intros Hst H0 Hstop.
  destruct (train_log a st Hst)
    as (w & slope & start' & stop' & period & evs & _ & _ & H0' & Hstop'
        & _ & Hl & _ & Hv & _ & _ & Hsn & Hk).
  rewrite H0 in H0'. injection H0' as <-.
  rewrite Hstop in Hstop'. injection Hstop' as <-.
  assert (Hcp : checkpoints (log st) = checkpoints evs).
  { rewrite Hl. unfold checkpoints. cbn [flat_map app].
    rewrite flat_map_app. destruct (mpi_rank =? 0); cbn;
      now rewrite app_nil_r. }
  assert (Hva : validations (log st) = validations evs).
  { rewrite Hl. unfold validations. cbn [flat_map app].
    rewrite flat_map_app. destruct (mpi_rank =? 0); cbn;
      now rewrite app_nil_r. }
  assert (Hsnap : snapshots (log st)
                  = map (params_file a) (checkpoints evs)
                    ++ (if mpi_rank =? 0 then [params_file a stop]
                        else [])).
  { rewrite Hl. unfold snapshots in *. cbn [flat_map app].
    rewrite flat_map_app, Hsn. now destruct (mpi_rank =? 0). }
  assert (Hin : forall i, In i (checkpoints evs) ->
                          In i (validations evs) /\ start <= i < stop).
  { intros i Hi. assert (Hi' : In i (validations evs)).
    { rewrite Hk in Hi. destruct (mpi_rank =? 0); [|destruct Hi].
      eapply checkpoint_schedule_In, Hi. }
    split; [exact Hi'|]. rewrite Hv in Hi'.
    apply List.filter_In in Hi' as [Hi' _]. now apply in_range in Hi'. }
  assert (Hnd : List.NoDup (checkpoints evs)).
  { rewrite Hk. destruct (mpi_rank =? 0); [|constructor].
    apply checkpoint_schedule_NoDup. rewrite Hv.
    apply List.NoDup_filter, range_NoDup. }
  rewrite Hcp, Hva, Hsnap. split; [reflexivity|]. split; [exact Hin|].
  split.
  - intros Hr. replace (mpi_rank =? 0) with false in * by (symmetry; lia).
    rewrite Hk. split; reflexivity.
  - intros Hs. destruct (mpi_rank =? 0).
    + change [params_file a stop] with (map (params_file a) [stop]).
      rewrite <- map_app.
      destruct (checkpoints evs) as [|c cs] eqn:E.
      * cbn. constructor; [intros [] | constructor].
      * apply snapshot_files_NoDup.
        -- apply List.NoDup_app; [exact Hnd | |].
           ++ constructor; [intros [] | constructor].
           ++ intros i Hi [<-|[]]. apply Hin in Hi. lia.
        -- intros i Hi. apply in_app_iff in Hi as [Hi|[<-|[]]].
           ++ apply Hin in Hi. lia.
           ++ specialize (Hin c (or_introl eq_refl)). lia.
    + rewrite app_nil_r. apply snapshot_files_NoDup; [exact Hnd|].
      intros i Hi. apply Hin in Hi. lia.
Qed.

(** *** The validation pass beyond the healthy arguments *)

Lemma filter_all {A : Type} (f : A -> bool) (l : list A) :
  (forall x, In x l -> f x = true) -> List.filter f l = l.
Proof.
  induction l as [|x l IH]; intros H; [reflexivity|]. cbn.
  rewrite (H x) by now left. f_equal. apply IH. intros y Hy.
  apply H. now right.
Qed.

Lemma full_batches_none (a : args) (r i : Z) (js : list Z) :
  1 <= batch_size a ->
  length (val_set r i) = Z.to_nat n_valid_samples ->
  (forall j, In j js -> 0 <= j /\ n_valid_samples < j + batch_size a) ->
  full_batches a r i js = [].
Proof.
  intros Hbs Hlen. induction js as [|j js IH]; intros H; [reflexivity|].
  unfold full_batches in *. cbn [map List.filter].
  destruct (H j (or_introl eq_refl)) as [Hj Hover].
  replace (_ =? batch_size a) with false.
  - apply IH. intros j' Hj'. apply H. now right.
  - symmetry. apply Z.eqb_neq. rewrite slice_length, Hlen.
    unfold n_valid_samples in *. lia.
Qed.

Lemma full_batches_all (a : args) (r i : Z) (js : list Z) :
  1 <= batch_size a ->
  length (val_set r i) = Z.to_nat n_valid_samples ->
  (forall j, In j js -> 0 <= j /\ j + batch_size a <= n_valid_samples) ->
  full_batches a r i js
  = map (fun j => slice (val_set r i) j (j + batch_size a)) js.
Proof.
  intros Hbs Hlen H. unfold full_batches. apply filter_all.
  intros b Hb. apply in_map_iff in Hb as (j & <- & Hj).
  destruct (H j Hj) as [Hj0 Hfit]. apply Z.eqb_eq.
  rewrite slice_length, Hlen. unfold n_valid_samples in *. lia.
Qed.

Lemma slices_concat {A : Type} (l : list A) (lo bs : Z) (c : nat) :
  0 <= lo -> 0 <= bs ->
  concat (map (fun j => slice l j (j + bs))
              (map (fun k => lo + Z.of_nat k * bs) (seq 0 c)))
  = slice l lo (lo + Z.of_nat c * bs).
Proof.
  intros Hlo Hbs. induction c as [|c IH].
  - cbn [seq map concat]. unfold slice.
    now replace (Z.to_nat (lo + Z.of_nat 0 * bs - lo)) with O by lia.
  - rewrite seq_S, !map_app, concat_app, IH. cbn [map concat Nat.add].
    rewrite app_nil_r, slice_app by nia. f_equal. lia.
Qed.

Lemma validation_local_cases (a : args) (r i : Z) :
  1 <= n_devices -> 1 <= batch_size a ->
  validation_local a r i = Raise ZeroDivisionError
  \/ exists v, validation_local a r i = Ok v.
Proof.
  intros Hn Hbs. unfold validation_local.
  rewrite !partition_bound_ok by lia. cbn [Py.bind].
  rewrite range3_pos by lia. cbn [Py.bind]. unfold truediv.
  destruct (Qeq_bool _ 0); [now left | right; eauto].
Qed.

Lemma map_each_raise {A B : Type} (f : A -> result B) (l : list A)
      (e : exn) :
  (forall x, In x l -> f x = Raise e \/ exists y, f x = Ok y) ->
  (exists x, In x l /\ f x = Raise e) ->
  map_each f l = Raise e.
Proof.
  induction l as [|x l IH]; intros Hall (z & Hz & Hfz); [destruct Hz|].
  cbn [map_each]. destruct (Hall x (or_introl eq_refl)) as [->|[y Hy]];
    [reflexivity|].
  rewrite Hy. cbn [Py.bind]. rewrite IH; [reflexivity| |].
  - intros x' Hx'. apply Hall. now right.
  - destruct Hz as [<-|Hz]; [congruence|]. eauto.
Qed.

Lemma partition_bounds (r : Z) :
  1 <= n_devices <= n_valid_samples -> 0 <= r < n_devices ->
  let lo := Z.quot (n_valid_samples * r) n_devices in
  let hi := Z.quot (n_valid_samples * (r + 1)) n_devices in
  0 <= lo /\ lo + 1 <= hi /\
  lo <= Z.quot (n_valid_samples * (n_devices - 1)) n_devices.
Proof.
  intros Hn Hr lo hi. subst lo hi. unfold n_valid_samples in *.
  rewrite !Z.quot_div_nonneg by lia.
  assert (H1 : (10000 * r) / n_devices + 1 <= (10000 * (r + 1)) / n_devices).
  { rewrite <- (Z.div_add _ 1) by lia. apply Z.div_le_mono; nia. }
  assert (H2 : (10000 * r) / n_devices
               <= (10000 * (n_devices - 1)) / n_devices).
  { apply Z.div_le_mono; nia. }
  pose proof (Z.div_pos (10000 * r) n_devices). lia.
Qed.


(** The bounds of the partition of rank [r] when the devices divide the
    validation set into shares of [per] samples, and the batch starts the
    pass runs through. *)
Lemma exact_partition (per r : Z) :
  1 <= n_devices -> n_valid_samples = per * n_devices ->
  Z.quot (n_valid_samples * r) n_devices = per * r /\
  partition_bound r = Ok (per * r).
Proof.
  intros Hn Hper.
  assert (Hq : Z.quot (n_valid_samples * r) n_devices = per * r).
  { rewrite Hper. replace (per * n_devices * r) with (per * r * n_devices)
      by lia. apply Z.quot_mul. lia. }
  split; [exact Hq|]. rewrite partition_bound_ok by lia. now rewrite Hq.
Qed.

Lemma range3_batch_starts (a : args) (per r : Z) :
  1 <= n_devices -> 1 <= batch_size a ->
  n_valid_samples = per * n_devices ->
  range3 (per * r) (per * (r + 1)) (batch_size a) = Ok (batch_starts a r).
Proof.
  intros Hn Hbs Hper. rewrite range3_pos by lia. unfold batch_starts.
  destruct (exact_partition per r Hn Hper) as [-> _].
  now destruct (exact_partition per (r + 1) Hn Hper) as [-> _].
Qed.

(** X14.  When the devices divide the 10000 validation samples evenly, the
    slices [val_images[j:j + bs_valid]] that the pass of a rank runs
    through lie one after the other without gap or overlap: together they
    are the samples from the start of the rank's partition to
    [start + count * batch_size], [count] being the number of slices, which
    is at or beyond the end of the partition by less than one batch.  So
    the last slice may reach into the partition of the next rank. *)
Theorem batches_tile_partition (a : args) (r i per : Z) :
  1 <= n_devices -> 0 <= r -> 1 <= batch_size a ->
  n_valid_samples = per * n_devices ->
  exists js,
    partition_bound r = Ok (per * r) /\
    partition_bound (r + 1) = Ok (per * (r + 1)) /\
    range3 (per * r) (per * (r + 1)) (batch_size a) = Ok js /\
    validation_local a r i
    = truediv (fst (validation_loop a r i js))
              (inject_Z (snd (validation_loop a r i js))) /\
    concat (map (fun j => slice (val_set r i) j (j + batch_size a)) js)
    = slice (val_set r i) (per * r)
            (per * r + Z.of_nat (length js) * batch_size a) /\
    per * (r + 1) <= per * r + Z.of_nat (length js) * batch_size a
                  < per * (r + 1) + batch_size a.
Proof.
  intros Hn Hr Hbs Hper. exists (batch_starts a r).
  destruct (exact_partition per r Hn Hper) as [Hq Hpb].
  destruct (exact_partition per (r + 1) Hn Hper) as [Hq' Hpb'].
  pose proof (range3_batch_starts a per r Hn Hbs Hper) as Hr3.
  assert (Hper0 : 1 <= per) by (unfold n_valid_samples in Hper; nia).
  split; [exact Hpb|]. split; [exact Hpb'|]. split; [exact Hr3|]. split.
  { unfold validation_local. rewrite Hpb, Hpb'. cbn [Py.bind].
    rewrite Hr3. reflexivity. }
  unfold batch_starts. rewrite Hq, Hq', length_map, length_seq.
  set (count := (per * (r + 1) - per * r + batch_size a - 1)
                / batch_size a).
  assert (Hcount : 0 <= count).
  { subst count. apply Z.div_pos; nia. }
  split.
  - apply slices_concat; nia.
  - rewrite Z2Nat.id by exact Hcount. subst count.
    pose proof (Z.div_mod (per * (r + 1) - per * r + batch_size a - 1)
                  (batch_size a) ltac:(lia)) as Hdm.
    pose proof (Z.mod_pos_bound
                  (per * (r + 1) - per * r + batch_size a - 1)
                  (batch_size a) ltac:(lia)) as Hmod.
    nia.
Qed.

(** The batch starts of a rank whose share [per] of the validation set is
    a whole number of batches. *)
Lemma even_partition_starts (a : args) (r per k : Z) :
  1 <= n_devices -> 0 <= r < n_devices -> 1 <= batch_size a ->
  n_valid_samples = per * n_devices ->
  per = k * batch_size a ->
  1 <= k /\
  batch_starts a r
  = map (fun m => per * r + Z.of_nat m * batch_size a)
        (seq 0 (Z.to_nat k)) /\
  forall j, In j (batch_starts a r) ->
            0 <= j /\ j + batch_size a <= n_valid_samples.
Proof.
  intros Hn Hr Hbs Hper Hk.
  destruct (exact_partition per r Hn Hper) as [Hlo _].
  destruct (exact_partition per (r + 1) Hn Hper) as [Hhi _].
  assert (Hper0 : 1 <= per) by (unfold n_valid_samples in Hper; nia).
  assert (Hk0 : 1 <= k) by nia.
  assert (Hcount : (per * (r + 1) - per * r + batch_size a - 1)
                   / batch_size a = k).
  { replace (per * (r + 1) - per * r + batch_size a - 1)
      with (k * batch_size a + (batch_size a - 1)) by lia.
    rewrite Z.div_add_l by lia. rewrite Z.div_small by lia. lia. }
  assert (Hstarts : batch_starts a r
                    = map (fun m => per * r + Z.of_nat m * batch_size a)
                          (seq 0 (Z.to_nat k))).
  { unfold batch_starts. now rewrite Hlo, Hhi, Hcount. }
  split; [exact Hk0|]. split; [exact Hstarts|].
  intros j Hj. rewrite Hstarts in Hj.
  apply in_map_iff in Hj as (m & <- & Hm). apply in_seq in Hm.
  unfold n_valid_samples in *. nia.
Qed.

(** X15.  When the devices divide the 10000 validation samples evenly and
    the batch size divides the share of a rank, the pass of a rank skips no
    slice: every slice it runs through has the full size, the batch count
    [k] of the loop is the share divided by the batch size on every rank,
    the error sum is the sum over all slices, the slices are exactly the
    samples of the rank's own partition, each once, and the local error is
    that sum divided by that count. *)
Theorem even_partition_is_covered (a : args) (r i per k : Z) :
  1 <= n_devices -> 0 <= r < n_devices -> 1 <= batch_size a ->
  length (val_set r i) = Z.to_nat n_valid_samples ->
  n_valid_samples = per * n_devices ->
  per = k * batch_size a ->
  exists js,
    partition_bound r = Ok (per * r) /\
    partition_bound (r + 1) = Ok (per * (r + 1)) /\
    range3 (per * r) (per * (r + 1)) (batch_size a) = Ok js /\
    (forall j, In j js ->
       Z.of_nat (length (slice (val_set r i) j (j + batch_size a)))
       = batch_size a) /\
    validation_loop a r i js
    = (Qsum (map (fun j => error_valid i
                             (slice (val_set r i) j (j + batch_size a)))
                 js), k) /\
    concat (map (fun j => slice (val_set r i) j (j + batch_size a)) js)
    = slice (val_set r i) (per * r) (per * (r + 1)) /\
    validation_local a r i
    = Ok (Qsum (map (fun j => error_valid i
                                (slice (val_set r i) j (j + batch_size a)))
                    js) / inject_Z k)%Q.
Proof.
  intros Hn Hr Hbs Hlen Hper Hk. exists (batch_starts a r).
  destruct (exact_partition per r Hn Hper) as [_ Hpb].
  destruct (exact_partition per (r + 1) Hn Hper) as [_ Hpb'].
  pose proof (range3_batch_starts a per r Hn Hbs Hper) as Hr3.
  destruct (even_partition_starts a r per k Hn Hr Hbs Hper Hk)
    as (Hk0 & Hstarts & Hfit).
  pose proof (full_batches_all a r i _ Hbs Hlen Hfit) as Hfull.
  assert (Hloop : validation_loop a r i (batch_starts a r)
                  = (Qsum (map (fun j => error_valid i
                                           (slice (val_set r i) j
                                                  (j + batch_size a)))
                               (batch_starts a r)), k)).
  { rewrite validation_loop_spec, Hfull, map_map, length_map. f_equal.
    rewrite Hstarts, length_map, length_seq. lia. }
  split; [exact Hpb|]. split; [exact Hpb'|]. split; [exact Hr3|].
  split; [|split; [exact Hloop|split]].
  - intros j Hj. destruct (Hfit j Hj) as [Hj0 Hjfit].
    rewrite slice_length, Hlen. unfold n_valid_samples in *. lia.
  - rewrite Hstarts, slices_concat by nia. f_equal. nia.
  - unfold validation_local. rewrite Hpb, Hpb'. cbn [Py.bind].
    rewrite Hr3. cbn [Py.bind]. rewrite Hloop. cbn [fst snd].
    now rewrite truediv_ok by lia.
Qed.

Lemma Qsum_acc (l : list Q) (acc : Q) :
  (fold_left Qplus l acc == acc + Qsum l)%Q.
Proof.
  unfold Qsum. revert acc. induction l as [|x l IH]; intros acc.
  - cbn. ring.
  - cbn [fold_left]. rewrite IH, (IH (0.0 + x)%Q). ring.
Qed.

Lemma Qsum_cons (x : Q) (l : list Q) : (Qsum (x :: l) == x + Qsum l)%Q.
Proof. unfold Qsum at 1. cbn [fold_left]. rewrite Qsum_acc. ring. Qed.

Lemma Qsum_app (l1 l2 : list Q) : (Qsum (l1 ++ l2) == Qsum l1 + Qsum l2)%Q.
Proof.
  induction l1 as [|x l1 IH]; cbn [app].
  - unfold Qsum at 2. cbn. ring.
  - rewrite !Qsum_cons, IH. ring.
Qed.

Lemma Qsum_flat_map {A : Type} (g : A -> list Q) (c : Q) (l : list A) :
  ~ (c == 0)%Q ->
  (Qsum (map (fun r => Qsum (g r) / c) l) == Qsum (flat_map g l) / c)%Q.
Proof.
  intros Hc. induction l as [|x l IH]; cbn [map flat_map].
  - unfold Qsum. cbn. field. exact Hc.
  - rewrite Qsum_cons, Qsum_app, IH. field. exact Hc.
Qed.

(** X16.  With such an even division the validation error every rank ends with
    is the plain mean of the errors of all batches of all ranks: the mean
    of the ranks' means weighs every batch the same. *)
Theorem even_partition_mean (a : args) (i per k : Z) :
  1 <= n_devices -> 1 <= batch_size a ->
  (forall r j, length (val_set r j) = Z.to_nat n_valid_samples) ->
  n_valid_samples = per * n_devices ->
  per = k * batch_size a ->
  0 <= mpi_rank < n_devices ->
  exists v,
    validation a i = Ok v /\
    (v == Qsum (flat_map
                  (fun r => map (error_valid i)
                                (full_batches a r i (batch_starts a r)))
                  (range 0 n_devices))
          / inject_Z (n_devices * k))%Q.
Proof.
  intros Hn Hbs Hlen Hper Hk Hr.
  assert (Hk0 : 1 <= k) by (unfold n_valid_samples in Hper; nia).
  assert (Hfit : batch_size a * n_devices <= n_valid_samples) by nia.
  eexists. split; [now apply validation_ok|].
  rewrite (map_ext_in _
             (fun r => Qsum (map (error_valid i)
                                 (full_batches a r i (batch_starts a r)))
                       / inject_Z k)%Q).
  - rewrite Qsum_flat_map, inject_Z_mult.
    + field. split; intros E; unfold Qeq in E; simpl in E; lia.
    + intros E. unfold Qeq in E. simpl in E. lia.
  - intros r Hin. apply in_range in Hin. unfold local_mean.
    destruct (even_partition_starts a r per k Hn ltac:(lia) Hbs Hper Hk)
      as (_ & Hstarts & Hin_fit).
    rewrite (full_batches_all a r i _ Hbs (Hlen r i) Hin_fit).
    rewrite length_map, Hstarts, length_map, length_seq.
    now rewrite Z2Nat.id by lia.
Qed.

End Train.

(** *** Checkpoint names *)

Lemma append_cons (c : ascii) (s t : string) :
  (String c s +:+ t)%string = String c (s +:+ t)%string.
Proof. reflexivity. Qed.

Lemma append_nil_l (t : string) : (EmptyString +:+ t)%string = t.
Proof. reflexivity. Qed.

Lemma append_nil_r (s : string) : (s +:+ EmptyString)%string = s.
Proof.
  induction s as [|c s IH]; [reflexivity|]. now rewrite append_cons, IH.
Qed.

Lemma digit_plain (c : ascii) :
  is_digit c = true ->
  is_space c = false /\ is_newline c = false /\
  Ascii.eqb c "-" = false /\ Ascii.eqb c "+" = false /\
  Ascii.eqb "c" c = false /\
  exists d, digit_value c = Some d.
Proof.
  destruct c as [[] [] [] [] [] [] [] []]; intros H; try discriminate H;
    vm_compute; repeat split; eexists; reflexivity.
Qed.

Lemma digits_value_decimal (s : string) (acc : Z) :
  all_digits s = true -> digits_value acc s = Some (decimal acc s).
Proof.
  revert acc. induction s as [|c s IH]; intros acc H; [reflexivity|].
  cbn in H. apply andb_true_iff in H as [Hc Hs].
  destruct (digit_plain c Hc) as (_ & _ & _ & _ & _ & d & Hd).
  cbn. rewrite Hd. cbn. now apply IH.
Qed.

Lemma rstrip_digits (s : string) : all_digits s = true -> rstrip s = s.
Proof.
  induction s as [|c s IH]; intros H; [reflexivity|].
  cbn in H. apply andb_true_iff in H as [Hc Hs].
  destruct (digit_plain c Hc) as (Hsp & _). cbn. rewrite (IH Hs).
  destruct s; [now rewrite Hsp | reflexivity].
Qed.

Lemma int_of_digits (ds : string) :
  all_digits ds = true -> ds <> EmptyString ->
  int_of_string ds = Ok (decimal 0 ds).
Proof.
  intros H Hne. destruct ds as [|c s]; [congruence|].
  pose proof (rstrip_digits _ H) as Hr. cbn in H.
  apply andb_true_iff in H as [Hc Hs].
  destruct (digit_plain c Hc) as (Hsp & _ & Hm & Hp & _ & d & Hd).
  unfold int_of_string. cbn [lstrip]. rewrite Hsp, Hr, Hm, Hp.
  cbn [unsigned_value decimal]. rewrite Hd.
  rewrite digits_value_decimal by exact Hs. reflexivity.
Qed.

Lemma match_digits_ok (ds : string) :
  all_digits ds = true -> ds <> EmptyString ->
  match_digits_dot_json (ds +:+ ".json") = Some (ds, EmptyString).
Proof.
  induction ds as [|c s IH]; intros H Hne; [congruence|].
  cbn in H. apply andb_true_iff in H as [Hc Hs].
  rewrite append_cons. cbn [match_digits_dot_json]. rewrite Hc.
  destruct s as [|c' s'].
  - reflexivity.
  - now rewrite IH.
Qed.

Lemma match_pattern_digits (ds : string) :
  all_digits ds = true -> match_pattern (ds +:+ ".json") = None.
Proof.
  induction ds as [|c s IH]; intros H; [reflexivity|].
  cbn in H. apply andb_true_iff in H as [Hc Hs].
  destruct (digit_plain c Hc) as (_ & Hnl & _ & _ & Hcc & _).
  rewrite append_cons. cbn [match_pattern]. rewrite Hnl, (IH Hs).
  unfold match_checkpoint. cbn [strip_prefix]. now rewrite Hcc.
Qed.

Lemma match_pattern_skip (c : ascii) (s : string) :
  is_newline c = false -> match_pattern s = None ->
  match_pattern (String c s) = match_checkpoint (String c s).
Proof. intros Hc Hs. cbn [match_pattern]. now rewrite Hc, Hs. Qed.

Lemma match_pattern_name (ds : string) :
  all_digits ds = true -> ds <> EmptyString ->
  match_pattern ("checkpoint_" +:+ ds +:+ ".json")
  = Some (ds, EmptyString).
Proof.
  intros H Hne. pose proof (match_pattern_digits ds H) as Hrest.
  rewrite !append_cons, append_nil_l.
  repeat (rewrite match_pattern_skip; [| reflexivity |]);
    try (unfold match_checkpoint; cbn [strip_prefix];
         exact Hrest || reflexivity).
  unfold match_checkpoint. cbn. now apply match_digits_ok.
Qed.

Lemma match_pattern_prefix (dir s : string) (r : string * string) :
  no_newline dir = true -> match_pattern s = Some r ->
  match_pattern (dir +:+ s) = Some r.
Proof.
  intros Hd Hs. induction dir as [|c dir IH]; [exact Hs|].
  cbn in Hd. apply andb_true_iff in Hd as [Hc Hd].
  apply negb_true_iff in Hc.
  rewrite append_cons. cbn [match_pattern]. now rewrite Hc, (IH Hd).
Qed.

Lemma re_sub_fuel_nil (fuel : nat) : re_sub_fuel fuel EmptyString = EmptyString.
Proof. destruct fuel; reflexivity. Qed.

(** The index the start-up reads off the path of a numbered checkpoint. *)
Lemma re_sub_checkpoint (dir e ds : string) :
  no_newline dir = true -> is_checkpoint_name e ds ->
  int_of_string (re_sub (dir +:+ "/" +:+ e)) = Ok (decimal 0 ds).
Proof.
  intros Hd (Hds & Hne & ->). unfold re_sub. cbn [re_sub_fuel].
  rewrite (match_pattern_prefix dir _ (ds, EmptyString) Hd).
  - rewrite re_sub_fuel_nil, append_nil_r. now apply int_of_digits.
  - rewrite append_cons, append_nil_l. cbn [match_pattern].
    change (is_newline "/") with false. cbv iota.
    now rewrite match_pattern_name.
Qed.

Lemma fold_max_spec (l : list Z) (x : Z) :
  In (fold_left Z.max l x) (x :: l) /\
  forall y, In y (x :: l) -> y <= fold_left Z.max l x.
Proof.
  revert x. induction l as [|z l IH]; intros x.
  - cbn. split; [now left | intros y [<-|[]]; lia].
  - cbn [fold_left]. destruct (IH (Z.max x z)) as [Hin Hub]. split.
    + destruct Hin as [Hin|Hin]; [|now right; right].
      destruct (Z.max_spec x z) as [[_ E]|[_ E]]; rewrite <- Hin, E;
        [right; now left | now left].
    + specialize (Hub (Z.max x z) (or_introl eq_refl)) as Hxz.
      intros y [<-|[<-|Hy]]; [lia | lia | apply Hub; now right].
Qed.

Lemma max_list_spec (l : list Z) :
  l <> [] -> In (max_list l) l /\ forall y, In y l -> y <= max_list l.
Proof. destruct l as [|x l]; [congruence|]. intros _. apply fold_max_spec. Qed.

Section Resume.

Variable sample : Type.
Variable val_set : Z -> Z -> list sample.
Variable error_valid : Z -> list sample -> Q.
Variable load_checkpoint : string -> result Z.
Variable glob : string -> list string.
Variable n_devices : Z.
Variable mpi_rank : Z.

Lemma indices_of_files (fs dss : list string) :
  Forall2 is_checkpoint_path fs dss ->
  map_each (fun f => int_of_string (re_sub f)) fs
  = Ok (map (decimal 0) dss).
Proof.
  intros H.
  induction H as [|f ds fs dss (dir & e & Hd & He & ->) _ IH];
    [reflexivity|].
  cbn [map map_each]. rewrite (re_sub_checkpoint _ _ _ Hd He).
  cbn [Py.bind]. now rewrite IH.
Qed.

(** C7, as the code has it.  Without [use_latest_checkpoint] the loop
    starts at iteration 0.  With it, when every path that [glob] gives for
    [<model_save_path>/checkpoint_*.json] is [<dir>/checkpoint_<digits>.json]
    with a [<dir>] without newline: when [glob] gives no path the loop
    starts at 0, and otherwise at what [load_checkpoint] returns for
    [<model_save_path>/checkpoint_<index>.json], [index] being the greatest
    of the numbers the digits write.  The training steps of a run that
    returns are those from that iteration to
    [int(max_iter / n_devices) - 1]. *)
Theorem resume_from_latest_checkpoint (a : args) (dss : list string) :
  (use_latest_checkpoint a = false ->
   start_point load_checkpoint glob a = Ok 0) /\
  (use_latest_checkpoint a = true ->
   Forall2 is_checkpoint_path (glob_checkpoints glob a) dss ->
   (dss = [] -> start_point load_checkpoint glob a = Ok 0) /\
   (dss <> [] ->
    let index := max_list (map (decimal 0) dss) in
    In index (map (decimal 0) dss) /\
    (forall k, In k (map (decimal 0) dss) -> k <= index) /\
    start_point load_checkpoint glob a
    = load_checkpoint (checkpoint_file a index))) /\
  (forall st,
      train sample val_set error_valid load_checkpoint glob
            n_devices mpi_rank a = Ok st ->
      exists start,
        start_point load_checkpoint glob a = Ok start /\
        solver_updates (log st)
        = range start (Z.quot (max_iter a) n_devices)).
Proof.
  split; [|split].
  - intros Hc. unfold start_point. now rewrite Hc.
  - intros Hc H. unfold start_point. rewrite Hc.
    pose proof H as Hlen. apply Forall2_length in Hlen.
    rewrite Hlen, (indices_of_files _ _ H). split.
    + intros ->. reflexivity.
    + intros Hne. destruct dss as [|ds dss']; [congruence|].
      cbn [length Nat.eqb Py.bind]. cbv zeta.
      destruct (max_list_spec (map (decimal 0) (ds :: dss')))
        as [Hin Hub]; [discriminate|]. tauto.
  - intros st Hst.
    destruct (train_log _ _ _ _ _ _ _ a st Hst)
      as (w & slope & start & stop & period & evs & _ & _ & H0 & Hstop & _
          & Hl & Hu & _).
    apply n_steps_inv in Hstop as (_ & ->).
    exists start. split; [exact H0|].
    rewrite Hl. unfold solver_updates in *. cbn [flat_map app].
    rewrite flat_map_app, Hu. destruct (mpi_rank =? 0); cbn;
      now rewrite app_nil_r.
Qed.

End Resume.

(** *** Checkpoints under the names the start-up itself forms *)

(** The name of the checkpoint of iteration [k] as line 138 forms it. *)
Definition checkpoint_name (k : Z) : string :=
  ("checkpoint_" +:+ str k +:+ ".json")%string.

Lemma all_digits_uint (d : Decimal.uint) :
  all_digits (NilEmpty.string_of_uint d) = true.
Proof.
  induction d; [reflexivity|..];
    cbn [NilEmpty.string_of_uint all_digits]; now rewrite IHd.
Qed.

Lemma decimal_uint_acc (d : Decimal.uint) :
  forall p, decimal (Z.pos p) (NilEmpty.string_of_uint d)
            = Z.pos (Pos.of_uint_acc d p).
Proof.
  induction d; intros p; [reflexivity|..];
    cbn [NilEmpty.string_of_uint decimal Pos.of_uint_acc];
    rewrite <- IHd; f_equal;
    match goal with
    | |- context [default 0 (digit_value ?c)] =>
        let v := eval vm_compute in (default 0 (digit_value c)) in
        change (default 0 (digit_value c)) with v
    end; lia.
Qed.

Lemma decimal_uint (d : Decimal.uint) :
  decimal 0 (NilEmpty.string_of_uint d) = Z.of_N (Pos.of_uint d).
Proof.
  induction d; [reflexivity| exact IHd |..];
    cbn [NilEmpty.string_of_uint decimal Pos.of_uint Z.of_N];
    match goal with
    | |- context [10 * 0 + default 0 (digit_value ?c)] =>
        let v := eval vm_compute in (10 * 0 + default 0 (digit_value c)) in
        change (10 * 0 + default 0 (digit_value c)) with v
    end; apply decimal_uint_acc.
Qed.

(** [str] writes an int that is not negative in digits that [int] reads
    back as that int. *)
Lemma str_digits (k : Z) :
  0 <= k ->
  all_digits (str k) = true /\ str k <> EmptyString /\
  decimal 0 (str k) = k.
Proof.
  intros Hk. unfold str. destruct k as [|p|p]; [|clear Hk|lia].
  - repeat split. discriminate.
  - cbn [Z.to_int NilZero.string_of_int]. unfold NilZero.string_of_uint.
    pose proof (DecimalPos.Unsigned.to_uint_nonnil p) as Hnil.
    pose proof (DecimalPos.Unsigned.of_to p) as Hof.
    pose proof (all_digits_uint (Pos.to_uint p)) as Hd.
    pose proof (decimal_uint (Pos.to_uint p)) as Hv.
    rewrite Hof in Hv.
    destruct (Pos.to_uint p); [congruence|..];
      (split; [exact Hd|]); (split; [discriminate | exact Hv]).
Qed.

Lemma checkpoint_file_name (a : args) (k : Z) :
  checkpoint_file a k
  = (model_save_path a +:+ "/" +:+ checkpoint_name k)%string.
Proof.
  unfold checkpoint_file, checkpoint_name.
  now rewrite !append_cons, append_nil_l.
Qed.

Lemma checkpoint_files (a : args) (ks : list Z) :
  no_newline (model_save_path a) = true ->
  (forall k, In k ks -> 0 <= k) ->
  Forall2 is_checkpoint_path (map (checkpoint_file a) ks) (map str ks) /\
  map (decimal 0) (map str ks) = ks.
Proof.
  intros Hp.
  induction ks as [|k ks IH]; intros H; [split; [constructor | reflexivity]|].
  destruct (str_digits k (H k (or_introl eq_refl))) as (Hd & Hne & Hv).
  destruct IH as [IH1 IH2]; [intros k' Hk'; apply H; now right|].
  cbn [map]. split.
  - constructor; [|exact IH1].
    exists (model_save_path a), (checkpoint_name k).
    split; [exact Hp|]. split; [|apply checkpoint_file_name].
    repeat split; assumption.
  - now rewrite Hv, IH2.
Qed.

Section Names.

Variable load_checkpoint : string -> result Z.
Variable glob : string -> list string.

(** X17.  The path the start-up forms for the checkpoint of an iteration
    [k >= 0], [<model_save_path>/checkpoint_<k>.json], gives [k] back
    through [re.sub] and [int] when the path of the directory has no
    newline.  So when the paths [glob] gives are those of the checkpoints
    of the iterations [ks], the file handed to [load_checkpoint] is that of
    the greatest of them, which is among the files found. *)
Theorem own_checkpoints_resume_latest (a : args) (ks : list Z) :
  no_newline (model_save_path a) = true ->
  (forall k, In k ks -> 0 <= k) ->
  (forall k, 0 <= k ->
     int_of_string (re_sub (checkpoint_file a k)) = Ok k) /\
  (use_latest_checkpoint a = true -> ks <> [] ->
   glob_checkpoints glob a = map (checkpoint_file a) ks ->
   In (max_list ks) ks /\
   In (checkpoint_file a (max_list ks)) (glob_checkpoints glob a) /\
   start_point load_checkpoint glob a
   = load_checkpoint (checkpoint_file a (max_list ks))).
Proof.
  intros Hp Hks. split.
  - intros k Hk. destruct (str_digits k Hk) as (Hd & Hne & Hv).
    rewrite checkpoint_file_name.
    rewrite (re_sub_checkpoint (model_save_path a) (checkpoint_name k)
               (str k) Hp); [now rewrite Hv|].
    repeat split; assumption.
  - intros Hc Hne Hglob.
    destruct (checkpoint_files a ks Hp Hks) as [Hnames Hvalues].
    destruct (max_list_spec ks Hne) as [Hin _].
    split; [exact Hin|]. split.
    + rewrite Hglob. now apply in_map.
    + unfold start_point. rewrite Hc, Hglob, length_map.
      destruct ks as [|k ks']; [congruence|]. cbn [length Nat.eqb].
      rewrite (indices_of_files _ _ Hnames), Hvalues.
      reflexivity.
Qed.

End Names.

(** *** A run on two devices *)

Definition example_args : args :=
  {| batch_size := 100; learning_rate := 0.001; warmup_epoch := 5;
     max_iter := 20; args_model_save_interval := 1000;
     model_save_path := "out"; use_latest_checkpoint := false |}.

Definition example_val_set (r i : Z) : list unit :=
  repeat tt (Z.to_nat n_valid_samples).

Definition example_error (i : Z) (batch : list unit) : Q := 1 # 4.

Definition example_load (path : string) : result Z := Ok 5.

(** A file system in which [glob] finds nothing. *)
Definition no_files (pattern : string) : list string := [].

(** A file system in which [glob] finds the paths [files] for the pattern
    [out/checkpoint_*.json] and nothing for another pattern. *)
Definition out_listing (files : list string) (pattern : string)
  : list string :=
  if String.eqb pattern "out/checkpoint_*.json" then files else [].

Definition example_iteration (rank : Z) : state -> Z -> result state :=
  iteration unit example_val_set example_error 2 rank example_args
            1250 (1 # 1250000).

Definition example_train (rank : Z) : result state :=
  train unit example_val_set example_error example_load no_files 2 rank
        example_args.

Definition resume_args : args :=
  {| batch_size := 100; learning_rate := 0.001; warmup_epoch := 5;
     max_iter := 20; args_model_save_interval := 1000;
     model_save_path := "out"; use_latest_checkpoint := true |}.

(** A directory whose path is [a], a newline, [b]. *)
Definition newline_args : args :=
  {| batch_size := 100; learning_rate := 0.001; warmup_epoch := 5;
     max_iter := 20; args_model_save_interval := 1000;
     model_save_path := String "a" (String "010" "b");
     use_latest_checkpoint := true |}.

(** A file system in which only [out/checkpoint_<index>.json] can be
    loaded. *)
Definition load_only (index : Z) (path : string) : result Z :=
  if String.eqb path (checkpoint_file resume_args index) then Ok index
  else Raise OSError.

Lemma example_healthy :
  1 <= 2 /\ 1 <= batch_size example_args /\
  batch_size example_args * 2 <= n_valid_samples /\
  forall r i, length (example_val_set r i) = Z.to_nat n_valid_samples.
Proof.
  split; [lia|]. split; [cbn; lia|]. split; [now cbn|].
  intros r i. apply repeat_length.
Qed.

Lemma example_warmup :
  warmup_iter 2 example_args = Ok 1250 /\
  warmup_slope 2 example_args = Ok (1 # 1250000).
Proof. split; vm_compute; reflexivity. Qed.

Lemma fresh_run_steps_witness :
  warmup_epoch example_args <> 0 /\
  use_latest_checkpoint example_args = false /\
  exists st,
    example_train 1 = Ok st /\ length (solver_updates (log st)) = 10%nat.
Proof.
  destruct example_healthy as (Hn & Hbs & Hfit & Hlen).
  assert (Hw : warmup_epoch example_args <> 0) by (cbn; lia).
  split; [exact Hw|]. split; [reflexivity|]. unfold example_train.
  destruct (fresh_run_steps unit example_val_set example_error example_load
              no_files 2 1 example_args eq_refl Hn) as [Hruns Hsteps].
  destruct (Hruns Hbs Hfit Hlen Hw ltac:(lia)) as [st Htrain].
  destruct (Hsteps st Htrain) as (_ & _ & _ & _ & H20).
  exists st. split; [exact Htrain | now apply H20].
Defined.

Lemma validation_error_is_mean_of_ranks_witness :
  validation unit example_val_set example_error 2 1 example_args 0
  = Ok (Qsum (map (fun r => local_mean unit example_val_set example_error
                                       2 example_args r 0)
                  (range 0 2)) / inject_Z 2)%Q.
Proof.
  destruct example_healthy as (Hn & Hbs & Hfit & Hlen).
  destruct (validation_error_is_mean_of_ranks
              unit example_val_set example_error 2 1 example_args 0)
    as (_ & Hmean & Hlocals).
  apply (Hmean _ (Hlocals Hn Hbs Hfit Hlen)). lia.
Defined.

Lemma short_batches_are_skipped_witness :
  Z.of_nat (length (slice (example_val_set 1 0) 9950
                          (9950 + batch_size example_args))) = 50 /\
  validation_loop unit example_val_set example_error example_args 1 0
                  [0; 9950]
  = validation_loop unit example_val_set example_error example_args 1 0 [0].
Proof.
  assert (Hlen : Z.of_nat (length (slice (example_val_set 1 0) 9950
                                         (9950 + batch_size example_args)))
                 = 50) by (vm_compute; reflexivity).
  split; [exact Hlen|].
  apply (proj1 (proj2 (short_batches_are_skipped
                         unit example_val_set example_error 2
                         example_args 1 0)) [0] 9950 []).
  rewrite Hlen. cbn. lia.
Defined.

Lemma only_rank_zero_writes_witness :
  1 <> 0 /\ exists st, example_train 1 = Ok st /\ writes (log st) = [].
Proof.
  assert (Hr : 1 <> 0) by lia. split; [exact Hr|]. unfold example_train.
  destruct (train unit example_val_set example_error example_load no_files
                  2 1 example_args) as [st|e] eqn:Hst;
    [|vm_compute in Hst; discriminate].
  exists st. split; [reflexivity|].
  exact (proj2 (only_rank_zero_writes unit example_val_set example_error
                  example_load no_files 2 1 example_args Hr) st Hst).
Defined.

Lemma warmup_learning_rate_witness :
  warmup_iter 2 example_args = Ok 1250 /\
  warmup_slope 2 example_args = Ok (1 # 1250000) /\
  exists st',
    example_iteration 1 (init example_args) 3 = Ok st' /\
    lr st' = (0.001 + (1 # 1250000) * inject_Z 3)%Q.
Proof.
  destruct example_warmup as [Hw Hs]. split; [exact Hw|].
  split; [exact Hs|]. unfold example_iteration.
  destruct (iteration unit example_val_set example_error 2 1 example_args
                      1250 (1 # 1250000) (init example_args) 3)
    as [st'|e] eqn:Hit; [|vm_compute in Hit; discriminate].
  exists st'. split; [reflexivity|].
  apply (proj1 (proj2 (warmup_learning_rate
                         unit example_val_set example_error example_load
                         no_files 2 1 example_args 1250 (1 # 1250000) Hw Hs))
               (init example_args) 3 st' Hit).
  lia.
Defined.

Lemma warmup_line_witness :
  warmup_iter 2 example_args = Ok 1250 /\
  warmup_slope 2 example_args = Ok (1 # 1250000) /\
  exists st',
    example_iteration 1 (init example_args) 1250 = Ok st' /\
    (lr st' == inject_Z 2 * learning_rate example_args)%Q.
Proof.
  destruct example_warmup as [Hw Hs]. split; [exact Hw|].
  split; [exact Hs|]. unfold example_iteration.
  destruct (iteration unit example_val_set example_error 2 1 example_args
                      1250 (1 # 1250000) (init example_args) 1250)
    as [st'|e] eqn:Hit; [|vm_compute in Hit; discriminate].
  exists st'. split; [reflexivity|].
  apply (warmup_line unit example_val_set example_error 2 1 example_args
                     1250 (1 # 1250000) Hw Hs
                     (init example_args) 1250 st' ltac:(lia) Hit).
  reflexivity.
Defined.

(** C1 as the specification words it fails: the rate set at step 0 is
    [base_lr], not 0, and the rate set at step [warmup_iter] is
    [2 * base_lr] on two devices, not [base_lr]. *)
Lemma warmup_does_not_start_at_zero :
  warmup_iter 2 example_args = Ok 1250 /\
  warmup_slope 2 example_args = Ok (1 # 1250000) /\
  (exists st',
      example_iteration 0 (init example_args) 0 = Ok st' /\
      (lr st' == 0.001)%Q /\
      ~ (lr st' == line_from_zero example_args 1250 0)%Q) /\
  (exists st',
      example_iteration 0 (init example_args) 1250 = Ok st' /\
      (lr st' == 0.002)%Q /\
      ~ (lr st' == line_from_zero example_args 1250 1250)%Q).
Proof.
  destruct example_warmup as [Hw Hs]. split; [exact Hw|].
  split; [exact Hs|]. unfold example_iteration. split.
  - destruct (iteration unit example_val_set example_error 2 0 example_args
                        1250 (1 # 1250000) (init example_args) 0)
      as [st'|e] eqn:Hit; [|vm_compute in Hit; discriminate].
    exists st'. split; [reflexivity|].
    apply iteration_inv in Hit as (_ & _ & -> & _).
    split; [reflexivity|]. intros E. vm_compute in E. discriminate.
  - destruct (iteration unit example_val_set example_error 2 0 example_args
                        1250 (1 # 1250000) (init example_args) 1250)
      as [st'|e] eqn:Hit; [|vm_compute in Hit; discriminate].
    exists st'. split; [reflexivity|].
    apply iteration_inv in Hit as (_ & _ & -> & _).
    split; [reflexivity|]. intros E. vm_compute in E. discriminate.
Qed.

Lemma resume_from_latest_checkpoint_witness :
  use_latest_checkpoint resume_args = true /\
  Forall2 is_checkpoint_path
          ["out/checkpoint_5.json"; "out/checkpoint_12.json"]
          ["5"; "12"] /\
  start_point (load_only 12)
              (out_listing ["out/checkpoint_5.json";
                            "out/checkpoint_12.json"])
              resume_args
  = Ok 12.
Proof.
  split; [reflexivity|].
  assert (H : Forall2 is_checkpoint_path
                ["out/checkpoint_5.json"; "out/checkpoint_12.json"]
                ["5"; "12"]).
  { constructor; [|constructor; [|constructor]].
    - exists "out", "checkpoint_5.json". split; [reflexivity|].
      split; [|reflexivity].
      split; [reflexivity | split; [discriminate | reflexivity]].
    - exists "out", "checkpoint_12.json". split; [reflexivity|].
      split; [|reflexivity].
      split; [reflexivity | split; [discriminate | reflexivity]]. }
  split; [exact H|].
  destruct (proj1 (proj2 (resume_from_latest_checkpoint
                     unit example_val_set example_error (load_only 12)
                     (out_listing ["out/checkpoint_5.json";
                                   "out/checkpoint_12.json"])
                     2 1 resume_args ["5"; "12"]))
              eq_refl H) as [_ Hload].
  destruct (Hload ltac:(discriminate)) as (_ & _ & ->).
  reflexivity.
Defined.

(** C7 as the specification words it fails: next to [checkpoint_5.json],
    which [load_checkpoint] would resume from iteration 5, a file
    [checkpoint_best.json] makes the start-up raise [ValueError]; so it
    does in a directory with no numbered checkpoint at all, where the
    loop should start at 0; and so it does for [checkpoint_5.json] alone
    in a directory whose path has a newline, which [.*] does not cross. *)
Lemma stray_checkpoint_name_raises :
  load_only 5 (checkpoint_file resume_args 5) = Ok 5 /\
  start_point (load_only 5)
              (out_listing ["out/checkpoint_5.json";
                            "out/checkpoint_best.json"])
              resume_args = Raise ValueError /\
  start_point (load_only 5)
              (out_listing ["out/checkpoint_5.json";
                            "out/checkpoint_best.json"])
              resume_args
  <> load_only 5 (checkpoint_file resume_args 5) /\
  start_point (load_only 5) (out_listing ["out/checkpoint_best.json"])
              resume_args
  = Raise ValueError /\
  start_point (load_only 5) (out_listing ["out/checkpoint_best.json"])
              resume_args <> Ok 0 /\
  re_sub (model_save_path newline_args +:+ "/checkpoint_5.json")
  = String "a" (String "010" "5") /\
  start_point (fun _ => Ok 5)
              (fun _ => [(model_save_path newline_args
                          +:+ "/checkpoint_5.json")%string])
              newline_args
  = Raise ValueError.
Proof. repeat split; vm_compute; (reflexivity || discriminate). Qed.

(** *** Runs outside the healthy arguments, and resumed runs *)

Definition no_warmup_args : args :=
  {| batch_size := 100; learning_rate := 0.001; warmup_epoch := 0;
     max_iter := 20; args_model_save_interval := 1000;
     model_save_path := "out"; use_latest_checkpoint := false |}.

Definition big_batch_args : args :=
  {| batch_size := 6000; learning_rate := 0.001; warmup_epoch := 5;
     max_iter := 20; args_model_save_interval := 1000;
     model_save_path := "out"; use_latest_checkpoint := false |}.

(** A run that goes beyond its warm-up of 1250 steps. *)
Definition long_resume_args : args :=
  {| batch_size := 100; learning_rate := 0.001; warmup_epoch := 5;
     max_iter := 2510; args_model_save_interval := 1000;
     model_save_path := "out"; use_latest_checkpoint := true |}.

(** A run resumed from [out/checkpoint_<index>.json], the only checkpoint
    [glob] finds. *)
Definition resumed_train (a : args) (index rank : Z) : result state :=
  train unit example_val_set example_error (load_only index)
        (out_listing [checkpoint_file a index]) 2 rank a.

Lemma startup_division_by_zero_witness :
  0 <= batch_size no_warmup_args /\ 1 <= 2 /\
  train unit example_val_set example_error example_load no_files 2 0
        no_warmup_args
  = Raise ZeroDivisionError.
Proof.
  assert (Hb : 0 <= batch_size no_warmup_args) by (cbn; lia).
  assert (Hn : 1 <= 2) by lia.
  split; [exact Hb|]. split; [exact Hn|].
  destruct (startup_division_by_zero
              unit example_val_set example_error example_load no_files 2 0
              no_warmup_args Hb Hn) as [Hiff Hraise].
  apply Hraise, Hiff. right; left. reflexivity.
Defined.

Lemma single_device_keeps_base_rate_witness :
  exists st,
    train unit example_val_set example_error example_load no_files 1 0
          example_args = Ok st /\
    forall x, In x (learning_rates (log st)) ->
              (x == learning_rate example_args)%Q.
Proof.
  destruct (train unit example_val_set example_error example_load no_files 1 0
                  example_args) as [st|e] eqn:Hst;
    [|vm_compute in Hst; discriminate].
  exists st. split; [reflexivity|].
  exact (proj2 (single_device_keeps_base_rate
                  unit example_val_set example_error example_load no_files 1 0
                  example_args st eq_refl Hst)).
Defined.

Lemma resumed_run_steps_witness :
  start_point (load_only 5) (out_listing [checkpoint_file resume_args 5])
              resume_args = Ok 5 /\
  exists st,
    resumed_train resume_args 5 1 = Ok st /\
    solver_updates (log st) = [5; 6; 7; 8; 9].
Proof.
  assert (H0 : start_point (load_only 5)
                           (out_listing [checkpoint_file resume_args 5])
                           resume_args = Ok 5) by (vm_compute; reflexivity).
  split; [exact H0|]. unfold resumed_train.
  destruct (train unit example_val_set example_error (load_only 5)
                  (out_listing [checkpoint_file resume_args 5]) 2 1
                  resume_args)
    as [st|e] eqn:Hst; [|vm_compute in Hst; discriminate].
  exists st. split; [reflexivity|].
  exact (proj1 (resumed_run_steps
                  unit example_val_set example_error (load_only 5)
                  (out_listing [checkpoint_file resume_args 5]) 2 1
                  resume_args st 5 Hst H0)).
Defined.

Lemma resume_past_warmup_keeps_base_rate_witness :
  warmup_iter 2 long_resume_args = Ok 1250 /\
  start_point (load_only 1251)
              (out_listing [checkpoint_file long_resume_args 1251])
              long_resume_args
  = Ok 1251 /\
  exists st,
    resumed_train long_resume_args 1251 1 = Ok st /\
    solver_updates (log st) = [1251; 1252; 1253; 1254] /\
    learning_rates (log st) = [learning_rate long_resume_args].
Proof.
  assert (Hw : warmup_iter 2 long_resume_args = Ok 1250)
    by (vm_compute; reflexivity).
  assert (H0 : start_point (load_only 1251)
                           (out_listing
                              [checkpoint_file long_resume_args 1251])
                           long_resume_args = Ok 1251)
    by (vm_compute; reflexivity).
  split; [exact Hw|]. split; [exact H0|]. unfold resumed_train.
  destruct (train unit example_val_set example_error (load_only 1251)
                  (out_listing [checkpoint_file long_resume_args 1251])
                  2 1 long_resume_args)
    as [st|e] eqn:Hst; [|vm_compute in Hst; discriminate].
  exists st. split; [reflexivity|]. split.
  - pose proof Hst as Hc. vm_compute in Hc. injection Hc as <-.
    vm_compute. reflexivity.
  - apply (resume_past_warmup_keeps_base_rate
             unit example_val_set example_error (load_only 1251)
             (out_listing [checkpoint_file long_resume_args 1251])
             2 1 long_resume_args st 1250 1251 Hst Hw H0).
    lia.
Defined.


Lemma snapshots_follow_checkpoints_witness :
  exists st,
    example_train 0 = Ok st /\
    snapshots (log st)
    = map (params_file example_args) (checkpoints (log st))
      ++ [params_file example_args 10] /\
    List.NoDup (snapshots (log st)).
Proof.
  unfold example_train.
  destruct (train unit example_val_set example_error example_load no_files 2 0
                  example_args) as [st|e] eqn:Hst;
    [|vm_compute in Hst; discriminate].
  exists st. split; [reflexivity|].
  destruct (snapshots_follow_checkpoints
              unit example_val_set example_error example_load no_files 2 0
              example_args st 0 10 Hst eq_refl eq_refl)
    as (Hsnap & _ & _ & Hnd).
  split; [exact Hsnap | apply Hnd; lia].
Defined.


Lemma batches_tile_partition_witness :
  n_valid_samples = 625 * 16 /\
  exists js,
    range3 (625 * 0) (625 * (0 + 1)) (batch_size example_args) = Ok js /\
    625 * (0 + 1)
    <= 625 * 0 + Z.of_nat (length js) * batch_size example_args
    < 625 * (0 + 1) + batch_size example_args.
Proof.
  assert (Hper : n_valid_samples = 625 * 16) by reflexivity.
  split; [exact Hper|].
  destruct (batches_tile_partition
              unit example_val_set example_error 16 example_args 0 0 625
              ltac:(lia) ltac:(lia) ltac:(cbn; lia) Hper)
    as (js & _ & _ & Hr3 & _ & _ & Hb).
  exists js. split; assumption.
Defined.

Lemma even_partition_is_covered_witness :
  n_valid_samples = 5000 * 2 /\ 5000 = 50 * batch_size example_args /\
  exists js,
    range3 (5000 * 1) (5000 * (1 + 1)) (batch_size example_args) = Ok js /\
    snd (validation_loop unit example_val_set example_error example_args
                         1 0 js) = 50.
Proof.
  assert (Hper : n_valid_samples = 5000 * 2) by reflexivity.
  assert (Hk : 5000 = 50 * batch_size example_args) by reflexivity.
  split; [exact Hper|]. split; [exact Hk|].
  destruct (even_partition_is_covered
              unit example_val_set example_error 2 example_args 1 0
              5000 50 ltac:(lia) ltac:(lia) ltac:(cbn; lia)
              (repeat_length tt (Z.to_nat n_valid_samples)) Hper Hk)
    as (js & _ & _ & Hr3 & _ & Hloop & _).
  exists js. split; [exact Hr3|]. now rewrite Hloop.
Defined.

Lemma even_partition_mean_witness :
  1 <= 2 /\ 1 <= batch_size example_args /\
  n_valid_samples = 5000 * 2 /\ 5000 = 50 * batch_size example_args /\
  exists v,
    validation unit example_val_set example_error 2 1 example_args 0
    = Ok v /\
    (v == Qsum (flat_map
                  (fun r => map (example_error 0)
                                (full_batches unit example_val_set
                                              example_args r 0
                                              (batch_starts 2 example_args
                                                            r)))
                  (range 0 2))
          / inject_Z (2 * 50))%Q.
Proof.
  assert (Hn : 1 <= 2) by lia.
  assert (Hbs : 1 <= batch_size example_args) by (cbn; lia).
  assert (Hper : n_valid_samples = 5000 * 2) by reflexivity.
  assert (Hk : 5000 = 50 * batch_size example_args) by reflexivity.
  split; [exact Hn|]. split; [exact Hbs|]. split; [exact Hper|].
  split; [exact Hk|].
  apply (even_partition_mean
           unit example_val_set example_error 2 1 example_args 0 5000 50
           Hn Hbs (fun r i => repeat_length tt (Z.to_nat n_valid_samples))
           Hper Hk).
  lia.
Defined.

Lemma own_checkpoints_resume_latest_witness :
  no_newline (model_save_path resume_args) = true /\
  start_point (load_only 12)
              (out_listing [checkpoint_file resume_args 5;
                            checkpoint_file resume_args 12])
              resume_args
  = Ok 12.
Proof.
  assert (Hp : no_newline (model_save_path resume_args) = true)
    by reflexivity.
  split; [exact Hp|].
  assert (Hks : forall k, In k [5; 12] -> 0 <= k).
  { intros k [<-|[<-|[]]]; lia. }
  destruct (own_checkpoints_resume_latest
              (load_only 12)
              (out_listing [checkpoint_file resume_args 5;
                            checkpoint_file resume_args 12])
              resume_args [5; 12] Hp Hks) as (_ & Hresume).
  destruct Hresume as (_ & _ & ->);
    [reflexivity | discriminate | vm_compute; reflexivity |].
  vm_compute. reflexivity.
Defined.

End Distributed.
